(** * xOpenSPIM file renaming: the filename codec and the folder monitor

    A shallow embedding of [move_and_rename_files_from_xOpenSPIM.py] and the
    properties of its two filename grammars, of the per-file processor and of
    the two triggers of the monitor.

    Python strings are lists of characters; a character is a code point below
    256 (the type [ascii]), with the interpreter's classes [\d], [\w] and the
    white space of [int()] restricted to that range. *)

From Stdlib Require Import ZArith Ascii String.
From stdpp Require Import base tactics option list gmap sets strings sorting.

Local Open Scope char_scope.
Local Open Scope Z_scope.

Abbreviation str := (list ascii) (only parsing).

(** A string literal of the source. *)
Definition lit (x : string) : str := list_ascii_of_string x.

(** ** The Python string primitives the script uses *)

Module Py.

Definition code (c : ascii) : N := N_of_ascii c.

Definition between (lo hi : N) (c : ascii) : bool :=
  ((lo <=? code c) && (code c <=? hi))%N.

(** [\d] of [re] on a [str] pattern: the decimal digits. *)
Definition is_digit (c : ascii) : bool := between 48 57 c.

(** [\w] of [re] on a [str] pattern: alphanumeric characters and the
    underscore; above 127 these are the Latin-1 letters and numerics. *)
Definition is_word (c : ascii) : bool :=
  is_digit c || between 65 90 c || between 97 122 c
  || bool_decide (c = "_")
  || bool_decide (code c ∈ [170; 178; 179; 181; 185; 186; 188; 189; 190]%N)
  || between 192 214 c || between 216 246 c || between 248 255 c.

(** The white space [int()] skips around a literal. *)
Definition is_space (c : ascii) : bool :=
  between 9 13 c || bool_decide (code c ∈ [32; 133; 160]%N).

(** [s.lstrip(chars)], [s.rstrip(chars)], [s.strip(chars)]. *)
Fixpoint lstrip (p : ascii → bool) (s : str) : str :=
  match s with
  | c :: s' => if p c then lstrip p s' else s
  | [] => []
  end.

Definition rstrip (p : ascii → bool) (s : str) : str :=
  reverse (lstrip p (reverse s)).

Definition strip (p : ascii → bool) (s : str) : str :=
  rstrip p (lstrip p s).

Definition one_of (chars : str) (c : ascii) : bool :=
  bool_decide (c ∈ chars).

(** [s.partition(sep)] for a one-character separator, [None] when the
    separator does not occur. *)
Fixpoint cut (sep : ascii) (s : str) : option (str * str) :=
  match s with
  | [] => None
  | c :: s' =>
      if bool_decide (c = sep) then Some ([], s')
      else prod_map (cons c) id <$> cut sep s'
  end.

(** [s.split(sep, 1)] for a one-character separator. *)
Definition split1 (sep : ascii) (s : str) : list str :=
  match cut sep s with
  | Some (a, b) => [a; b]
  | None => [s]
  end.

Definition digit_val (c : ascii) : Z := Z.of_N (code c) - 48.

(** The digits of an [int()] literal: [digit (_? digit)*]. *)
Fixpoint digits (s : str) (acc : Z) (after_digit : bool) : option Z :=
  match s with
  | [] => if after_digit then Some acc else None
  | c :: s' =>
      if is_digit c then digits s' (10 * acc + digit_val c) true
      else if bool_decide (c = "_") && after_digit then digits s' acc false
      else None
  end.

(** [sys.get_int_max_str_digits()]: the interpreter's limit on the number
    of digits of a decimal literal, which the script leaves at its default. *)
Definition int_max_str_digits : Z := 4300.

(** The number of digit characters of [s]. *)
Fixpoint count_digits (s : str) : nat :=
  match s with
  | [] => 0%nat
  | c :: s' => ((if is_digit c then 1 else 0) + count_digits s')%nat
  end.

(** An unsigned literal: [None] when it has more digits than the limit
    allows, or is no literal at all. *)
Definition literal (s : str) : option Z :=
  if int_max_str_digits <? Z.of_nat (count_digits s) then None
  else digits s 0 false.

(** [int(s)]: white space around, an optional sign, decimal digits, no
    more of them than [int_max_str_digits]; [None] stands for
    [ValueError]. *)
Definition int (s : str) : option Z :=
  let s := rstrip is_space (lstrip is_space s) in
  match s with
  | "-" :: s' => Z.opp <$> literal s'
  | "+" :: s' => literal s'
  | _ => literal s
  end.

Definition digit_char (d : Z) : ascii := ascii_of_N (48 + Z.to_N d).

Fixpoint decimal_go (fuel : nat) (n : Z) (acc : str) : str :=
  match fuel with
  | O => acc
  | S k =>
      let acc' := digit_char (n mod 10) :: acc in
      if n <? 10 then acc' else decimal_go k (n / 10) acc'
  end.

(** The decimal digits of a natural number. *)
Definition decimal (n : Z) : str :=
  decimal_go (S (Z.to_nat (Z.log2 n))) n [].

(** Whether the interpreter formats [n]: [str(n)] and an f-string raise
    [ValueError] for a number of more than [int_max_str_digits] digits. *)
Definition formats (n : Z) : bool := Z.abs n <? 10 ^ int_max_str_digits.

(** [str(n)], which is also [f"{n}"], of a number the interpreter
    formats; [int] returns no other. *)
Definition str_int (n : Z) : str :=
  if n <? 0 then "-" :: decimal (- n) else decimal n.

Definition zfill (w : nat) (ds : str) : str :=
  replicate (w - length ds) "0" ++ ds.

(** [f"{n:0w}"]: sign-aware zero padding to width [w], of a number the
    interpreter formats. *)
Definition format0 (w : nat) (n : Z) : str :=
  if n <? 0 then "-" :: zfill (w - 1) (decimal (- n))
  else zfill w (decimal n).

(** [s.lower()] on code points below 256. *)
Definition lower_char (c : ascii) : ascii :=
  if between 65 90 c || between 192 214 c || between 216 222 c
  then ascii_of_N (code c + 32) else c.

Definition lower (s : str) : str := lower_char <$> s.

End Py.

(** ** The two regular expressions, as [re] runs them *)

Module Re.

(** [s] without its prefix [p], when [s] starts with [p]. *)
Fixpoint strip_prefix (p s : str) : option str :=
  match p, s with
  | [], _ => Some s
  | a :: p', b :: s' => if bool_decide (a = b) then strip_prefix p' s' else None
  | _ :: _, [] => None
  end.

(** The length of the first alternative of [alts] that matches at the head
    of [s]: alternatives are tried in the order of the pattern. *)
Fixpoint first_alt (alts : list str) (s : str) : option nat :=
  match alts with
  | [] => None
  | a :: alts' =>
      match strip_prefix a s with
      | Some _ => Some (length a)
      | None => first_alt alts' s
      end
  end.

(** The scan of [re.split]: [cur] is the segment being read (reversed) and
    [skip] the number of characters of a matched delimiter still to pass. *)
Fixpoint split_go (alts : list str) (s : str) (skip : nat) (cur : str)
  : list str :=
  match s with
  | [] => [reverse cur]
  | c :: s' =>
      match skip with
      | S k => split_go alts s' k cur
      | O =>
          match first_alt alts s with
          | Some n => reverse cur :: split_go alts s' (pred n) []
          | None => split_go alts s' 0 (c :: cur)
          end
      end
  end.

(** [re.split(pattern, s)] for a pattern [a1|a2|...] of non-empty literals:
    the leftmost match at each position, the text between matches. *)
Definition split (alts : list str) (s : str) : list str :=
  split_go alts s 0 [].

(** The patterns [re.match] is given here: literals and capturing groups
    [(c+)] over a character class. *)
Inductive item :=
  | Lit (l : str)
  | Group (cls : ascii → bool).

(** The number of leading characters of [s] in the class. *)
Fixpoint span (cls : ascii → bool) (s : str) : nat :=
  match s with
  | c :: s' => if cls c then S (span cls s') else O
  | [] => O
  end.

(** A greedy group [(c+)] holding [n] characters at most: it takes [n]
    first and gives characters back one at a time while the rest of the
    pattern, [k], fails on what follows; it keeps one character at least. *)
Fixpoint give_back (k : str → option (list str)) (s : str) (n : nat)
  : option (list str) :=
  match n with
  | O => None
  | S m =>
      match k (drop n s) with
      | Some gs => Some (take n s :: gs)
      | None => give_back k s m
      end
  end.

Fixpoint match_items (its : list item) (s : str) : option (list str) :=
  match its with
  | [] => Some []
  | Lit l :: its' => strip_prefix l s ≫= match_items its'
  | Group cls :: its' => give_back (match_items its') s (span cls s)
  end.

(** [re.match(pattern, s)]: anchored at the start of [s], not at its end;
    the result lists the captured groups 1, 2, ... *)
Definition match_ (its : list item) (s : str) : option (list str) :=
  match_items its s.

(** [m.group(k)] for [k >= 1]. *)
Definition group (k : nat) (m : list str) : str := nth (pred k) m [].

End Re.

(** ** The part of [os.path] the script uses (POSIX flavour) *)

Module Path.

Definition is_sep (c : ascii) : bool := bool_decide (c = "/").

Fixpoint take_while (p : ascii → bool) (s : str) : str :=
  match s with
  | c :: s' => if p c then c :: take_while p s' else []
  | [] => []
  end.

(** [os.path.basename]: what follows the last slash. *)
Definition basename (p : str) : str :=
  reverse (take_while (λ c, negb (is_sep c)) (reverse p)).

(** [os.path.dirname]: what precedes the last slash, without trailing
    slashes unless it consists of slashes only. *)
Definition dirname (p : str) : str :=
  let head := reverse (Py.lstrip (λ c, negb (is_sep c)) (reverse p)) in
  if negb (forallb is_sep head) then Py.rstrip is_sep head else head.

Definition starts_with_sep (s : str) : bool :=
  match head s with
  | Some c => is_sep c
  | None => false
  end.

Definition ends_with_sep (s : str) : bool :=
  match last s with
  | Some c => is_sep c
  | None => false
  end.

(** [os.path.join(a, b)]: [b] alone when it is absolute, else [a] and [b]
    with one slash between them unless [a] is empty or ends with one. *)
Definition join (a b : str) : str :=
  if starts_with_sep b then b
  else if bool_decide (a = []) || ends_with_sep a then a ++ b
  else a ++ "/" :: b.

(** [p.rfind(c)]: the index of the last occurrence of [c], or -1. *)
Fixpoint rfind_go (c : ascii) (p : str) (i found : Z) : Z :=
  match p with
  | [] => found
  | x :: p' => rfind_go c p' (i + 1) (if bool_decide (x = c) then i else found)
  end.

Definition rfind (c : ascii) (p : str) : Z := rfind_go c p 0 (-1).

(** [os.path.splitext]: the path is cut at its last dot when that dot
    comes after the last slash and some character between the two is not a
    dot; otherwise the extension is empty. *)
Definition splitext (p : str) : str * str :=
  let sepIndex := rfind "/" p in
  let dotIndex := rfind "." p in
  if (sepIndex <? dotIndex)
     && existsb (λ x, negb (bool_decide (x = ".")))
          (drop (Z.to_nat (sepIndex + 1)) (take (Z.to_nat dotIndex) p))
  then (take (Z.to_nat dotIndex) p, drop (Z.to_nat dotIndex) p)
  else (p, []).

End Path.

(** ** Exceptions *)

Inductive exn :=
  | NotImagePlaneFile (msg : str)
  | ValueError (msg : str)
  | OSError (msg : str).

(** [str(e)]. *)
Definition exn_str (e : exn) : str :=
  match e with
  | NotImagePlaneFile m | ValueError m | OSError m => m
  end.

(** [int(s)] as a computation that may raise [ValueError], for a text
    that is no literal and for one with too many digits alike. Both
    constructors catch the exception, so its message is never shown; it is
    abbreviated here. *)
Definition int (s : str) : exn + Z :=
  match Py.int s with
  | Some n => inr n
  | None => inl (ValueError (lit "invalid literal for int() with base 10"))
  end.

(** Sequencing of computations that may raise: the first exception ends
    the block. *)
#[global] Instance exn_ret : MRet (sum exn) := λ A x, inr x.

#[global] Instance exn_bind : MBind (sum exn) := λ A B f m,
  match m with
  | inl e => inl e
  | inr x => f x
  end.

(** [try: body except ValueError: raise NotImagePlaneFile(msg)]. *)
Definition except_ValueError {A} (body : exn + A) (msg : str) : exn + A :=
  match body with
  | inl (ValueError _) => inl (NotImagePlaneFile msg)
  | r => r
  end.

(** ** [class ImageFile] *)

Record ImageFile := {
  dataset_name : str;
  timelapse_id : str;
  time_point : Z;
  specimen : Z;
  illumination : Z;
  camera : Z;
  channel : Z;
  plane : Z;
  total_num_planes : Z;
  additional_info : str;
  extension : str;
  path_to_image_dir : str
}.

(** The class-level defaults an instance starts from. [dataset_name] has no
    class-level default: both constructors assign it before anything reads
    it. *)
Definition ImageFile_class : ImageFile := {|
  dataset_name := [];
  timelapse_id := [];
  time_point := 0;
  specimen := 0;
  illumination := 0;
  camera := 0;
  channel := 0;
  plane := 0;
  total_num_planes := 0;
  additional_info := [];
  extension := [];
  path_to_image_dir := []
|}.

Definition set_dataset_name (v : str) (r : ImageFile) : ImageFile :=
  {| dataset_name := v; timelapse_id := timelapse_id r;
     time_point := time_point r; specimen := specimen r;
     illumination := illumination r; camera := camera r;
     channel := channel r; plane := plane r;
     total_num_planes := total_num_planes r;
     additional_info := additional_info r; extension := extension r;
     path_to_image_dir := path_to_image_dir r |}.

Definition set_timelapse_id (v : str) (r : ImageFile) : ImageFile :=
  {| dataset_name := dataset_name r; timelapse_id := v;
     time_point := time_point r; specimen := specimen r;
     illumination := illumination r; camera := camera r;
     channel := channel r; plane := plane r;
     total_num_planes := total_num_planes r;
     additional_info := additional_info r; extension := extension r;
     path_to_image_dir := path_to_image_dir r |}.

Definition set_time_point (v : Z) (r : ImageFile) : ImageFile :=
  {| dataset_name := dataset_name r; timelapse_id := timelapse_id r;
     time_point := v; specimen := specimen r;
     illumination := illumination r; camera := camera r;
     channel := channel r; plane := plane r;
     total_num_planes := total_num_planes r;
     additional_info := additional_info r; extension := extension r;
     path_to_image_dir := path_to_image_dir r |}.

Definition set_specimen (v : Z) (r : ImageFile) : ImageFile :=
  {| dataset_name := dataset_name r; timelapse_id := timelapse_id r;
     time_point := time_point r; specimen := v;
     illumination := illumination r; camera := camera r;
     channel := channel r; plane := plane r;
     total_num_planes := total_num_planes r;
     additional_info := additional_info r; extension := extension r;
     path_to_image_dir := path_to_image_dir r |}.

Definition set_illumination (v : Z) (r : ImageFile) : ImageFile :=
  {| dataset_name := dataset_name r; timelapse_id := timelapse_id r;
     time_point := time_point r; specimen := specimen r;
     illumination := v; camera := camera r;
     channel := channel r; plane := plane r;
     total_num_planes := total_num_planes r;
     additional_info := additional_info r; extension := extension r;
     path_to_image_dir := path_to_image_dir r |}.

Definition set_camera (v : Z) (r : ImageFile) : ImageFile :=
  {| dataset_name := dataset_name r; timelapse_id := timelapse_id r;
     time_point := time_point r; specimen := specimen r;
     illumination := illumination r; camera := v;
     channel := channel r; plane := plane r;
     total_num_planes := total_num_planes r;
     additional_info := additional_info r; extension := extension r;
     path_to_image_dir := path_to_image_dir r |}.

Definition set_channel (v : Z) (r : ImageFile) : ImageFile :=
  {| dataset_name := dataset_name r; timelapse_id := timelapse_id r;
     time_point := time_point r; specimen := specimen r;
     illumination := illumination r; camera := camera r;
     channel := v; plane := plane r;
     total_num_planes := total_num_planes r;
     additional_info := additional_info r; extension := extension r;
     path_to_image_dir := path_to_image_dir r |}.

Definition set_plane (v : Z) (r : ImageFile) : ImageFile :=
  {| dataset_name := dataset_name r; timelapse_id := timelapse_id r;
     time_point := time_point r; specimen := specimen r;
     illumination := illumination r; camera := camera r;
     channel := channel r; plane := v;
     total_num_planes := total_num_planes r;
     additional_info := additional_info r; extension := extension r;
     path_to_image_dir := path_to_image_dir r |}.

Definition set_total_num_planes (v : Z) (r : ImageFile) : ImageFile :=
  {| dataset_name := dataset_name r; timelapse_id := timelapse_id r;
     time_point := time_point r; specimen := specimen r;
     illumination := illumination r; camera := camera r;
     channel := channel r; plane := plane r;
     total_num_planes := v;
     additional_info := additional_info r; extension := extension r;
     path_to_image_dir := path_to_image_dir r |}.

Definition set_additional_info (v : str) (r : ImageFile) : ImageFile :=
  {| dataset_name := dataset_name r; timelapse_id := timelapse_id r;
     time_point := time_point r; specimen := specimen r;
     illumination := illumination r; camera := camera r;
     channel := channel r; plane := plane r;
     total_num_planes := total_num_planes r;
     additional_info := v; extension := extension r;
     path_to_image_dir := path_to_image_dir r |}.

Definition set_extension (v : str) (r : ImageFile) : ImageFile :=
  {| dataset_name := dataset_name r; timelapse_id := timelapse_id r;
     time_point := time_point r; specimen := specimen r;
     illumination := illumination r; camera := camera r;
     channel := channel r; plane := plane r;
     total_num_planes := total_num_planes r;
     additional_info := additional_info r; extension := v;
     path_to_image_dir := path_to_image_dir r |}.

Definition set_path_to_image_dir (v : str) (r : ImageFile) : ImageFile :=
  {| dataset_name := dataset_name r; timelapse_id := timelapse_id r;
     time_point := time_point r; specimen := specimen r;
     illumination := illumination r; camera := camera r;
     channel := channel r; plane := plane r;
     total_num_planes := total_num_planes r;
     additional_info := additional_info r; extension := extension r;
     path_to_image_dir := v |}.

(** [split_by], the pattern text, and the alternatives it denotes (the last
    one, an escaped dot, is the literal dot). *)
Definition split_by : str :=
  lit "timelapseID-|SPC-|TP-|ILL-|CAM-|CH-|PL-|outOf-|\.".

Definition split_by_alts : list str :=
  lit <$> ["timelapseID-"; "SPC-"; "TP-"; "ILL-"; "CAM-"; "CH-"; "PL-";
           "outOf-"; "."]%string.

(** [name_part.strip("-_")]. *)
Definition strip_dash (s : str) : str := Py.strip (Py.one_of (lit "-_")) s.

(** One round of the loop over [enumerate(name_parts)]. *)
Definition init_part (i : nat) (name_part : str) (self : ImageFile)
  : exn + ImageFile :=
  match i with
  | 0%nat => inr (set_dataset_name (strip_dash name_part) self)
  | 1%nat => inr (set_timelapse_id (strip_dash name_part) self)
  | 2%nat => v ← int (strip_dash name_part);
      inr (set_specimen v self)
  | 3%nat => v ← int (strip_dash name_part);
      inr (set_time_point v self)
  | 4%nat => v ← int (strip_dash name_part);
      inr (set_illumination v self)
  | 5%nat => v ← int (strip_dash name_part);
      inr (set_camera v self)
  | 6%nat => v ← int (strip_dash name_part);
      inr (set_channel v self)
  | 7%nat => v ← int (strip_dash name_part);
      inr (set_plane v self)
  | 8%nat =>
      match Py.split1 "_" (strip_dash name_part) with
      | [num_planes] =>
          v ← int (strip_dash num_planes);
          inr (set_total_num_planes v self)
      | [num_planes; info] =>
          v ← int (strip_dash num_planes);
          inr (set_additional_info info (set_total_num_planes v self))
      | _ => inl (ValueError (lit "not enough values to unpack"))
      end
  | 9%nat => inr (set_extension name_part self)
  | _ => inr self
  end.

Fixpoint init_loop (i : nat) (name_parts : list str) (self : ImageFile)
  : exn + ImageFile :=
  match name_parts with
  | [] => inr self
  | name_part :: rest =>
      self' ← init_part i name_part self;
      init_loop (S i) rest self'
  end.

(** [ImageFile.__init__(self, file_path)]: [inr] is the constructed
    instance, [inl] the exception raised instead. The last statement
    computes the lower-cased extension and drops it. *)
Definition ImageFile_init (file_path : str) : exn + ImageFile :=
  let self := set_path_to_image_dir (Path.dirname file_path) ImageFile_class in
  let file_name := Path.basename file_path in
  let name_parts := Re.split split_by_alts file_name in
  self ←
    (if (length name_parts =? 10)%nat
     then
       except_ValueError (init_loop 0 name_parts self)
         (lit "This is not a valid filename for a single plane image file!")
     else
       inl (NotImagePlaneFile
              (lit "Image file name is improperly formatted! Check documentation inside the script. Expected 10 parts after splitting by "
               ++ split_by)));
  let _ := Py.lower (extension self) in
  inr self.

(** The ingest pattern
    [_channel(\d+)_position(\d+)_time(\d+)_view(\d+)_z(\d+)\.(\w+)]. *)
Definition xOpenSPIM_pattern : list Re.item :=
  [Re.Lit (lit "_channel"); Re.Group Py.is_digit;
   Re.Lit (lit "_position"); Re.Group Py.is_digit;
   Re.Lit (lit "_time"); Re.Group Py.is_digit;
   Re.Lit (lit "_view"); Re.Group Py.is_digit;
   Re.Lit (lit "_z"); Re.Group Py.is_digit;
   Re.Lit (lit "."); Re.Group Py.is_word].

(** [ImageFile.get_ImageFile_from_xOpenSPIM_filename(file_name, file_dir)]. *)
Definition get_ImageFile_from_xOpenSPIM_filename (file_name file_dir : str)
  : exn + ImageFile :=
  let instance := set_path_to_image_dir file_dir ImageFile_class in
  except_ValueError
    (match Re.match_ xOpenSPIM_pattern file_name with
     | Some m =>
         v1 ← int (Re.group 1 m);
         let instance := set_channel v1 instance in
         v2 ← int (Re.group 2 m);
         let instance := set_specimen v2 instance in
         v3 ← int (Re.group 3 m);
         let instance := set_time_point v3 instance in
         let instance := set_camera 0 instance in
         v5 ← int (Re.group 5 m);
         let instance := set_plane v5 instance in
         let instance := set_extension (Re.group 6 m) instance in
         let instance := set_timelapse_id (lit "20240808-111112") instance in
         let instance := set_illumination 0 instance in
         let instance := set_total_num_planes 1 instance in
         let instance := set_additional_info [] instance in
         let instance := set_dataset_name [] instance in
         inr instance
     | None =>
         inl (NotImagePlaneFile
                (lit "xOpenSPIM file name is improperly formatted!"))
     end)
    (lit "This is not a valid custom filename for a single plane image file!").

(** [ImageFile.get_name(self)]. *)
Definition get_name (self : ImageFile) : str :=
  let additional_info :=
    match additional_info self with
    | [] => []
    | info => lit "_" ++ info
    end in
  let dataset_name :=
    match dataset_name self with
    | [] => []
    | name => name ++ lit "_"
    end in
  dataset_name ++ lit "timelapseID-" ++ timelapse_id self
  ++ lit "_SPC-" ++ Py.format0 4 (specimen self)
  ++ lit "_TP-" ++ Py.format0 4 (time_point self)
  ++ lit "_ILL-" ++ Py.str_int (illumination self)
  ++ lit "_CAM-" ++ Py.str_int (camera self)
  ++ lit "_CH-" ++ Py.format0 2 (channel self)
  ++ lit "_PL-" ++ Py.format0 4 (plane self)
  ++ lit "-outOf-" ++ Py.format0 4 (total_num_planes self)
  ++ additional_info ++ lit "." ++ extension self.

(** [ImageFile.get_file_path(self)]. *)
Definition get_file_path (self : ImageFile) : str :=
  Path.join (path_to_image_dir self) (get_name self).

(** [ImageFile.get_name_without_extension(self)]. *)
Definition get_name_without_extension (self : ImageFile) : str :=
  (Path.splitext (get_name self)).1.

(** [ImageFile.get_stack_name(self)]. *)
Definition get_stack_name (self : ImageFile) : str :=
  let additional_info :=
    match additional_info self with
    | [] => []
    | info => lit "_" ++ info
    end in
  let dataset_name :=
    match dataset_name self with
    | [] => []
    | name => name ++ lit "_"
    end in
  dataset_name ++ lit "timelapseID-" ++ timelapse_id self
  ++ lit "_SPC-" ++ Py.format0 4 (specimen self)
  ++ lit "_TP-" ++ Py.format0 4 (time_point self)
  ++ lit "_ILL-" ++ Py.str_int (illumination self)
  ++ lit "_CAM-" ++ Py.str_int (camera self)
  ++ lit "_CH-" ++ Py.format0 2 (channel self)
  ++ lit "_PL-(ZS)-outOf-" ++ Py.format0 4 (total_num_planes self)
  ++ additional_info ++ lit "." ++ extension self.

(** [ImageFile.get_stack_path(self)]. *)
Definition get_stack_path (self : ImageFile) : str :=
  Path.join (path_to_image_dir self) (get_stack_name self).

(** ** The file system, the console and the monitor's shared state *)

(** What the script asks of the operating system. A time stamp is an
    integer; only its order matters to the script. [copy src dst] is
    [shutil.copy]: it returns the exception it raised, if any, and the file
    system it leaves. A directory listing names each entry once, by its
    bare name. *)
Class FileSystem (world : Type) := {
  listdir : str → world → exn + list str;
  isfile : str → world → bool;
  getmtime : str → world → exn + Z;
  copy : str → str → world → option exn * world;
  listdir_NoDup : ∀ d w names, listdir d w = inr names → NoDup names;
  listdir_bare : ∀ d w names n,
    listdir d w = inr names → n ∈ names → "/" ∉ n
}.

(** The two callers of [FileEventHandler.process]. *)
Inductive trigger := EventTrigger | ReconcileTrigger.

#[global] Instance trigger_eq_dec : EqDecision trigger.
Proof. solve_decision. Defined.

(** [event.is_directory] and [event.src_path] of a watchdog event. *)
Record fs_event := {
  is_directory : bool;
  src_path : str
}.

Section Monitor.

Context {world : Type} `{FileSystem world}.

(** The state the threads of the monitor share: the file system, the lines
    printed so far and the set [processed_files]. [history] is ghost state:
    it records every call of [process] with its caller, and no statement of
    the script reads it. *)
Record state := {
  fs : world;
  stdout : list str;
  processed_files : gset str;
  history : list (trigger * str)
}.

Definition set_fs (w : world) (st : state) : state :=
  {| fs := w; stdout := stdout st;
     processed_files := processed_files st; history := history st |}.

(** A statement: it runs in a state and ends normally or by raising. *)
Definition M (A : Type) : Type := state → (exn + A) * state.

#[global] Instance M_ret : MRet M := λ A x st, (inr x, st).

#[global] Instance M_bind : MBind M := λ A B f m st,
  match m st with
  | (inl e, st') => (inl e, st')
  | (inr x, st') => f x st'
  end.

(** A pure computation that may raise. *)
Definition lift {A} (r : exn + A) : M A := λ st, (r, st).

(** [try: body except Exception as e: handler(e)]. Every exception of the
    model is an [Exception]. *)
Definition try_except {A} (body : M A) (handler : exn → M A) : M A := λ st,
  match body st with
  | (inl e, st') => handler e st'
  | r => r
  end.

(** [print(line)]. *)
Definition print (line : str) : M unit := λ st,
  (inr (),
   {| fs := fs st; stdout := stdout st ++ [line];
      processed_files := processed_files st; history := history st |}).

(** [shutil.copy(src, dst)]. *)
Definition shutil_copy (src dst : str) : M unit := λ st,
  match copy src dst (fs st) with
  | (Some e, w) => (inl e, set_fs w st)
  | (None, w) => (inr (), set_fs w st)
  end.

(** [processed_files.add(f)]. *)
Definition add_processed (f : str) : M unit := λ st,
  (inr (),
   {| fs := fs st; stdout := stdout st;
      processed_files := {[ f ]} ∪ processed_files st;
      history := history st |}).

(** The ghost record of a call of [process]. *)
Definition note (who : trigger) (file_path : str) : M unit := λ st,
  (inr (),
   {| fs := fs st; stdout := stdout st;
      processed_files := processed_files st;
      history := history st ++ [(who, file_path)] |}).

(** [FileEventHandler.process(self, file_path)], with [self.output_folder]
    and the (ghost) caller as arguments. *)
Definition process (who : trigger) (output_folder file_path : str) : M unit :=
  note who file_path;;
  try_except
    (image_file ←
       lift (get_ImageFile_from_xOpenSPIM_filename
               (Path.basename file_path) []);
     let new_name := get_name image_file in
     let new_path := Path.join output_folder new_name in
     shutil_copy file_path new_path;;
     print (lit "Copied: " ++ file_path ++ lit " to " ++ new_path))
    (λ e, print (lit "Error while copying: " ++ exn_str e)).

(** [FileEventHandler.on_created(self, event)]; the one-second sleep has no
    counterpart in the state. *)
Definition on_created (output_folder : str) (event : fs_event) : M unit :=
  if is_directory event then mret ()
  else process EventTrigger output_folder (src_path event).

(** The first loop of [scan_directory]: the new regular files of the
    listing, in its order. *)
Fixpoint collect (input_folder : str) (st : state) (names new_files : list str)
  : list str :=
  match names with
  | [] => new_files
  | file_name :: rest =>
      let file_path := Path.join input_folder file_name in
      if isfile file_path (fs st)
         && bool_decide (file_path ∉ processed_files st)
      then collect input_folder st rest (new_files ++ [file_path])
      else collect input_folder st rest new_files
  end.

(** The keys of [list.sort(key=os.path.getmtime)], computed once per item
    before any comparison; the first failure is raised. *)
Fixpoint keyed (st : state) (files : list str) : exn + list (Z * str) :=
  match files with
  | [] => inr []
  | f :: rest =>
      t ← getmtime f (fs st);
      l ← keyed st rest;
      mret ((t, f) :: l)
  end.

(** The sort is stable: an item goes before the first later item whose key
    is not smaller. *)
Fixpoint insert_keyed (x : Z * str) (l : list (Z * str)) : list (Z * str) :=
  match l with
  | [] => [x]
  | y :: l' => if x.1 <=? y.1 then x :: l else y :: insert_keyed x l'
  end.

Fixpoint sort_keyed (l : list (Z * str)) : list (Z * str) :=
  match l with
  | [] => []
  | x :: l' => insert_keyed x (sort_keyed l')
  end.

(** The second loop of [scan_directory]. *)
Fixpoint scan_loop (output_folder : str) (new_files : list str) : M unit :=
  match new_files with
  | [] => mret ()
  | f :: rest =>
      process ReconcileTrigger output_folder f;;
      add_processed f;;
      scan_loop output_folder rest
  end.

(** The state one round of the second loop leaves. *)
Definition scan_round (output_folder : str) (st : state) (f : str) : state :=
  (add_processed f (process ReconcileTrigger output_folder f st).2).2.

(** [scan_directory(input_folder, processed_files, event_handler)]. *)
Definition scan_directory (input_folder output_folder : str) : M unit := λ st,
  match listdir input_folder (fs st) with
  | inl e => (inl e, st)
  | inr names =>
      let new_files := collect input_folder st names [] in
      match keyed st new_files with
      | inl e => (inl e, st)
      | inr l => scan_loop output_folder (snd <$> sort_keyed l) st
      end
  end.

(** [monitor_folder] starts from an empty [processed_files]. *)
Definition monitor_init (w : world) : state :=
  {| fs := w; stdout := []; processed_files := ∅; history := [] |}.

(** What can happen while [monitor_folder] runs: the observer delivers a
    creation event, the timer fires a scan, or the file system changes
    under the monitor. *)
Inductive monitor_step (folder_to_watch output_folder : str)
  : state → state → Prop :=
  | step_event event st r st' :
      on_created output_folder event st = (r, st') →
      monitor_step folder_to_watch output_folder st st'
  | step_scan st r st' :
      scan_directory folder_to_watch output_folder st = (r, st') →
      monitor_step folder_to_watch output_folder st st'
  | step_world w st :
      monitor_step folder_to_watch output_folder st (set_fs w st).



End Monitor.

Arguments state : clear implicits.
Arguments M : clear implicits.

(** ** A small file system to run the monitor on

    Directories map bare names to regular files; a file has a time stamp
    and a content. Copies are stamped by a clock that advances. *)

Module Disk.

Record disk := {
  dirs : gmap (list ascii) (gmap (list ascii) (Z * list ascii));
  clock : Z
}.

Definition no_such_file : exn := OSError (lit "No such file or directory").

Definition lookup_file (p : str) (w : disk) : option (Z * list ascii) :=
  dirs w !! Path.dirname p ≫= λ dir, dir !! Path.basename p.

Definition disk_listdir (d : str) (w : disk) : exn + list str :=
  match dirs w !! d with
  | Some dir => inr (filter (λ n, "/" ∉ n) (elements (dom dir)))
  | None => inl no_such_file
  end.

Definition disk_isfile (p : str) (w : disk) : bool :=
  bool_decide (is_Some (lookup_file p w)).

Definition disk_getmtime (p : str) (w : disk) : exn + Z :=
  match lookup_file p w with
  | Some f => inr f.1
  | None => inl no_such_file
  end.

Definition disk_copy (src dst : str) (w : disk) : option exn * disk :=
  match lookup_file src w, dirs w !! Path.dirname dst with
  | Some f, Some dir =>
      (None,
       {| dirs := <[Path.dirname dst :=
                      <[Path.basename dst := (clock w, f.2)]> dir]> (dirs w);
          clock := clock w + 1 |})
  | _, _ => (Some no_such_file, w)
  end.

#[global, refine] Instance disk_fs : FileSystem disk := {|
  listdir := disk_listdir;
  isfile := disk_isfile;
  getmtime := disk_getmtime;
  copy := disk_copy
|}.
Proof.
  - intros d w names. unfold disk_listdir.
    destruct (dirs w !! d); [|discriminate].
    intros [= <-]. apply NoDup_filter, NoDup_elements.
  - intros d w names n. unfold disk_listdir.
    destruct (dirs w !! d); [|discriminate].
    intros [= <-] Hn. by apply list_elem_of_filter in Hn as [Hn _].
Defined.

(** A folder [in] with the given files (name, time stamp) and an empty
    folder [out]. *)
Definition watched (entries : list (string * Z)) : disk :=
  {| dirs :=
       <[lit "in" :=
           list_to_map ((λ e, (lit e.1, (e.2, lit "data"))) <$> entries)]>
         (<[lit "out" := ∅]> ∅);
     clock := 100 |}.

End Disk.

(** ** Vocabulary of the statements *)

(** The numeric fields are natural numbers, as the data model has them. *)
Definition natural_fields (r : ImageFile) : Prop :=
  0 ≤ specimen r ∧ 0 ≤ time_point r ∧ 0 ≤ illumination r ∧ 0 ≤ camera r ∧
  0 ≤ channel r ∧ 0 ≤ plane r ∧ 0 ≤ total_num_planes r.

(** No delimiter of the canonical grammar occurs in [x]. *)
Definition delimiter_free (x : str) : Prop :=
  ∀ a b, x = a ++ b → Re.first_alt split_by_alts b = None.

(** No delimiter starts inside [x] when [t] follows it. *)
Definition quiet (x t : str) : Prop :=
  ∀ a b, x = a ++ b → b ≠ [] → Re.first_alt split_by_alts (b ++ t) = None.

(** [x] neither starts nor ends with a character [strip("-_")] removes. *)
Definition undashed (x : str) : Prop :=
  (∀ c, head x = Some c → Py.one_of (lit "-_") c = false) ∧
  (∀ c, last x = Some c → Py.one_of (lit "-_") c = false).

(** The least number with more digits than [int] reads. *)
Definition int_bound : Z := 10 ^ Py.int_max_str_digits.

(** The numeric fields are below [int_bound], as every number [int]
    returns. *)
Definition bounded_fields (r : ImageFile) : Prop :=
  specimen r < int_bound ∧ time_point r < int_bound ∧
  illumination r < int_bound ∧ camera r < int_bound ∧
  channel r < int_bound ∧ plane r < int_bound ∧
  total_num_planes r < int_bound.

(** The digit groups of a match of the ingest pattern that [int] reads:
    channel, position, time and z. *)
Definition read_groups : list nat := [1; 2; 3; 5]%nat.

(** The fields of an instance the canonical constructor can return, when
    its numbers are natural. *)
Definition canonical_fields (r : ImageFile) : Prop :=
  natural_fields r ∧
  (delimiter_free (dataset_name r) ∧ undashed (dataset_name r)
   ∧ "/" ∉ dataset_name r) ∧
  (delimiter_free (timelapse_id r) ∧ undashed (timelapse_id r)
   ∧ "/" ∉ timelapse_id r) ∧
  (delimiter_free (additional_info r)
   ∧ (∀ c, last (additional_info r) = Some c →
           Py.one_of (lit "-_") c = false)
   ∧ "/" ∉ additional_info r) ∧
  (delimiter_free (extension r) ∧ "/" ∉ extension r) ∧
  bounded_fields r.

(** * Properties *)

(** ** Strings *)

Section strings.
Implicit Types (s t : list ascii) (c : ascii) (p : ascii → bool).

Lemma strip_prefix_Some a s t : Re.strip_prefix a s = Some t ↔ s = a ++ t.
Proof.
  revert s. induction a as [|x a IH]; intros [|y s]; simpl.
  - split; congruence.
  - split; congruence.
  - split; congruence.
  - case_bool_decide; subst.
    + rewrite IH. split; congruence.
    + split; [done | congruence].
Qed.

Lemma strip_prefix_app a t : Re.strip_prefix a (a ++ t) = Some t.
Proof. by apply strip_prefix_Some. Qed.

Lemma strip_prefix_None_app a s t :
  Re.strip_prefix a (s ++ t) = None → Re.strip_prefix a s = None.
Proof.
  destruct (Re.strip_prefix a s) as [u|] eqn:E; [|done].
  apply strip_prefix_Some in E as ->. by rewrite <-(assoc_L _), strip_prefix_app.
Qed.

Lemma lstrip_Forall p s : Forall (λ c, p c = true) s → Py.lstrip p s = [].
Proof. induction 1 as [|c s Hc _ IH]; simpl; [done|by rewrite Hc]. Qed.

Lemma lstrip_keep p c s : p c = false → Py.lstrip p (c :: s) = c :: s.
Proof. intros Hc. simpl. by rewrite Hc. Qed.

Lemma lstrip_app p s c t :
  Forall (λ c, p c = true) s → p c = false →
  Py.lstrip p (s ++ c :: t) = c :: t.
Proof. induction 1 as [|x s Hx _ IH]; intros Hc; simpl; rewrite ?Hx, ?Hc; auto. Qed.

(** What [lstrip] removes and what it leaves. *)
Lemma lstrip_spec p s :
  ∃ a, s = a ++ Py.lstrip p s ∧ Forall (λ c, p c = true) a ∧
       (∀ c, head (Py.lstrip p s) = Some c → p c = false).
Proof.
  induction s as [|x s (a & Hs & Ha & Hh)]; simpl.
  - exists []. by repeat split.
  - destruct (p x) eqn:Hx.
    + exists (x :: a). split_and!; [simpl; congruence | by constructor | done].
    + exists []. split_and!; [done | done | by intros c [= <-]].
Qed.

Lemma rstrip_snoc_drop p s c : p c = true → Py.rstrip p (s ++ [c]) = Py.rstrip p s.
Proof. intros Hc. unfold Py.rstrip. rewrite reverse_snoc. simpl. by rewrite Hc. Qed.

Lemma rstrip_snoc_keep p s c : p c = false → Py.rstrip p (s ++ [c]) = s ++ [c].
Proof.
  intros Hc. unfold Py.rstrip. rewrite reverse_snoc. simpl. rewrite Hc.
  by rewrite reverse_cons, reverse_involutive.
Qed.

Lemma rstrip_nil p : Py.rstrip p [] = [].
Proof. done. Qed.

Lemma rstrip_spec p s :
  ∃ b, s = Py.rstrip p s ++ b ∧ Forall (λ c, p c = true) b ∧
       (∀ c, last (Py.rstrip p s) = Some c → p c = false).
Proof.
  unfold Py.rstrip.
  destruct (lstrip_spec p (reverse s)) as (a & Hs & Ha & Hh).
  exists (reverse a). split_and!.
  - rewrite <-reverse_app, <-Hs. by rewrite reverse_involutive.
  - by apply Forall_reverse.
  - intros c. rewrite last_reverse. apply Hh.
Qed.

(** [strip] returns an infix of its argument that neither starts nor ends
    with a stripped character. *)
Lemma strip_spec p s :
  ∃ a b, s = a ++ Py.strip p s ++ b ∧
         (∀ c, head (Py.strip p s) = Some c → p c = false) ∧
         (∀ c, last (Py.strip p s) = Some c → p c = false).
Proof.
  unfold Py.strip.
  destruct (lstrip_spec p s) as (a & Hs & _ & Hh).
  destruct (rstrip_spec p (Py.lstrip p s)) as (b & Hs' & _ & Hl).
  exists a, b. split_and!; [congruence | | done].
  intros c Hc. apply Hh. rewrite Hs'.
  destruct (Py.rstrip p (Py.lstrip p s)); [done|]. by simplify_eq/=.
Qed.

(** A string that neither starts nor ends with a stripped character is
    left as it is. *)
Lemma strip_clean p s :
  (∀ c, head s = Some c → p c = false) →
  (∀ c, last s = Some c → p c = false) →
  Py.strip p s = s.
Proof.
  intros Hh Hl. unfold Py.strip.
  assert (Py.lstrip p s = s) as ->.
  { destruct s as [|c s]; [done|]. apply lstrip_keep. by apply Hh. }
  destruct s as [|c s _] using rev_ind; [done|].
  apply rstrip_snoc_keep, Hl. by rewrite last_snoc.
Qed.

Lemma strip_idemp p s : Py.strip p (Py.strip p s) = Py.strip p s.
Proof. destruct (strip_spec p s) as (a & b & _ & Hh & Hl). by apply strip_clean. Qed.

(** A stripped character appended to a clean string is stripped again. *)
Lemma strip_clean_snoc p s c :
  (∀ c, head s = Some c → p c = false) →
  (∀ c, last s = Some c → p c = false) →
  p c = true →
  Py.strip p (s ++ [c]) = s.
Proof.
  intros Hh Hl Hc. unfold Py.strip. destruct s as [|x s].
  - simpl. by rewrite Hc.
  - assert (Py.lstrip p ((x :: s) ++ [c]) = (x :: s) ++ [c]) as ->.
    { apply lstrip_keep. by apply Hh. }
    rewrite rstrip_snoc_drop by done.
    assert (Py.lstrip p (x :: s) = x :: s) as Hx.
    { apply lstrip_keep. by apply Hh. }
    pose proof (strip_clean p (x :: s) Hh Hl) as Hs. unfold Py.strip in Hs.
    by rewrite Hx in Hs.
Qed.

Lemma cut_Some sep s a b :
  Py.cut sep s = Some (a, b) ↔ s = a ++ sep :: b ∧ sep ∉ a.
Proof.
  revert a b. induction s as [|c s IH]; intros a b; simpl.
  - split; [done|]. intros [? _]. by destruct a.
  - case_bool_decide as Hc; subst.
    + split.
      * intros [= <- <-]. split; [done|]. apply not_elem_of_nil.
      * intros [Hs Ha]. destruct a as [|x a]; simplify_eq/=; [done|].
        exfalso. apply Ha. left.
    + destruct (Py.cut sep s) as [[a' b']|]; simpl.
      * split.
        -- intros [= <- <-]. destruct (IH a' b') as [[-> Ha] _]; [done|].
           split; [done|]. by apply not_elem_of_cons.
        -- intros [Hs Ha]. destruct a as [|x a]; simplify_eq/=.
           apply not_elem_of_cons in Ha as [_ Ha].
           destruct (IH a b) as [_ IH2]. specialize (IH2 (conj eq_refl Ha)).
           by simplify_eq.
      * split; [done|]. intros [Hs Ha]. destruct a as [|x a]; simplify_eq/=.
        apply not_elem_of_cons in Ha as [_ Ha].
        destruct (IH a b) as [_ IH2]. by specialize (IH2 (conj eq_refl Ha)).
Qed.

Lemma cut_None sep s : Py.cut sep s = None ↔ sep ∉ s.
Proof.
  induction s as [|c s IH]; simpl.
  - split; [intros _; apply not_elem_of_nil | done].
  - rewrite not_elem_of_cons. case_bool_decide; subst.
    + split; [done | by intros [? _]].
    + destruct (Py.cut sep s) as [[??]|]; simpl; split; try done.
      * intros [_ Hs]. by apply IH in Hs.
      * intros _. split; [done | by apply IH].
Qed.

End strings.

(** ** Numbers and their decimal text *)

Lemma is_digit_cases c : Py.is_digit c = true → c ∈ lit "0123456789".
Proof.
  destruct c as [[] [] [] [] [] [] [] []]; vm_compute; intros E;
    try discriminate E; clear E;
    repeat first [apply list_elem_of_here | apply list_elem_of_further].
Qed.

Lemma digit_not_space c : Py.is_digit c = true → Py.is_space c = false.
Proof.
  intros Hc%is_digit_cases. unfold lit in Hc; simpl in Hc.
  repeat (apply elem_of_cons in Hc as [->|Hc]; [done|]). by apply elem_of_nil in Hc.
Qed.

Lemma digit_not_dash c : Py.is_digit c = true → Py.one_of (lit "-_") c = false.
Proof.
  intros Hc%is_digit_cases. unfold lit in Hc; simpl in Hc.
  repeat (apply elem_of_cons in Hc as [->|Hc]; [done|]). by apply elem_of_nil in Hc.
Qed.

Lemma digit_char_ok d :
  0 ≤ d < 10 →
  Py.is_digit (Py.digit_char d) = true ∧ Py.digit_val (Py.digit_char d) = d.
Proof.
  intros Hd.
  assert (d = 0 ∨ d = 1 ∨ d = 2 ∨ d = 3 ∨ d = 4 ∨ d = 5 ∨ d = 6 ∨ d = 7
          ∨ d = 8 ∨ d = 9) as Hcases by lia.
  repeat (destruct Hcases as [->|Hcases]; [done|]). by subst.
Qed.

(** A digit string reads as a number whatever was read before it. *)
Lemma digits_all ds acc b :
  ds ≠ [] → Forall (λ c, Py.is_digit c = true) ds →
  ∃ n, Py.digits ds acc b = Some n.
Proof.
  intros Hne Hds. revert acc b Hne.
  induction Hds as [|c ds Hc Hds IH]; intros acc b Hne; [done|].
  simpl. rewrite Hc. destruct ds as [|c' ds]; [by eexists|].
  by apply IH.
Qed.

Lemma digit_val_bound c : Py.is_digit c = true → 0 ≤ Py.digit_val c ≤ 9.
Proof.
  intros Hc%is_digit_cases. unfold lit in Hc; simpl in Hc.
  repeat (apply elem_of_cons in Hc as [->|Hc]; [by vm_compute|]).
  by apply elem_of_nil in Hc.
Qed.

Lemma digit_val_nonneg c : Py.is_digit c = true → 0 ≤ Py.digit_val c.
Proof. intros Hc. by apply digit_val_bound. Qed.

Lemma digits_nonneg ds acc b n :
  Py.digits ds acc b = Some n → 0 ≤ acc → 0 ≤ n.
Proof.
  revert acc b. induction ds as [|c ds IH]; intros acc b; cbn [Py.digits].
  - destruct b; [|done]. by intros [= <-].
  - destruct (Py.is_digit c) eqn:Hc.
    + intros Hn Hacc. apply IH in Hn; [done|].
      pose proof (digit_val_nonneg c Hc). lia.
    + destruct (bool_decide (c = "_") && b); [|done]. apply IH.
Qed.

(** A literal of [k] digits is a number below [10 ^ k]. *)
Lemma digits_bound ds acc b n k :
  Py.digits ds acc b = Some n → 0 ≤ acc < 10 ^ Z.of_nat k →
  n < 10 ^ Z.of_nat (k + Py.count_digits ds).
Proof.
  revert acc b k. induction ds as [|c ds IH]; intros acc b k;
    cbn [Py.digits Py.count_digits].
  - destruct b; [|done]. intros [= <-] Hacc. rewrite Nat.add_0_r. apply Hacc.
  - destruct (Py.is_digit c) eqn:Hc.
    + intros Hn Hacc. pose proof (digit_val_bound c Hc).
      apply (IH _ _ (S k)) in Hn.
      * by replace (k + (1 + Py.count_digits ds))%nat
          with (S k + Py.count_digits ds)%nat by lia.
      * rewrite Nat2Z.inj_succ, Z.pow_succ_r by lia. lia.
    + destruct (bool_decide (c = "_") && b); [|done]. apply IH.
Qed.

Lemma count_digits_all ds :
  Forall (λ c, Py.is_digit c = true) ds → Py.count_digits ds = length ds.
Proof.
  induction 1 as [|c ds Hc _ IH]; [done|].
  cbn [Py.count_digits length]. by rewrite Hc, IH.
Qed.

Lemma literal_short s :
  Z.of_nat (Py.count_digits s) ≤ Py.int_max_str_digits →
  Py.literal s = Py.digits s 0 false.
Proof.
  intros Hs. unfold Py.literal.
  by destruct (Z.ltb_spec Py.int_max_str_digits (Z.of_nat (Py.count_digits s)));
    [lia|].
Qed.

Lemma literal_long s :
  Py.int_max_str_digits < Z.of_nat (Py.count_digits s) → Py.literal s = None.
Proof.
  intros Hs. unfold Py.literal.
  by destruct (Z.ltb_spec Py.int_max_str_digits (Z.of_nat (Py.count_digits s)));
    [|lia].
Qed.

Lemma literal_Some s n :
  Py.literal s = Some n →
  Py.digits s 0 false = Some n ∧
  Z.of_nat (Py.count_digits s) ≤ Py.int_max_str_digits.
Proof.
  unfold Py.literal.
  by destruct (Z.ltb_spec Py.int_max_str_digits (Z.of_nat (Py.count_digits s))).
Qed.

(** What a literal within the limit reads as: a natural number below
    [int_bound]. *)
Lemma literal_bound s n : Py.literal s = Some n → 0 ≤ n < int_bound.
Proof.
  intros [Hn Hlen]%literal_Some. split; [by eapply digits_nonneg|].
  apply (digits_bound _ _ _ _ 0) in Hn; [|done].
  eapply Z.lt_le_trans; [exact Hn|]. unfold int_bound.
  apply Z.pow_le_mono_r; lia.
Qed.

(** Every number [int] returns is within the limit. *)
Lemma int_below_bound s n : Py.int s = Some n → - int_bound < n < int_bound.
Proof.
  unfold Py.int.
  destruct (Py.rstrip Py.is_space (Py.lstrip Py.is_space s)) as [|c s'] eqn:E.
  - by intros ?%literal_bound; lia.
  - assert (∀ t, Py.literal t = Some n → - int_bound < n < int_bound) as Hpos
      by (intros t ?%literal_bound; lia).
    destruct (decide (c = "-")) as [->|Hm].
    { destruct (Py.literal s') as [k|] eqn:Hk; [|done].
      apply literal_bound in Hk. intros [= <-]. lia. }
    destruct (decide (c = "+")) as [->|Hp]; [apply Hpos|].
    intros Hn. apply (Hpos (c :: s')). revert Hn.
    destruct c as [[] [] [] [] [] [] [] []]; done.
Qed.

(** So the interpreter formats every number [int] returns. *)
Lemma int_formats s n : Py.int s = Some n → Py.formats n = true.
Proof.
  intros Hn%int_below_bound. unfold Py.formats. apply Z.ltb_lt.
  unfold int_bound in Hn. lia.
Qed.

(** On a digit string [int] is the reading of its digits, the limit
    allowing. *)
Lemma int_literal ds :
  ds ≠ [] → Forall (λ c, Py.is_digit c = true) ds →
  Py.int ds = Py.literal ds.
Proof.
  intros Hne Hds. unfold Py.int.
  assert (Py.rstrip Py.is_space (Py.lstrip Py.is_space ds) = ds) as ->.
  { apply (strip_clean Py.is_space).
    - intros c Hc. apply digit_not_space.
      destruct ds as [|x ds]; simplify_eq/=. by inversion Hds.
    - intros c Hc. apply digit_not_space.
      apply last_Some in Hc as [l' ->]. apply Forall_app in Hds as [_ Hds].
      by inversion Hds. }
  destruct ds as [|c ds]; [done|].
  inversion Hds as [|?? Hc%is_digit_cases _]; subst.
  unfold lit in Hc; simpl in Hc.
  repeat (apply elem_of_cons in Hc as [->|Hc]; [done|]). by apply elem_of_nil in Hc.
Qed.

Lemma int_digits ds :
  ds ≠ [] → Forall (λ c, Py.is_digit c = true) ds →
  Z.of_nat (length ds) ≤ Py.int_max_str_digits →
  Py.int ds = Py.digits ds 0 false.
Proof.
  intros Hne Hds Hlen. rewrite int_literal by done.
  apply literal_short. by rewrite count_digits_all.
Qed.

(** A run of digits within the limit reads as a natural number; a longer
    one is refused. *)
Lemma int_digits_short ds :
  ds ≠ [] → Forall (λ c, Py.is_digit c = true) ds →
  Z.of_nat (length ds) ≤ Py.int_max_str_digits →
  ∃ n, Py.int ds = Some n.
Proof.
  intros Hne Hds Hlen. rewrite int_digits by done. by apply digits_all.
Qed.

Lemma int_digits_long ds :
  ds ≠ [] → Forall (λ c, Py.is_digit c = true) ds →
  Py.int_max_str_digits < Z.of_nat (length ds) →
  Py.int ds = None.
Proof.
  intros Hne Hds Hlen. rewrite int_literal by done.
  apply literal_long. by rewrite count_digits_all.
Qed.

Lemma digits_zeros k ds b :
  Py.digits (replicate k "0" ++ ds) 0 b =
  Py.digits ds 0 (if k is O then b else true).
Proof.
  revert b. induction k as [|k IH]; intros b; [done|].
  simpl. rewrite IH. by destruct k.
Qed.

Lemma decimal_go_digits fuel n acc b :
  fuel ≠ O → 0 ≤ n < 2 ^ Z.of_nat fuel →
  Py.digits (Py.decimal_go fuel n acc) 0 b = Py.digits acc n true.
Proof.
  revert n acc b. induction fuel as [|k IH]; intros n acc b Hk Hn; [done|].
  cbn [Py.decimal_go].
  destruct (digit_char_ok (n mod 10)) as [Hd Hv];
    [by apply Z.mod_pos_bound|].
  destruct (Z.ltb_spec n 10) as [Hlt|Hge].
  - cbn [Py.digits]. rewrite Hd, Hv. f_equal. rewrite Z.mod_small; lia.
  - rewrite Nat2Z.inj_succ, Z.pow_succ_r in Hn by lia.
    rewrite IH.
    + cbn [Py.digits]. rewrite Hd, Hv. f_equal.
      pose proof (Z.div_mod n 10). lia.
    + intros ->. change (2 ^ Z.of_nat 0) with 1 in Hn. lia.
    + split; [apply Z.div_pos; lia|].
      apply Z.div_lt_upper_bound; lia.
Qed.

Lemma decimal_digits n b : 0 ≤ n → Py.digits (Py.decimal n) 0 b = Some n.
Proof.
  intros Hn. unfold Py.decimal. rewrite decimal_go_digits; [done..|].
  split; [done|]. rewrite Nat2Z.inj_succ, Z2Nat.id by apply Z.log2_nonneg.
  destruct (decide (n = 0)) as [->|]; [done|].
  apply Z.log2_spec. lia.
Qed.

Lemma decimal_go_Forall fuel n acc :
  0 ≤ n → Forall (λ c, Py.is_digit c = true) acc →
  Forall (λ c, Py.is_digit c = true) (Py.decimal_go fuel n acc).
Proof.
  revert n acc. induction fuel as [|k IH]; intros n acc Hn Hacc; [done|].
  cbn [Py.decimal_go]. destruct (digit_char_ok (n mod 10)) as [Hd _];
    [by apply Z.mod_pos_bound|].
  destruct (n <? 10); [by constructor|].
  apply IH; [apply Z.div_pos; lia | by constructor].
Qed.

Lemma decimal_go_nonempty fuel n acc :
  fuel ≠ O → Py.decimal_go fuel n acc ≠ [].
Proof.
  revert n acc. induction fuel as [|k IH]; intros n acc Hk; [done|].
  cbn [Py.decimal_go]. destruct (n <? 10); [done|].
  destruct k; [done|]. by apply IH.
Qed.

(** The decimal text of a natural number is a non-empty digit string. *)
Lemma decimal_Forall n :
  0 ≤ n → Forall (λ c, Py.is_digit c = true) (Py.decimal n).
Proof. intros Hn. by apply decimal_go_Forall. Qed.

Lemma decimal_nonempty n : Py.decimal n ≠ [].
Proof. by apply decimal_go_nonempty. Qed.

Lemma zfill_Forall w n :
  0 ≤ n → Forall (λ c, Py.is_digit c = true) (Py.zfill w (Py.decimal n)).
Proof.
  intros Hn. apply Forall_app. split; [|by apply decimal_Forall].
  by apply Forall_replicate.
Qed.

Lemma zfill_nonempty w n : Py.zfill w (Py.decimal n) ≠ [].
Proof.
  unfold Py.zfill. intros [_ E]%app_eq_nil. by apply decimal_nonempty in E.
Qed.

(** The decimal text of a number below [10 ^ k] has at most [k]
    characters. *)
Lemma decimal_go_length fuel n acc k :
  0 ≤ n < 10 ^ Z.of_nat k → (1 ≤ k)%nat →
  (length (Py.decimal_go fuel n acc) ≤ k + length acc)%nat.
Proof.
  revert n acc k. induction fuel as [|fuel IH]; intros n acc k Hn Hk;
    cbn [Py.decimal_go]; [lia|].
  destruct (Z.ltb_spec n 10) as [Hlt|Hge]; [cbn [length]; lia|].
  destruct k as [|[|k]]; [lia|change (10 ^ Z.of_nat 1) with 10 in Hn; lia|].
  etrans; [apply (IH _ _ (S k)); [|lia]|cbn [length]; lia].
  rewrite (Nat2Z.inj_succ (S k)), Z.pow_succ_r in Hn by lia.
  split; [apply Z.div_pos; lia|apply Z.div_lt_upper_bound; lia].
Qed.

Lemma decimal_length n :
  0 ≤ n < int_bound →
  Z.of_nat (length (Py.decimal n)) ≤ Py.int_max_str_digits.
Proof.
  intros Hn. unfold int_bound in Hn.
  pose proof (decimal_go_length (S (Z.to_nat (Z.log2 n))) n []
                (Z.to_nat Py.int_max_str_digits)) as Hlen.
  rewrite Z2Nat.id in Hlen by done. cbn [length] in Hlen.
  unfold Py.decimal.
  assert (1 ≤ Z.to_nat Py.int_max_str_digits)%nat as Hk
    by (unfold Py.int_max_str_digits; lia).
  specialize (Hlen Hn Hk). lia.
Qed.

Lemma zfill_length w ds :
  length (Py.zfill w ds) = (w - length ds + length ds)%nat.
Proof. unfold Py.zfill. by rewrite length_app, length_replicate. Qed.

(** Reading back what the f-string wrote: [int(f"{n:0w}") = n] and
    [int(f"{n}") = n] for a natural number [int] can return. *)
Lemma int_format0 w n :
  Z.of_nat w ≤ Py.int_max_str_digits → 0 ≤ n < int_bound →
  Py.int (Py.format0 w n) = Some n.
Proof.
  intros Hw Hn. unfold Py.format0.
  destruct (Z.ltb_spec n 0); [lia|].
  rewrite int_digits.
  - unfold Py.zfill. rewrite digits_zeros. by apply decimal_digits.
  - apply zfill_nonempty.
  - by apply zfill_Forall.
  - rewrite zfill_length. pose proof (decimal_length n Hn). lia.
Qed.

Lemma int_str_int n : 0 ≤ n < int_bound → Py.int (Py.str_int n) = Some n.
Proof.
  intros Hn. unfold Py.str_int.
  destruct (Z.ltb_spec n 0); [lia|].
  rewrite int_digits.
  - by apply decimal_digits.
  - apply decimal_nonempty.
  - by apply decimal_Forall.
  - by apply decimal_length.
Qed.

Lemma format0_Forall w n :
  0 ≤ n → Forall (λ c, Py.is_digit c = true) (Py.format0 w n).
Proof.
  intros Hn. unfold Py.format0. destruct (Z.ltb_spec n 0); [lia|].
  by apply zfill_Forall.
Qed.

Lemma format0_nonempty w n : Py.format0 w n ≠ [].
Proof.
  unfold Py.format0. destruct (n <? 0); [done|]. apply zfill_nonempty.
Qed.

Lemma str_int_Forall n :
  0 ≤ n → Forall (λ c, Py.is_digit c = true) (Py.str_int n).
Proof.
  intros Hn. unfold Py.str_int. destruct (Z.ltb_spec n 0); [lia|].
  by apply decimal_Forall.
Qed.

Lemma str_int_nonempty n : Py.str_int n ≠ [].
Proof.
  unfold Py.str_int. destruct (n <? 0); [done|]. apply decimal_nonempty.
Qed.

(** ** The ingest pattern *)

Section regex.
Implicit Types (s t : list ascii) (cls : ascii → bool) (its : list Re.item).

Lemma span_le_length cls s : (Re.span cls s ≤ length s)%nat.
Proof. induction s as [|c s IH]; simpl; [lia|]. destruct (cls c); simpl; lia. Qed.

Lemma span_take cls s n :
  (n ≤ Re.span cls s)%nat → Forall (λ c, cls c = true) (take n s).
Proof.
  revert n. induction s as [|c s IH]; intros [|n] Hn; simpl in *; try by constructor.
  destruct (cls c) eqn:Hc; [|lia]. constructor; [done|]. apply IH. lia.
Qed.

Lemma span_app_le cls s t : (Re.span cls s ≤ Re.span cls (s ++ t))%nat.
Proof. induction s as [|c s IH]; simpl; [lia|]. destruct (cls c); lia. Qed.

(** What a successful group holds: between one and [n] characters, and
    the rest of the pattern matched after them. *)
Lemma give_back_Some k s n gs :
  Re.give_back k s n = Some gs →
  ∃ m gs', (1 ≤ m ≤ n)%nat ∧ k (drop m s) = Some gs' ∧ gs = take m s :: gs'.
Proof.
  induction n as [|n IH]; [done|]. cbn [Re.give_back].
  destruct (k (drop (S n) s)) as [gs'|] eqn:E.
  - intros [= <-]. exists (S n), gs'. split_and!; [lia..|done|done].
  - intros (m & gs' & ? & ? & ?)%IH. exists m, gs'. split_and!; [lia..|done|done].
Qed.

(** A group succeeds as soon as some number of characters within its
    reach lets the rest of the pattern match. *)
Lemma give_back_is_Some k s n m :
  (1 ≤ m ≤ n)%nat → is_Some (k (drop m s)) → is_Some (Re.give_back k s n).
Proof.
  intros Hm Hk. induction n as [|n IH]; [lia|]. cbn [Re.give_back].
  destruct (k (drop (S n) s)) as [gs'|] eqn:E; [done|].
  apply IH. destruct (decide (m = S n)) as [->|]; [|lia].
  rewrite E in Hk. by destruct Hk.
Qed.

(** Every captured group is a non-empty run of its class. *)
Lemma match_items_groups its s gs :
  Re.match_items its s = Some gs →
  Forall2 (λ cls g, g ≠ [] ∧ Forall (λ c, cls c = true) g)
    (omap (λ it, match it with Re.Group cls => Some cls | _ => None end) its)
    gs.
Proof.
  revert s gs. induction its as [|[l|cls] its IH]; intros s gs; cbn [Re.match_items omap].
  - intros [= <-]. constructor.
  - destruct (Re.strip_prefix l s) as [s'|]; [|done]. apply IH.
  - intros (m & gs' & Hm & Hk & ->)%give_back_Some.
    constructor; [|by eapply IH]. split.
    + pose proof (span_le_length cls s).
      intros E%(f_equal length). rewrite length_take in E. simpl in E. lia.
    + apply span_take. lia.
Qed.

(** [re.match] does not look at the end of the string: what matches a
    string matches every extension of it. *)
Lemma match_items_app its s t :
  is_Some (Re.match_items its s) → is_Some (Re.match_items its (s ++ t)).
Proof.
  revert s. induction its as [|[l|cls] its IH]; intros s; cbn [Re.match_items].
  - done.
  - destruct (Re.strip_prefix l s) as [s'|] eqn:E; [|by intros []].
    apply strip_prefix_Some in E as ->. rewrite <-(assoc_L _), strip_prefix_app.
    apply IH.
  - intros [gs (m & gs' & Hm & Hk & ->)%give_back_Some].
    pose proof (span_le_length cls s). pose proof (span_app_le cls s t).
    apply (give_back_is_Some _ _ _ m); [lia|].
    rewrite drop_app_le by lia. apply IH. by rewrite Hk.
Qed.

(** A captured group is a piece of the string matched. *)
Lemma match_items_length its s gs :
  Re.match_items its s = Some gs →
  Forall (λ g, (length g ≤ length s)%nat) gs.
Proof.
  revert s gs. induction its as [|[l|cls] its IH]; intros s gs; cbn [Re.match_items].
  - intros [= <-]. constructor.
  - destruct (Re.strip_prefix l s) as [s'|] eqn:E; [|done].
    apply strip_prefix_Some in E as ->. intros Hgs%IH.
    eapply Forall_impl; [exact Hgs|]. intros g Hg. rewrite length_app. simpl in *. lia.
  - intros (m & gs' & Hm & Hk%IH & ->)%give_back_Some.
    constructor; [rewrite length_take; lia|].
    eapply Forall_impl; [exact Hk|]. intros g Hg. rewrite length_drop in Hg.
    simpl in *. lia.
Qed.

End regex.

(** What the ingest constructor does on a match: it reads four of the
    groups with [int] and returns the instance spelled out here, or turns
    the [ValueError] of [int] into [NotImagePlaneFile]. *)
Lemma from_xOpenSPIM_match file_name file_dir m :
  Re.match_ xOpenSPIM_pattern file_name = Some m →
  get_ImageFile_from_xOpenSPIM_filename file_name file_dir =
    match Py.int (Re.group 1 m), Py.int (Re.group 2 m),
          Py.int (Re.group 3 m), Py.int (Re.group 5 m) with
    | Some ch, Some sp, Some tp, Some pl =>
        inr {| dataset_name := []; timelapse_id := lit "20240808-111112";
               time_point := tp; specimen := sp; illumination := 0;
               camera := 0; channel := ch; plane := pl;
               total_num_planes := 1; additional_info := [];
               extension := Re.group 6 m; path_to_image_dir := file_dir |}
    | _, _, _, _ =>
        inl (NotImagePlaneFile
               (lit "This is not a valid custom filename for a single plane image file!"))
    end.
Proof.
  intros Hm. unfold get_ImageFile_from_xOpenSPIM_filename. rewrite Hm.
  unfold int, except_ValueError, mbind, exn_bind.
  by repeat match goal with
            | |- context [Py.int ?g] => destruct (Py.int g)
            end.
Qed.

Lemma from_xOpenSPIM_no_match file_name file_dir :
  Re.match_ xOpenSPIM_pattern file_name = None →
  get_ImageFile_from_xOpenSPIM_filename file_name file_dir =
    inl (NotImagePlaneFile (lit "xOpenSPIM file name is improperly formatted!")).
Proof.
  intros Hm. unfold get_ImageFile_from_xOpenSPIM_filename. by rewrite Hm.
Qed.

(** An instance comes from a match whose four groups [int] has read. *)
Lemma from_xOpenSPIM_inr file_name file_dir r :
  get_ImageFile_from_xOpenSPIM_filename file_name file_dir = inr r →
  ∃ m, Re.match_ xOpenSPIM_pattern file_name = Some m ∧
       Py.int (Re.group 1 m) = Some (channel r) ∧
       Py.int (Re.group 2 m) = Some (specimen r) ∧
       Py.int (Re.group 3 m) = Some (time_point r) ∧
       Py.int (Re.group 5 m) = Some (plane r) ∧
       r = {| dataset_name := []; timelapse_id := lit "20240808-111112";
              time_point := time_point r; specimen := specimen r;
              illumination := 0; camera := 0; channel := channel r;
              plane := plane r; total_num_planes := 1; additional_info := [];
              extension := Re.group 6 m; path_to_image_dir := file_dir |}.
Proof.
  intros Hr.
  destruct (Re.match_ xOpenSPIM_pattern file_name) as [m|] eqn:Hm;
    [|by rewrite from_xOpenSPIM_no_match in Hr].
  exists m. split; [done|].
  rewrite (from_xOpenSPIM_match _ _ m Hm) in Hr.
  destruct (Py.int (Re.group 1 m)) as [ch|]; [|done].
  destruct (Py.int (Re.group 2 m)) as [sp|]; [|done].
  destruct (Py.int (Re.group 3 m)) as [tp|]; [|done].
  destruct (Py.int (Re.group 5 m)) as [pl|]; [|done].
  by simplify_eq.
Qed.

(** The groups of a match: five runs of digits and a run of word
    characters, each a piece of the name. *)
Lemma xOpenSPIM_groups file_name m :
  Re.match_ xOpenSPIM_pattern file_name = Some m →
  (∀ k, k ∈ [1; 2; 3; 4; 5]%nat →
        Re.group k m ≠ [] ∧ Forall (λ c, Py.is_digit c = true) (Re.group k m)) ∧
  (Re.group 6 m ≠ [] ∧ Forall (λ c, Py.is_word c = true) (Re.group 6 m)) ∧
  (∀ k, (length (Re.group k m) ≤ length file_name)%nat).
Proof.
  intros Hm. pose proof (match_items_length _ _ _ Hm) as Hlen.
  apply match_items_groups in Hm. simpl in Hm.
  repeat match goal with
         | H : Forall2 _ (_ :: _) _ |- _ =>
             apply Forall2_cons_inv_l in H as (? & ? & [??] & H & ->)
         | H : Forall2 _ [] _ |- _ => apply Forall2_nil_inv_l in H as ->
         end.
  split_and!.
  - intros k Hk.
    repeat (apply elem_of_cons in Hk as [->|Hk]; [by split|]).
    by apply elem_of_nil in Hk.
  - done.
  - done.
  - intros k. unfold Re.group.
    repeat (apply Forall_cons in Hlen as [? Hlen]).
    do 7 (destruct k as [|k]; [simpl; lia|]).
    destruct k; simpl; lia.
Qed.

(** A match is decoded exactly when the four groups [int] reads are within
    its limit. *)
Lemma from_xOpenSPIM_short file_name file_dir m :
  Re.match_ xOpenSPIM_pattern file_name = Some m →
  (∀ k, k ∈ read_groups →
        Z.of_nat (length (Re.group k m)) ≤ Py.int_max_str_digits) →
  ∃ ch sp tp pl,
    Py.int (Re.group 1 m) = Some ch ∧ Py.int (Re.group 2 m) = Some sp ∧
    Py.int (Re.group 3 m) = Some tp ∧ Py.int (Re.group 5 m) = Some pl ∧
    get_ImageFile_from_xOpenSPIM_filename file_name file_dir =
      inr {| dataset_name := []; timelapse_id := lit "20240808-111112";
             time_point := tp; specimen := sp; illumination := 0;
             camera := 0; channel := ch; plane := pl;
             total_num_planes := 1; additional_info := [];
             extension := Re.group 6 m; path_to_image_dir := file_dir |}.
Proof.
  intros Hm Hshort. rewrite (from_xOpenSPIM_match _ _ m Hm).
  destruct (xOpenSPIM_groups _ _ Hm) as (Hd & _ & _).
  assert (∀ k, k ∈ read_groups → ∃ n, Py.int (Re.group k m) = Some n) as Hint.
  { intros k Hk. destruct (Hd k) as [Hne Hds].
    - unfold read_groups in Hk.
      repeat (apply elem_of_cons in Hk as [->|Hk];
              [repeat first [apply list_elem_of_here|apply list_elem_of_further]|]).
      by apply elem_of_nil in Hk.
    - apply int_digits_short; auto. }
  destruct (Hint 1%nat) as [ch ->]; [by repeat constructor|].
  destruct (Hint 2%nat) as [sp ->]; [by repeat constructor|].
  destruct (Hint 3%nat) as [tp ->]; [by repeat constructor|].
  destruct (Hint 5%nat) as [pl ->]; [by repeat constructor|].
  by exists ch, sp, tp, pl.
Qed.

Lemma from_xOpenSPIM_long file_name file_dir m :
  Re.match_ xOpenSPIM_pattern file_name = Some m →
  (∃ k, k ∈ read_groups ∧
        Py.int_max_str_digits < Z.of_nat (length (Re.group k m))) →
  get_ImageFile_from_xOpenSPIM_filename file_name file_dir =
    inl (NotImagePlaneFile
           (lit "This is not a valid custom filename for a single plane image file!")).
Proof.
  intros Hm (k & Hk & Hlong). rewrite (from_xOpenSPIM_match _ _ m Hm).
  destruct (xOpenSPIM_groups _ _ Hm) as (Hd & _ & _).
  assert (Py.int (Re.group k m) = None) as Hnone.
  { destruct (Hd k) as [Hne Hds]; [|by apply int_digits_long].
    unfold read_groups in Hk.
    repeat (apply elem_of_cons in Hk as [->|Hk];
            [repeat first [apply list_elem_of_here|apply list_elem_of_further]|]).
    by apply elem_of_nil in Hk. }
  unfold read_groups in Hk.
  repeat (apply elem_of_cons in Hk as [->|Hk];
          [rewrite Hnone;
           by repeat match goal with
                     | |- context [Py.int ?g] => destruct (Py.int g)
                     end|]).
  by apply elem_of_nil in Hk.
Qed.

(** C5. Ingest-grammar field mapping. Take a name the ingest pattern
    matches. The instance decoded from it, whenever there is one, has as
    channel, specimen, time point and plane the integers read from groups
    1, 2, 3 and 5 and as extension group 6; camera and illumination are 0,
    the number of planes is 1, the free-form fields are empty and the
    timelapse id is the fixed placeholder. There is such an instance when
    the four groups read have no more digits than [int] accepts, and
    otherwise the constructor raises [NotImagePlaneFile]. Group 4, the view,
    reaches no field: two names whose matches differ in that group only are
    decoded alike. *)
Theorem ingest_field_mapping (file_name file_dir : str) (m : list str) :
  Re.match_ xOpenSPIM_pattern file_name = Some m →
  (∀ r,
     get_ImageFile_from_xOpenSPIM_filename file_name file_dir = inr r →
     Py.int (Re.group 1 m) = Some (channel r) ∧
     Py.int (Re.group 2 m) = Some (specimen r) ∧
     Py.int (Re.group 3 m) = Some (time_point r) ∧
     Py.int (Re.group 5 m) = Some (plane r) ∧
     extension r = Re.group 6 m ∧
     camera r = 0 ∧ illumination r = 0 ∧ total_num_planes r = 1 ∧
     additional_info r = [] ∧ dataset_name r = [] ∧
     timelapse_id r = lit "20240808-111112" ∧
     path_to_image_dir r = file_dir) ∧
  ((∀ k, k ∈ read_groups →
         Z.of_nat (length (Re.group k m)) ≤ Py.int_max_str_digits) →
   ∃ ch sp tp pl,
     Py.int (Re.group 1 m) = Some ch ∧ Py.int (Re.group 2 m) = Some sp ∧
     Py.int (Re.group 3 m) = Some tp ∧ Py.int (Re.group 5 m) = Some pl ∧
     get_ImageFile_from_xOpenSPIM_filename file_name file_dir =
       inr {| dataset_name := []; timelapse_id := lit "20240808-111112";
              time_point := tp; specimen := sp; illumination := 0;
              camera := 0; channel := ch; plane := pl;
              total_num_planes := 1; additional_info := [];
              extension := Re.group 6 m; path_to_image_dir := file_dir |}) ∧
  ((∃ k, k ∈ read_groups ∧
         Py.int_max_str_digits < Z.of_nat (length (Re.group k m))) →
   get_ImageFile_from_xOpenSPIM_filename file_name file_dir =
     inl (NotImagePlaneFile
            (lit "This is not a valid custom filename for a single plane image file!"))) ∧
  (∀ file_name' m',
     Re.match_ xOpenSPIM_pattern file_name' = Some m' →
     (∀ k, k ≠ 4%nat → Re.group k m' = Re.group k m) →
     get_ImageFile_from_xOpenSPIM_filename file_name' file_dir =
     get_ImageFile_from_xOpenSPIM_filename file_name file_dir).
Proof.
  intros Hm. split_and!.
  - intros r Hr.
    destruct (from_xOpenSPIM_inr _ _ _ Hr) as (m0 & Hm0 & H1 & H2 & H3 & H5 & Heq).
    rewrite Hm in Hm0. simplify_eq. rewrite Heq. by split_and!.
  - by apply from_xOpenSPIM_short.
  - by apply from_xOpenSPIM_long.
  - intros file_name' m' Hm' Hk.
    rewrite (from_xOpenSPIM_match _ _ m Hm), (from_xOpenSPIM_match _ _ m' Hm').
    by rewrite !Hk by lia.
Qed.

Lemma ingest_field_mapping_witness :
  let file_name := lit "_channel01_position0002_time0003_view0_z0004.tif" in
  let m := [lit "01"; lit "0002"; lit "0003"; lit "0"; lit "0004"; lit "tif"] in
  Re.match_ xOpenSPIM_pattern file_name = Some m ∧
  (∀ k, k ∈ read_groups →
        Z.of_nat (length (Re.group k m)) ≤ Py.int_max_str_digits) ∧
  ∃ ch sp tp pl,
    Py.int (Re.group 1 m) = Some ch ∧ Py.int (Re.group 2 m) = Some sp ∧
    Py.int (Re.group 3 m) = Some tp ∧ Py.int (Re.group 5 m) = Some pl ∧
    get_ImageFile_from_xOpenSPIM_filename file_name (lit "in") =
      inr {| dataset_name := []; timelapse_id := lit "20240808-111112";
             time_point := tp; specimen := sp; illumination := 0;
             camera := 0; channel := ch; plane := pl;
             total_num_planes := 1; additional_info := [];
             extension := Re.group 6 m; path_to_image_dir := lit "in" |}.
Proof.
  intros file_name m.
  assert (Re.match_ xOpenSPIM_pattern file_name = Some m) as Hm
    by (vm_compute; reflexivity).
  assert (∀ k, k ∈ read_groups →
               Z.of_nat (length (Re.group k m)) ≤ Py.int_max_str_digits)
    as Hshort.
  { intros k Hk. unfold read_groups in Hk.
    repeat (apply elem_of_cons in Hk as [->|Hk];
            [vm_compute; discriminate|]).
    by apply elem_of_nil in Hk. }
  split; [exact Hm|]. split; [exact Hshort|].
  exact (proj1 (proj2 (ingest_field_mapping file_name (lit "in") m Hm)) Hshort).
Defined.

(** C10, as the code has it. Ingest decoding is anchored at the start of
    the name only: what follows a matching prefix is not looked at, so a
    name with a matching prefix is matched too. The name is then accepted
    exactly when the channel, position, time and z groups of its match have
    no more digits than [int] accepts, and with a longer group the
    constructor raises [NotImagePlaneFile]; a name of at most that many
    characters with a matching prefix is therefore accepted, and the
    documented name followed by [.bak] decodes, with extension [tif]. A name
    that does not begin with [_channel] is rejected. *)
Theorem ingest_anchored_at_start_only :
  (∀ file_name tail file_dir,
     is_Some (Re.match_ xOpenSPIM_pattern file_name) →
     ∃ m, Re.match_ xOpenSPIM_pattern (file_name ++ tail) = Some m ∧
          ((∀ k, k ∈ read_groups →
                 Z.of_nat (length (Re.group k m)) ≤ Py.int_max_str_digits) ↔
           ∃ r, get_ImageFile_from_xOpenSPIM_filename
                  (file_name ++ tail) file_dir = inr r) ∧
          ((∃ k, k ∈ read_groups ∧
                 Py.int_max_str_digits < Z.of_nat (length (Re.group k m))) →
           get_ImageFile_from_xOpenSPIM_filename (file_name ++ tail) file_dir =
             inl (NotImagePlaneFile
                    (lit "This is not a valid custom filename for a single plane image file!")))) ∧
  (∀ file_name tail file_dir,
     is_Some (Re.match_ xOpenSPIM_pattern file_name) →
     Z.of_nat (length (file_name ++ tail)) ≤ Py.int_max_str_digits →
     ∃ r, get_ImageFile_from_xOpenSPIM_filename (file_name ++ tail) file_dir
          = inr r) ∧
  (∀ file_dir, ∃ r,
     get_ImageFile_from_xOpenSPIM_filename
       (lit "_channel01_position0002_time0003_view0_z0004.tif.bak") file_dir
     = inr r ∧ extension r = lit "tif") ∧
  (∀ file_name file_dir,
     Re.strip_prefix (lit "_channel") file_name = None →
     get_ImageFile_from_xOpenSPIM_filename file_name file_dir =
       inl (NotImagePlaneFile
              (lit "xOpenSPIM file name is improperly formatted!"))).
Proof.
  split_and!.
  - intros file_name tail file_dir Hm.
    apply (match_items_app _ _ tail) in Hm as [m Hm].
    exists m. split; [exact Hm|].
    split; [split|by apply from_xOpenSPIM_long].
    + intros Hshort.
      destruct (from_xOpenSPIM_short _ file_dir m Hm Hshort)
        as (?&?&?&?&_&_&_&_&->).
      by eexists.
    + intros [r Hr] k Hk.
      destruct (Z.le_gt_cases (Z.of_nat (length (Re.group k m)))
                  Py.int_max_str_digits) as [|Hlong]; [done|].
      rewrite (from_xOpenSPIM_long _ file_dir m Hm) in Hr; [done|].
      by exists k.
  - intros file_name tail file_dir Hm Hlen.
    apply (match_items_app _ _ tail) in Hm as [m Hm].
    destruct (from_xOpenSPIM_short _ file_dir m Hm) as (?&?&?&?&_&_&_&_&->);
      [|by eexists].
    intros k _. destruct (xOpenSPIM_groups _ _ Hm) as (_ & _ & Hk).
    specialize (Hk k). lia.
  - intros file_dir. eexists. split; [by vm_compute|done].
  - intros file_name file_dir Hp. apply from_xOpenSPIM_no_match.
    unfold Re.match_, xOpenSPIM_pattern. cbn [Re.match_items]. by rewrite Hp.
Qed.

Lemma ingest_anchored_at_start_only_witness :
  (∃ r, get_ImageFile_from_xOpenSPIM_filename
          (lit "_channel01_position0002_time0003_view0_z0004.tif"
           ++ lit ".bak") (lit "in") = inr r) ∧
  get_ImageFile_from_xOpenSPIM_filename
    (lit "x_channel01_position0002_time0003_view0_z0004.tif") (lit "in") =
    inl (NotImagePlaneFile (lit "xOpenSPIM file name is improperly formatted!")).
Proof.
  destruct ingest_anchored_at_start_only as (_ & Hacc & _ & Hrej). split.
  - apply Hacc.
    + eexists. vm_compute. reflexivity.
    + vm_compute. discriminate.
  - apply Hrej. vm_compute. reflexivity.
Defined.

(** C10, as the specification has it, fails: a name the ingest pattern
    matches, whose channel is written with 4301 digits, is rejected. *)
Lemma long_group_rejected_counterexample :
  let file_name :=
    lit "_channel" ++ replicate 4301 "1"
    ++ lit "_position0002_time0003_view0_z0004.tif" in
  is_Some (Re.match_ xOpenSPIM_pattern file_name) ∧
  get_ImageFile_from_xOpenSPIM_filename file_name (lit "in") =
    inl (NotImagePlaneFile
           (lit "This is not a valid custom filename for a single plane image file!")).
Proof.
  intros file_name. split.
  - eexists. vm_compute. reflexivity.
  - vm_compute. reflexivity.
Qed.

(** ** Paths *)

Lemma take_while_app p (a b : list ascii) c :
  Forall (λ x, p x = true) a → p c = false →
  Path.take_while p (a ++ c :: b) = a.
Proof.
  induction 1 as [|x a Hx _ IH]; intros Hc; simpl; [by rewrite Hc|].
  rewrite Hx. f_equal. by apply IH.
Qed.

Lemma take_while_all p (a : list ascii) :
  Forall (λ x, p x = true) a → Path.take_while p a = a.
Proof. induction 1 as [|x a Hx _ IH]; simpl; [done|]. rewrite Hx. by f_equal. Qed.

Lemma no_sep_Forall (n : list ascii) :
  "/" ∉ n → Forall (λ x, negb (Path.is_sep x) = true) n.
Proof.
  intros Hn. apply Forall_forall. intros x Hx. unfold Path.is_sep.
  case_bool_decide; [by subst|done].
Qed.

(** The base name of a bare name is the name itself. *)
Lemma basename_bare (n : list ascii) : "/" ∉ n → Path.basename n = n.
Proof.
  intros Hn. unfold Path.basename. rewrite take_while_all.
  - apply reverse_involutive.
  - apply Forall_reverse. by apply no_sep_Forall.
Qed.

Lemma basename_after_sep (a n : list ascii) :
  "/" ∉ n → Path.basename (a ++ "/" :: n) = n.
Proof.
  intros Hn. unfold Path.basename.
  rewrite reverse_app, reverse_cons, <-(assoc_L _). simpl.
  rewrite take_while_app; [apply reverse_involutive| |done].
  apply Forall_reverse. by apply no_sep_Forall.
Qed.

(** [basename(join(d, n)) = n] for a bare name [n]. *)
Lemma basename_join (d n : list ascii) :
  "/" ∉ n → Path.basename (Path.join d n) = n.
Proof.
  intros Hn. unfold Path.join.
  assert (Path.starts_with_sep n = false) as ->.
  { unfold Path.starts_with_sep, Path.is_sep. destruct n as [|c n]; [done|].
    simpl. case_bool_decide; [|done]. subst. exfalso. apply Hn. left. }
  case_bool_decide as Hd; simpl.
  { subst. by apply basename_bare. }
  unfold Path.ends_with_sep, Path.is_sep.
  destruct (last d) as [c|] eqn:Ed; [|by apply basename_after_sep].
  case_bool_decide; [|by apply basename_after_sep].
  subst. apply last_Some in Ed as [d' ->].
  rewrite <-(assoc_L _). by apply basename_after_sep.
Qed.


(** ** The processor *)

Section processor.
Context {world : Type} `{FileSystem world}.
Implicit Types (st : state world) (who : trigger).

(** What [process] does when the name decodes: it copies to the new name
    under the output folder, and reports either the copy or its failure. *)
Lemma process_decoded who output_folder file_path image_file st :
  get_ImageFile_from_xOpenSPIM_filename (Path.basename file_path) []
    = inr image_file →
  process who output_folder file_path st =
    (note who file_path;;
     try_except
       (shutil_copy file_path
          (Path.join output_folder (get_name image_file));;
        print (lit "Copied: " ++ file_path ++ lit " to "
               ++ Path.join output_folder (get_name image_file)))
       (λ e, print (lit "Error while copying: " ++ exn_str e))) st.
Proof.
  intros Hd. unfold process, mbind, M_bind, try_except, lift. simpl.
  by rewrite Hd.
Qed.

(** What [process] does when the name does not decode: one line of
    output, and nothing else. *)
Lemma process_rejected who output_folder file_path e st :
  get_ImageFile_from_xOpenSPIM_filename (Path.basename file_path) [] = inl e →
  process who output_folder file_path st =
    (inr (),
     {| fs := fs st;
        stdout := stdout st ++ [lit "Error while copying: " ++ exn_str e];
        processed_files := processed_files st;
        history := history st ++ [(who, file_path)] |}).
Proof.
  intros Hd. unfold process, mbind, M_bind, try_except, lift. simpl.
  by rewrite Hd.
Qed.

(** [process] ends normally, always, and leaves [processed_files] alone;
    it adds its own call to the history. *)
Lemma process_returns who output_folder file_path st :
  ∃ w out,
    process who output_folder file_path st =
      (inr (),
       {| fs := w; stdout := out;
          processed_files := processed_files st;
          history := history st ++ [(who, file_path)] |}).
Proof.
  destruct (get_ImageFile_from_xOpenSPIM_filename
              (Path.basename file_path) []) as [e|image_file] eqn:Hd.
  - rewrite (process_rejected _ _ _ e) by done. by eexists _, _.
  - rewrite (process_decoded _ _ _ image_file) by done.
    unfold mbind, M_bind, try_except, shutil_copy, note, print. simpl.
    destruct (copy _ _ _) as [[e|] w]; simpl; by eexists _, _.
Qed.

End processor.

(** C2. The documented example, end to end: the ingest name decodes, the
    instance is named
    [timelapseID-20240808-111112_SPC-0002_TP-0003_ILL-0_CAM-0_CH-01_PL-0004-outOf-0001.tif],
    and [process] copies the file, from whatever folder it lies in, to that
    name joined with the output folder. *)
Theorem documented_example_renamed {world : Type} `{FileSystem world}
    (who : trigger) (input_folder output_folder : str) (st : state world) :
  let file_name := lit "_channel01_position0002_time0003_view0_z0004.tif" in
  let new_name :=
    lit "timelapseID-20240808-111112_SPC-0002_TP-0003_ILL-0_CAM-0_CH-01_PL-0004-outOf-0001.tif" in
  let file_path := Path.join input_folder file_name in
  let new_path := Path.join output_folder new_name in
  (∃ image_file,
     get_ImageFile_from_xOpenSPIM_filename file_name [] = inr image_file ∧
     get_name image_file = new_name) ∧
  process who output_folder file_path st =
    (note who file_path;;
     try_except
       (shutil_copy file_path new_path;;
        print (lit "Copied: " ++ file_path ++ lit " to " ++ new_path))
       (λ e, print (lit "Error while copying: " ++ exn_str e))) st.
Proof.
  intros file_name new_name file_path new_path.
  assert (∃ image_file,
     get_ImageFile_from_xOpenSPIM_filename file_name [] = inr image_file ∧
     get_name image_file = new_name) as (image_file & Hd & Hn).
  { eexists. split; [by vm_compute|by vm_compute]. }
  split; [by exists image_file|].
  unfold new_path. rewrite <-Hn. apply process_decoded.
  unfold file_path. rewrite basename_join; [done|].
  apply (bool_decide_unpack _). by vm_compute.
Qed.

(** C9. Per-file error containment: [process] never ends by raising. When
    the base name does not decode (as for [randomfile.tif]) it prints the
    error and leaves the file system as it was, so nothing is copied; and
    the scan goes on to the next file whatever happened to this one. *)
Theorem process_contains_errors {world : Type} `{FileSystem world} :
  (∀ who output_folder file_path (st : state world),
     (process who output_folder file_path st).1 = inr ()) ∧
  (∀ who output_folder file_path e (st : state world),
     get_ImageFile_from_xOpenSPIM_filename (Path.basename file_path) []
       = inl e →
     process who output_folder file_path st =
       (inr (),
        {| fs := fs st;
           stdout := stdout st ++ [lit "Error while copying: " ++ exn_str e];
           processed_files := processed_files st;
           history := history st ++ [(who, file_path)] |})) ∧
  (∀ folder,
     get_ImageFile_from_xOpenSPIM_filename
       (Path.basename (Path.join folder (lit "randomfile.tif"))) []
     = inl (NotImagePlaneFile
              (lit "xOpenSPIM file name is improperly formatted!"))) ∧
  (∀ output_folder f rest (st : state world),
     scan_loop output_folder (f :: rest) st =
     scan_loop output_folder rest
       (add_processed f (process ReconcileTrigger output_folder f st).2).2).
Proof.
  split_and!.
  - intros who output_folder file_path st.
    by destruct (process_returns who output_folder file_path st) as (w & out & ->).
  - intros who output_folder file_path e st. apply process_rejected.
  - intros folder. rewrite basename_join; [by vm_compute|].
    apply (bool_decide_unpack _). by vm_compute.
  - intros output_folder f rest st. cbn [scan_loop]. unfold mbind, M_bind.
    by destruct (process_returns ReconcileTrigger output_folder f st)
      as (w & out & ->).
Qed.

Lemma process_contains_errors_witness :
  let st := monitor_init (Disk.watched [("randomfile.tif"%string, 3)]) in
  process EventTrigger (lit "out") (lit "in/randomfile.tif") st =
    (inr (),
     {| fs := fs st;
        stdout :=
          [lit "Error while copying: xOpenSPIM file name is improperly formatted!"];
        processed_files := ∅;
        history := [(EventTrigger, lit "in/randomfile.tif")] |}).
Proof.
  intros st.
  destruct (process_contains_errors (world := Disk.disk)) as (_ & Hrej & _).
  apply (Hrej EventTrigger (lit "out") (lit "in/randomfile.tif")
           (NotImagePlaneFile
              (lit "xOpenSPIM file name is improperly formatted!")) st).
  by vm_compute.
Defined.

(** ** The canonical constructor *)

(** The message of the segment-count failure. *)
Lemma ImageFile_init_count file_path :
  length (Re.split split_by_alts (Path.basename file_path)) ≠ 10%nat →
  ImageFile_init file_path =
    inl (NotImagePlaneFile
           (lit "Image file name is improperly formatted! Check documentation inside the script. Expected 10 parts after splitting by "
            ++ split_by)).
Proof.
  intros Hlen. unfold ImageFile_init.
  destruct (Nat.eqb_spec
    (length (Re.split split_by_alts (Path.basename file_path))) 10); done.
Qed.

Ltac split_ten parts :=
  destruct parts as [|? [|? [|? [|? [|? [|? [|? [|? [|? [|? [|? ?]]]]]]]]]]];
  try discriminate.

Ltac run_init :=
  unfold ImageFile_init, except_ValueError, init_loop, init_part, Py.split1,
    int, mbind, exn_bind;
  cbn [length Nat.eqb].

(** What a successful construction tells about the segments of the name. *)
Lemma ImageFile_init_inr file_path r :
  ImageFile_init file_path = inr r →
  ∃ p0 p1 p2 p3 p4 p5 p6 p7 p8 p9,
    Re.split split_by_alts (Path.basename file_path)
      = [p0; p1; p2; p3; p4; p5; p6; p7; p8; p9] ∧
    dataset_name r = strip_dash p0 ∧
    timelapse_id r = strip_dash p1 ∧
    Py.int (strip_dash p2) = Some (specimen r) ∧
    Py.int (strip_dash p3) = Some (time_point r) ∧
    Py.int (strip_dash p4) = Some (illumination r) ∧
    Py.int (strip_dash p5) = Some (camera r) ∧
    Py.int (strip_dash p6) = Some (channel r) ∧
    Py.int (strip_dash p7) = Some (plane r) ∧
    match Py.cut "_" (strip_dash p8) with
    | None =>
        Py.int (strip_dash (strip_dash p8)) = Some (total_num_planes r) ∧
        additional_info r = []
    | Some (num_planes, info) =>
        Py.int (strip_dash num_planes) = Some (total_num_planes r) ∧
        additional_info r = info
    end ∧
    extension r = p9 ∧
    path_to_image_dir r = Path.dirname file_path.
Proof.
  unfold ImageFile_init.
  destruct (Re.split split_by_alts (Path.basename file_path)) as [|p0 parts];
    [done|].
  split_ten parts. run_init.
  repeat match goal with
         | |- context [Py.int ?s] => destruct (Py.int s) eqn:?; [|done]
         end;
  destruct (Py.cut "_" (strip_dash _)) as [[num_planes info]|] eqn:Hcut;
  repeat match goal with
         | |- context [Py.int ?s] => destruct (Py.int s) eqn:?; [|done]
         end;
  intros [= <-]; do 10 eexists; cbn; rewrite ?Hcut; split_and!; done.
Qed.

(** Conversely, segments that read well give the instance. *)
Lemma ImageFile_init_intro file_path p0 p1 p2 p3 p4 p5 p6 p7 p8 p9
    sp tp il ca ch pl tot :
  Re.split split_by_alts (Path.basename file_path)
    = [p0; p1; p2; p3; p4; p5; p6; p7; p8; p9] →
  Py.int (strip_dash p2) = Some sp →
  Py.int (strip_dash p3) = Some tp →
  Py.int (strip_dash p4) = Some il →
  Py.int (strip_dash p5) = Some ca →
  Py.int (strip_dash p6) = Some ch →
  Py.int (strip_dash p7) = Some pl →
  match Py.cut "_" (strip_dash p8) with
  | None => Py.int (strip_dash (strip_dash p8)) = Some tot
  | Some (num_planes, _) => Py.int (strip_dash num_planes) = Some tot
  end →
  ImageFile_init file_path =
    inr {| dataset_name := strip_dash p0; timelapse_id := strip_dash p1;
           time_point := tp; specimen := sp; illumination := il;
           camera := ca; channel := ch; plane := pl;
           total_num_planes := tot;
           additional_info :=
             match Py.cut "_" (strip_dash p8) with
             | None => []
             | Some (_, info) => info
             end;
           extension := p9;
           path_to_image_dir := Path.dirname file_path |}.
Proof.
  intros Hs H2 H3 H4 H5 H6 H7 H8. unfold ImageFile_init. rewrite Hs.
  run_init. rewrite H2, H3, H4, H5, H6, H7.
  destruct (Py.cut "_" (strip_dash p8)) as [[num_planes info]|];
    by rewrite H8.
Qed.

(** A numeric segment that does not read as an integer fails the
    construction. *)
Lemma ImageFile_init_not_int file_path parts :
  Re.split split_by_alts (Path.basename file_path) = parts →
  length parts = 10%nat →
  (∃ i part, (2 ≤ i ≤ 7)%nat ∧ parts !! i = Some part ∧
             Py.int (strip_dash part) = None) ∨
  (∃ part, parts !! 8%nat = Some part ∧
           Py.int (strip_dash
                     (default [] (head (Py.split1 "_" (strip_dash part)))))
           = None) →
  ImageFile_init file_path =
    inl (NotImagePlaneFile
           (lit "This is not a valid filename for a single plane image file!")).
Proof.
  intros Hs Hlen Hbad. unfold ImageFile_init. rewrite Hs.
  destruct parts as [|p0 parts]; [done|]. split_ten parts. clear Hlen Hs.
  run_init.
  destruct Hbad as [(i & part & Hi & Hp & Hbad)|(part & Hp & Hbad)].
  - repeat match goal with
           | |- context [Py.int ?s] => destruct (Py.int s) eqn:?; [|done]
           end.
    exfalso.
    do 8 (destruct i as [|i]; [simplify_eq/=; try lia; congruence|]). lia.
  - simplify_eq/=. unfold Py.split1 in Hbad.
    repeat match goal with
           | |- context [Py.int (strip_dash ?s)] =>
               is_var s; destruct (Py.int (strip_dash s)) eqn:?; [|done]
           end.
    destruct (Py.cut "_" (strip_dash part)) as [[num_planes info]|];
      simpl in Hbad; by rewrite Hbad.
Qed.

(** C3. Rejection with a typed failure: a name whose split does not give
    exactly 10 segments, or one of whose numeric segments does not read as
    an integer, makes the canonical constructor raise [NotImagePlaneFile];
    a name the ingest pattern does not match makes the ingest constructor
    raise [NotImagePlaneFile]. Either way there is no instance. *)
Theorem malformed_names_rejected :
  (∀ file_path,
     length (Re.split split_by_alts (Path.basename file_path)) ≠ 10%nat →
     ImageFile_init file_path =
       inl (NotImagePlaneFile
              (lit "Image file name is improperly formatted! Check documentation inside the script. Expected 10 parts after splitting by "
               ++ split_by))) ∧
  (∀ file_path parts,
     Re.split split_by_alts (Path.basename file_path) = parts →
     length parts = 10%nat →
     (∃ i part, (2 ≤ i ≤ 7)%nat ∧ parts !! i = Some part ∧
                Py.int (strip_dash part) = None) ∨
     (∃ part, parts !! 8%nat = Some part ∧
              Py.int (strip_dash
                        (default [] (head (Py.split1 "_" (strip_dash part)))))
              = None) →
     ImageFile_init file_path =
       inl (NotImagePlaneFile
              (lit "This is not a valid filename for a single plane image file!"))) ∧
  (∀ file_name file_dir,
     Re.match_ xOpenSPIM_pattern file_name = None →
     get_ImageFile_from_xOpenSPIM_filename file_name file_dir =
       inl (NotImagePlaneFile
              (lit "xOpenSPIM file name is improperly formatted!"))).
Proof.
  split_and!.
  - apply ImageFile_init_count.
  - apply ImageFile_init_not_int.
  - apply from_xOpenSPIM_no_match.
Qed.

Lemma malformed_names_rejected_witness :
  (∃ msg, ImageFile_init (lit "in/randomfile.tif")
          = inl (NotImagePlaneFile msg)) ∧
  (∃ msg,
     ImageFile_init
       (lit "timelapseID-x_SPC-0001_TP-two_ILL-0_CAM-0_CH-01_PL-0001-outOf-0150.tif")
     = inl (NotImagePlaneFile msg)) ∧
  (∃ msg, get_ImageFile_from_xOpenSPIM_filename (lit "randomfile.tif") []
          = inl (NotImagePlaneFile msg)).
Proof.
  destruct malformed_names_rejected as (Hcount & Hint & Hmatch).
  split_and!; eexists.
  - apply Hcount. by vm_compute.
  - eapply Hint; [reflexivity|by vm_compute|].
    left. exists 3%nat. eexists. split_and!; [lia|lia|by vm_compute|by vm_compute].
  - apply Hmatch. by vm_compute.
Defined.

(** C8. The extension is stored as it is written: the canonical
    constructor keeps the last segment of the split and the ingest
    constructor keeps group 6, character for character, and [get_name]
    writes the field unchanged after the last dot. An upper-case extension
    stays upper-case in the instance and in the name made from it. *)
Theorem extension_stored_verbatim :
  (∀ file_path r,
     ImageFile_init file_path = inr r →
     Re.split split_by_alts (Path.basename file_path) !! 9%nat
       = Some (extension r)) ∧
  (∀ file_name file_dir r,
     get_ImageFile_from_xOpenSPIM_filename file_name file_dir = inr r →
     ∃ m, Re.match_ xOpenSPIM_pattern file_name = Some m ∧
          extension r = Re.group 6 m) ∧
  (∀ r, ∃ stem, get_name r = stem ++ lit "." ++ extension r) ∧
  (∃ r,
     ImageFile_init
       (lit "timelapseID-x_SPC-0001_TP-0002_ILL-0_CAM-0_CH-01_PL-0003-outOf-0150.TIF")
     = inr r ∧ extension r = lit "TIF" ∧
     get_name r =
       lit "timelapseID-x_SPC-0001_TP-0002_ILL-0_CAM-0_CH-01_PL-0003-outOf-0150.TIF") ∧
  (∃ r,
     get_ImageFile_from_xOpenSPIM_filename
       (lit "_channel01_position0002_time0003_view0_z0004.TIF") []
     = inr r ∧ extension r = lit "TIF").
Proof.
  split_and!.
  - intros file_path r (p0&p1&p2&p3&p4&p5&p6&p7&p8&p9&->&Hr)%ImageFile_init_inr.
    simpl. f_equal. symmetry. apply Hr.
  - intros file_name file_dir r Hr.
    destruct (from_xOpenSPIM_inr _ _ _ Hr) as (m & Hm & _ & _ & _ & _ & Heq).
    exists m. split; [done|]. by rewrite Heq.
  - intros r. unfold get_name. eexists. rewrite !(assoc_L (++)). reflexivity.
  - eexists. split_and!; [by vm_compute|by vm_compute|by vm_compute].
  - eexists. split_and!; [by vm_compute|by vm_compute].
Qed.

Lemma extension_stored_verbatim_witness :
  let file_path :=
    lit "in/ds_timelapseID-x_SPC-0001_TP-0002_ILL-0_CAM-0_CH-01_PL-0003-outOf-0150_blaBla.Tif" in
  ∃ r, ImageFile_init file_path = inr r ∧
       Re.split split_by_alts (Path.basename file_path) !! 9%nat
         = Some (extension r) ∧
       extension r = lit "Tif".
Proof.
  intros file_path. eexists. split; [vm_compute; reflexivity|]. split.
  - apply (proj1 extension_stored_verbatim file_path). by vm_compute.
  - reflexivity.
Defined.

(** ** The split on the delimiters *)

Section split.
Implicit Types (s t b : list ascii) (c : ascii) (alts : list (list ascii)).

Lemma first_alt_Some alts s n :
  Re.first_alt alts s = Some n →
  ∃ alt t, alt ∈ alts ∧ s = alt ++ t ∧ n = length alt.
Proof.
  induction alts as [|alt alts IH]; simpl; [done|].
  destruct (Re.strip_prefix alt s) as [t|] eqn:E.
  - intros [= <-]. apply strip_prefix_Some in E. exists alt, t.
    split_and!; [left|done|done].
  - intros (alt' & t & ? & ? & ?)%IH. exists alt', t.
    split_and!; [by right|done|done].
Qed.

(** A match does not depend on what follows it. *)
Lemma first_alt_None_app alts s t :
  Re.first_alt alts (s ++ t) = None → Re.first_alt alts s = None.
Proof.
  induction alts as [|alt alts IH]; simpl; [done|].
  destruct (Re.strip_prefix alt (s ++ t)) eqn:E; [done|].
  apply strip_prefix_None_app in E as ->. apply IH.
Qed.

Lemma strip_prefix_blocked alt b c t :
  c ∉ tail alt → b ≠ [] →
  is_Some (Re.strip_prefix alt (b ++ c :: t)) → is_Some (Re.strip_prefix alt b).
Proof.
  intros Hc Hb [u Hu%strip_prefix_Some].
  destruct b as [|x b]; [done|]. destruct alt as [|y alt]; [by eexists|].
  simplify_eq/=. clear Hb. revert alt Hc H0.
  induction b as [|x' b IH]; intros alt Hc Hu.
  - destruct alt as [|z alt]; simplify_eq/=.
    + rewrite bool_decide_true by done. by eexists.
    + exfalso. apply Hc. left.
  - destruct alt as [|z alt]; simplify_eq/=.
    + rewrite bool_decide_true by done. by eexists.
    + rewrite bool_decide_true by done.
      destruct (IH alt) as [v Hv]; [|done|].
      * intros ?. apply Hc. by right.
      * rewrite bool_decide_true in Hv by done.
        rewrite bool_decide_true by done. by eexists.
Qed.

(** A character that occurs in no delimiter after its first character
    hides what follows it from the delimiters that start before it. *)
Lemma first_alt_blocked alts b c t :
  Forall (λ alt, c ∉ tail alt) alts → b ≠ [] →
  Re.first_alt alts (b ++ c :: t) = Re.first_alt alts b.
Proof.
  intros Halts Hb. induction Halts as [|alt alts Hc _ IH]; simpl; [done|].
  destruct (Re.strip_prefix alt b) as [u|] eqn:E.
  - apply strip_prefix_Some in E as ->. by rewrite <-(assoc_L _), strip_prefix_app.
  - destruct (Re.strip_prefix alt (b ++ c :: t)) as [u|] eqn:E'; [|done].
    destruct (strip_prefix_blocked alt b c t) as [v Hv]; [done..|by eexists|].
    congruence.
Qed.

Lemma split_go_skip alts s t cur :
  Re.split_go alts (s ++ t) (length s) cur = Re.split_go alts t 0 cur.
Proof. induction s as [|c s IH]; simpl; [by destruct t|done]. Qed.

(** Passing a delimiter closes the current segment. *)
Lemma split_go_delimiter alts d t cur :
  d ≠ [] → Re.first_alt alts (d ++ t) = Some (length d) →
  Re.split_go alts (d ++ t) 0 cur = reverse cur :: Re.split_go alts t 0 [].
Proof.
  intros Hd Hm. destruct d as [|c d]; [done|].
  change ((c :: d) ++ t) with (c :: (d ++ t)) in *.
  cbn [Re.split_go]. rewrite Hm. cbn [length Nat.pred].
  by rewrite split_go_skip.
Qed.

(** Passing text no delimiter starts in extends the current segment. *)
Lemma split_go_quiet alts x t cur :
  (∀ a b, x = a ++ b → b ≠ [] → Re.first_alt alts (b ++ t) = None) →
  Re.split_go alts (x ++ t) 0 cur = Re.split_go alts t 0 (reverse x ++ cur).
Proof.
  revert cur. induction x as [|c x IH]; intros cur Hq; [done|].
  change ((c :: x) ++ t) with (c :: (x ++ t)).
  cbn [Re.split_go].
  pose proof (Hq [] (c :: x) eq_refl ltac:(done)) as Hc.
  change ((c :: x) ++ t) with (c :: (x ++ t)) in Hc. rewrite Hc.
  rewrite IH.
  - by rewrite reverse_cons, <-(assoc_L _).
  - intros a b -> Hb. by apply (Hq (c :: a) b).
Qed.

End split.

(** The delimiters of the canonical grammar contain neither an underscore
    nor, after their first character, a dot. *)
Lemma underscore_blocks :
  Forall (λ alt : list ascii, "_" ∉ tail alt) split_by_alts.
Proof. repeat constructor; apply (bool_decide_unpack _); by vm_compute. Qed.

Lemma dot_blocks : Forall (λ alt : list ascii, "." ∉ tail alt) split_by_alts.
Proof. repeat constructor; apply (bool_decide_unpack _); by vm_compute. Qed.

Lemma first_alt_dot t : Re.first_alt split_by_alts ("." :: t) = Some 1%nat.
Proof. reflexivity. Qed.

Lemma first_alt_length s n :
  Re.first_alt split_by_alts s = Some n → (1 ≤ n ≤ length s)%nat.
Proof.
  intros (alt & t & Halt & -> & ->)%first_alt_Some.
  rewrite length_app. split; [|lia].
  unfold split_by_alts in Halt. simpl in Halt.
  repeat (apply elem_of_cons in Halt as [->|Halt]; [simpl; lia|]).
  by apply elem_of_nil in Halt.
Qed.

(** Every dot closes a segment: the segments of [a.b] are those of [a]
    followed by those of [b]. *)
Lemma split_go_dot a b k cur :
  (k ≤ length a)%nat →
  Re.split_go split_by_alts (a ++ "." :: b) k cur =
  Re.split_go split_by_alts a k cur ++ Re.split_go split_by_alts b 0 [].
Proof.
  revert k cur. induction a as [|c a IH]; intros k cur Hk.
  - assert (k = 0%nat) as -> by (simpl in Hk; lia). reflexivity.
  - change ((c :: a) ++ "." :: b) with (c :: (a ++ "." :: b)).
    cbn [Re.split_go]. destruct k as [|k].
    + change (c :: a ++ "." :: b) with ((c :: a) ++ "." :: b).
      rewrite (first_alt_blocked _ (c :: a)) by (apply dot_blocks || done).
      destruct (Re.first_alt split_by_alts (c :: a)) as [n|] eqn:E.
      * apply first_alt_length in E. simpl in E.
        rewrite IH by lia. done.
      * by rewrite IH by (simpl; lia).
    + apply IH. simpl in Hk. lia.
Qed.

Lemma split_dot a b :
  Re.split split_by_alts (a ++ "." :: b) =
  Re.split split_by_alts a ++ Re.split split_by_alts b.
Proof. unfold Re.split. apply split_go_dot. lia. Qed.

Lemma split_go_nonempty alts s k cur : Re.split_go alts s k cur ≠ [].
Proof.
  revert k cur. induction s as [|c s IH]; intros k cur; simpl; [done|].
  destruct k; [|done]. by destruct (Re.first_alt alts (c :: s)).
Qed.

(** ** What the segments of a decoded name are made of *)

Lemma first_alt_nil : Re.first_alt split_by_alts [] = None.
Proof. reflexivity. Qed.

Lemma delimiter_free_nil : delimiter_free [].
Proof. intros a b E. symmetry in E. apply app_eq_nil in E as [_ ->]. reflexivity. Qed.

(** A part of a delimiter-free string is delimiter-free. *)
Lemma delimiter_free_infix a x b :
  delimiter_free (a ++ x ++ b) → delimiter_free x.
Proof.
  intros Hf a' b' ->. apply (first_alt_None_app _ _ b).
  apply (Hf (a ++ a') (b' ++ b)). by rewrite <-!(assoc_L (++)).
Qed.

Lemma no_segment_yet t a b :
  reverse (@nil ascii) = a ++ b → b ≠ [] →
  Re.first_alt split_by_alts (b ++ t) = None.
Proof. intros E Hb. symmetry in E. by apply app_eq_nil in E as [_ ->]. Qed.

(** The scan keeps two things true of the segment it is reading: no
    delimiter starts in it, given what is still to be read, and its
    characters come from the string. *)
Lemma split_go_segments s k cur seg :
  (k = 0%nat ∨ cur = []) →
  (∀ a b, reverse cur = a ++ b → b ≠ [] →
          Re.first_alt split_by_alts (b ++ s) = None) →
  seg ∈ Re.split_go split_by_alts s k cur →
  delimiter_free seg ∧ ∀ c, c ∈ seg → c ∈ cur ∨ c ∈ s.
Proof.
  revert k cur. induction s as [|c s IH]; intros k cur Hk Hcur.
  - simpl. intros ->%list_elem_of_singleton. split.
    + intros a b E. destruct b as [|x b]; [reflexivity|].
      rewrite <-(right_id_L [] (++) (x :: b)). by apply (Hcur a).
    + intros x Hx. left. by apply elem_of_reverse.
  - cbn [Re.split_go]. destruct k as [|k].
    + destruct (Re.first_alt split_by_alts (c :: s)) as [n|] eqn:E.
      * intros [->|Hseg]%elem_of_cons.
        -- split.
           ++ intros a b Eab. destruct b as [|x b]; [reflexivity|].
              apply (first_alt_None_app _ _ (c :: s)). by apply (Hcur a).
           ++ intros x Hx. left. by apply elem_of_reverse.
        -- apply IH in Hseg as [Hf Hc]; [|by right|apply no_segment_yet].
           split; [done|]. intros x [Hx|Hx]%Hc; [by apply elem_of_nil in Hx|].
           right. by right.
      * intros Hseg. apply IH in Hseg as [Hf Hc]; [|by left|].
        -- split; [done|]. intros x [Hx|Hx]%Hc.
           ++ apply elem_of_cons in Hx as [->|Hx]; [right; left|by left].
           ++ right. by right.
        -- intros a b Eab Hb. rewrite reverse_cons in Eab.
           destruct b as [|x b _] using rev_ind; [done|].
           rewrite (assoc_L (++)) in Eab. apply app_inj_tail in Eab as [Eab ->].
           rewrite <-(assoc_L (++)). simpl.
           destruct b as [|y b]; [exact E|]. by apply (Hcur a).
    + destruct Hk as [?| ->]; [done|].
      intros Hseg. apply IH in Hseg as [Hf Hc]; [|by right|apply no_segment_yet].
      split; [done|]. intros x [Hx|Hx]%Hc; [by left|]. right. by right.
Qed.

(** A segment of the split contains no delimiter, and only characters of
    the name. *)
Lemma split_segment s seg :
  seg ∈ Re.split split_by_alts s →
  delimiter_free seg ∧ ∀ c, c ∈ seg → c ∈ s.
Proof.
  intros Hseg. apply split_go_segments in Hseg as [Hf Hc].
  - split; [done|]. intros c [Hx|Hx]%Hc; [by apply elem_of_nil in Hx|done].
  - by left.
  - apply no_segment_yet.
Qed.

Lemma basename_no_sep p : "/" ∉ Path.basename p.
Proof.
  unfold Path.basename. rewrite elem_of_reverse.
  induction (reverse p) as [|c l IH]; simpl; [apply not_elem_of_nil|].
  unfold Path.is_sep at 1. case_bool_decide; simpl; [apply not_elem_of_nil|].
  by apply not_elem_of_cons.
Qed.

Lemma strip_dash_spec s :
  ∃ a b, s = a ++ strip_dash s ++ b ∧ undashed (strip_dash s).
Proof.
  destruct (strip_spec (Py.one_of (lit "-_")) s) as (a & b & Hs & Hh & Hl).
  by exists a, b.
Qed.

Lemma strip_dash_undashed s : undashed s → strip_dash s = s.
Proof. intros [Hh Hl]. by apply strip_clean. Qed.

Lemma strip_dash_snoc s c :
  undashed s → Py.one_of (lit "-_") c = true → strip_dash (s ++ [c]) = s.
Proof. intros [Hh Hl] Hc. by apply strip_clean_snoc. Qed.

(** The numbers the canonical constructor returns are within the limit of
    [int]. *)
Lemma ImageFile_init_bounded file_path r :
  ImageFile_init file_path = inr r → bounded_fields r.
Proof.
  intros (p0&p1&p2&p3&p4&p5&p6&p7&p8&p9&_&_&_&H2&H3&H4&H5&H6&H7&H8&_)
    %ImageFile_init_inr.
  assert (total_num_planes r < int_bound) as Htot.
  { destruct (Py.cut "_" (strip_dash p8)) as [[num info]|];
      destruct H8 as [H8%int_below_bound _]; lia. }
  apply int_below_bound in H2, H3, H4, H5, H6, H7.
  unfold bounded_fields. split_and!; lia.
Qed.

(** The fields the canonical constructor returns are canonical, when its
    numbers are natural. *)
Lemma ImageFile_init_canonical file_path r :
  ImageFile_init file_path = inr r → natural_fields r → canonical_fields r.
Proof.
  intros Hr Hnat. pose proof (ImageFile_init_bounded _ _ Hr) as Hbound.
  destruct (ImageFile_init_inr _ _ Hr)
    as (p0&p1&p2&p3&p4&p5&p6&p7&p8&p9&Hs&Hds&Hid&_&_&_&_&_&_&Hinfo&Hext&_).
  assert (∀ p, p ∈ [p0; p1; p2; p3; p4; p5; p6; p7; p8; p9] →
               delimiter_free p ∧ "/" ∉ p) as Hseg.
  { intros p Hp. rewrite <-Hs in Hp. apply split_segment in Hp as [Hf Hc].
    split; [done|]. intros Hsep%Hc. by apply basename_no_sep in Hsep. }
  assert (∀ p, delimiter_free p ∧ "/" ∉ p →
               delimiter_free (strip_dash p) ∧ undashed (strip_dash p)
               ∧ "/" ∉ strip_dash p) as Hstrip.
  { intros p [Hf Hc]. destruct (strip_dash_spec p) as (a & b & Hp & Hu).
    split_and!; [|done|].
    - rewrite Hp in Hf. by apply delimiter_free_infix in Hf.
    - intros Hx. apply Hc. rewrite Hp, !elem_of_app. auto. }
  split; [done|]. split; [|split; [|split; [|split; [|done]]]].
  - rewrite Hds. apply Hstrip, Hseg. by repeat constructor.
  - rewrite Hid. apply Hstrip, Hseg. by repeat constructor.
  - destruct (Hstrip p8) as (Hf & [_ Hl] & Hc);
      [apply Hseg; by repeat constructor|].
    destruct (Py.cut "_" (strip_dash p8)) as [[num info]|] eqn:Hcut.
    + destruct Hinfo as [_ ->]. apply cut_Some in Hcut as [Hcut _].
      rewrite Hcut in Hf, Hl, Hc. split_and!.
      * apply (delimiter_free_infix (num ++ ["_"]) info []).
        by rewrite (right_id_L [] (++)), <-(assoc_L (++)).
      * intros c Hc'. apply Hl. by rewrite last_app, last_cons, Hc'.
      * intros Hx. apply Hc. rewrite elem_of_app, elem_of_cons. auto.
    + destruct Hinfo as [_ ->].
      split_and!; [apply delimiter_free_nil|done|apply not_elem_of_nil].
  - rewrite Hext. apply Hseg. by repeat constructor.
Qed.

(** ** The segments of an encoded name *)

Lemma first_alt_nonstarter c t :
  c ∉ lit "tSTICPo." → Re.first_alt split_by_alts (c :: t) = None.
Proof.
  intros Hc. unfold lit in Hc. simpl in Hc.
  rewrite !not_elem_of_cons in Hc. destruct_and!.
  unfold split_by_alts, lit. simpl.
  by rewrite !bool_decide_false by done.
Qed.

Lemma digit_nonstarter c : Py.is_digit c = true → c ∉ lit "tSTICPo.".
Proof.
  intros Hc%is_digit_cases. unfold lit in Hc; simpl in Hc.
  repeat (apply elem_of_cons in Hc as [->|Hc];
          [apply (bool_decide_unpack _); by vm_compute|]).
  by apply elem_of_nil in Hc.
Qed.

Lemma digit_not_sep c : Py.is_digit c = true → c ≠ "/".
Proof.
  intros Hc%is_digit_cases ->. unfold lit in Hc; simpl in Hc.
  by repeat (apply elem_of_cons in Hc as [?|Hc]; [done|]); apply elem_of_nil in Hc.
Qed.

Lemma quiet_nil t : quiet [] t.
Proof. intros a b E Hb. symmetry in E. by apply app_eq_nil in E as [_ ->]. Qed.

Lemma quiet_app x y t : quiet x (y ++ t) → quiet y t → quiet (x ++ y) t.
Proof.
  intros Hx Hy a b E Hb.
  apply app_eq_inv in E as [(k & -> & ->)|(k & -> & ->)].
  - destruct k as [|c k].
    + simpl. by apply (Hy [] y).
    + rewrite <-(assoc_L (++)). by apply (Hx a (c :: k)).
  - by apply (Hy k b).
Qed.

Lemma quiet_nonstarters x t : Forall (λ c, c ∉ lit "tSTICPo.") x → quiet x t.
Proof.
  intros Hx a b -> Hb. destruct b as [|c b]; [done|].
  apply Forall_app in Hx as [_ Hx]. inversion Hx; subst.
  by apply first_alt_nonstarter.
Qed.

Lemma quiet_digits x t : Forall (λ c, Py.is_digit c = true) x → quiet x t.
Proof.
  intros Hx. apply quiet_nonstarters.
  eapply Forall_impl; [done|]. apply digit_nonstarter.
Qed.

Lemma quiet_underscore t : quiet ["_"] t.
Proof.
  apply quiet_nonstarters. repeat constructor.
  apply (bool_decide_unpack _). by vm_compute.
Qed.

Lemma quiet_dash t : quiet ["-"] t.
Proof.
  apply quiet_nonstarters. repeat constructor.
  apply (bool_decide_unpack _). by vm_compute.
Qed.

(** Delimiter-free text followed by an underscore or a dot. *)
Lemma quiet_free x c t :
  delimiter_free x → Forall (λ alt : list ascii, c ∉ tail alt) split_by_alts →
  quiet x (c :: t).
Proof.
  intros Hx Hc a b -> Hb. rewrite first_alt_blocked by done. by apply (Hx a).
Qed.

Lemma quiet_free_end x : delimiter_free x → quiet x [].
Proof. intros Hx a b -> Hb. rewrite (right_id_L [] (++)). by apply (Hx a). Qed.

Lemma quiet_free_underscore x t : delimiter_free x → quiet (x ++ ["_"]) t.
Proof.
  intros Hx. apply quiet_app; [|apply quiet_underscore].
  apply quiet_free; [done|apply underscore_blocks].
Qed.

Lemma quiet_digits_then x sep t :
  Forall (λ c, Py.is_digit c = true) x → quiet sep t → quiet (x ++ sep) t.
Proof. intros Hx Hsep. apply quiet_app; [by apply quiet_digits|done]. Qed.

(** A quiet stretch and the delimiter after it make one segment. *)
Lemma split_go_step x d t cur :
  quiet x (d ++ t) → d ≠ [] →
  Re.first_alt split_by_alts (d ++ t) = Some (length d) →
  Re.split_go split_by_alts (x ++ d ++ t) 0 cur =
    (reverse cur ++ x) :: Re.split_go split_by_alts t 0 [].
Proof.
  intros Hx Hd Hm. rewrite split_go_quiet by done.
  rewrite split_go_delimiter by done.
  by rewrite reverse_app, reverse_involutive.
Qed.

Lemma split_go_end x cur :
  quiet x [] → Re.split_go split_by_alts x 0 cur = [reverse cur ++ x].
Proof.
  intros Hx. rewrite <-(right_id_L [] (++) x) at 1.
  rewrite split_go_quiet by done. simpl.
  by rewrite reverse_app, reverse_involutive.
Qed.

(** The eight segments up to the last delimiter before the number of
    planes, in a name of the canonical layout: [pre] stands for the data set
    name with its underscore and [sp], [tp], ... for the numbers as written;
    [rest] is split on its own. *)
Lemma split_layout pre id sp tp il ca ch pl rest :
  (∀ t, quiet pre t) → delimiter_free id →
  Forall (λ c, Py.is_digit c = true) sp →
  Forall (λ c, Py.is_digit c = true) tp →
  Forall (λ c, Py.is_digit c = true) il →
  Forall (λ c, Py.is_digit c = true) ca →
  Forall (λ c, Py.is_digit c = true) ch →
  Forall (λ c, Py.is_digit c = true) pl →
  Re.split split_by_alts
    (pre ++ lit "timelapseID-" ++ (id ++ ["_"]) ++ lit "SPC-"
     ++ (sp ++ ["_"]) ++ lit "TP-" ++ (tp ++ ["_"]) ++ lit "ILL-"
     ++ (il ++ ["_"]) ++ lit "CAM-" ++ (ca ++ ["_"]) ++ lit "CH-"
     ++ (ch ++ ["_"]) ++ lit "PL-" ++ (pl ++ ["-"]) ++ lit "outOf-" ++ rest)
  = [pre; id ++ ["_"]; sp ++ ["_"]; tp ++ ["_"]; il ++ ["_"]; ca ++ ["_"];
     ch ++ ["_"]; pl ++ ["-"]] ++ Re.split split_by_alts rest.
Proof.
  intros Hpre Hid Hsp Htp Hil Hca Hch Hpl. unfold Re.split.
  rewrite split_go_step; [|done|done|reflexivity]. f_equal.
  rewrite split_go_step;
    [|by apply quiet_free_underscore|done|reflexivity]. f_equal.
  do 5 (rewrite split_go_step;
    [|by apply quiet_digits_then, quiet_underscore|done|reflexivity]; f_equal).
  rewrite split_go_step;
    [|by apply quiet_digits_then, quiet_dash|done|reflexivity]. done.
Qed.

(** With the number of planes and the additional information, [tail],
    that makes the nine segments before the extension. *)
Lemma split_stem pre id sp tp il ca ch pl tail :
  (∀ t, quiet pre t) → delimiter_free id →
  Forall (λ c, Py.is_digit c = true) sp →
  Forall (λ c, Py.is_digit c = true) tp →
  Forall (λ c, Py.is_digit c = true) il →
  Forall (λ c, Py.is_digit c = true) ca →
  Forall (λ c, Py.is_digit c = true) ch →
  Forall (λ c, Py.is_digit c = true) pl →
  quiet tail [] →
  Re.split split_by_alts
    (pre ++ lit "timelapseID-" ++ (id ++ ["_"]) ++ lit "SPC-"
     ++ (sp ++ ["_"]) ++ lit "TP-" ++ (tp ++ ["_"]) ++ lit "ILL-"
     ++ (il ++ ["_"]) ++ lit "CAM-" ++ (ca ++ ["_"]) ++ lit "CH-"
     ++ (ch ++ ["_"]) ++ lit "PL-" ++ (pl ++ ["-"]) ++ lit "outOf-" ++ tail)
  = [pre; id ++ ["_"]; sp ++ ["_"]; tp ++ ["_"]; il ++ ["_"]; ca ++ ["_"];
     ch ++ ["_"]; pl ++ ["-"]; tail].
Proof.
  intros Hpre Hid Hsp Htp Hil Hca Hch Hpl Htail.
  rewrite split_layout by done. unfold Re.split.
  by rewrite split_go_end by done.
Qed.

(** ** Decoding an encoded name *)

(** [get_name], segment by segment. *)
Lemma get_name_layout r :
  get_name r =
    (match dataset_name r with [] => [] | name => name ++ lit "_" end
     ++ lit "timelapseID-" ++ (timelapse_id r ++ ["_"]) ++ lit "SPC-"
     ++ (Py.format0 4 (specimen r) ++ ["_"]) ++ lit "TP-"
     ++ (Py.format0 4 (time_point r) ++ ["_"]) ++ lit "ILL-"
     ++ (Py.str_int (illumination r) ++ ["_"]) ++ lit "CAM-"
     ++ (Py.str_int (camera r) ++ ["_"]) ++ lit "CH-"
     ++ (Py.format0 2 (channel r) ++ ["_"]) ++ lit "PL-"
     ++ (Py.format0 4 (plane r) ++ ["-"]) ++ lit "outOf-"
     ++ (Py.format0 4 (total_num_planes r)
         ++ match additional_info r with [] => [] | info => lit "_" ++ info end))
    ++ "." :: extension r.
Proof. unfold get_name. rewrite <-!(assoc_L (++)). reflexivity. Qed.

Lemma digits_undashed x :
  Forall (λ c, Py.is_digit c = true) x → undashed x.
Proof.
  intros Hx. split; intros c Hc; apply digit_not_dash.
  - destruct x as [|y x]; simplify_eq/=. by inversion Hx.
  - apply last_Some in Hc as [l' ->]. apply Forall_app in Hx as [_ Hx].
    by inversion Hx.
Qed.

(** A number as written, with the separator after it, reads back. *)
Lemma int_strip_digits x sep n :
  Forall (λ c, Py.is_digit c = true) x → Py.int x = Some n →
  Py.one_of (lit "-_") sep = true →
  Py.int (strip_dash (x ++ [sep])) = Some n.
Proof.
  intros Hx Hn Hsep. by rewrite strip_dash_snoc by auto using digits_undashed.
Qed.

Lemma dirname_bare (n : list ascii) : "/" ∉ n → Path.dirname n = [].
Proof.
  intros Hn. unfold Path.dirname. rewrite lstrip_Forall; [done|].
  apply Forall_reverse. by apply no_sep_Forall.
Qed.

Lemma digits_no_sep x : Forall (λ c, Py.is_digit c = true) x → "/" ∉ x.
Proof.
  intros Hx Hsep. eapply Forall_forall in Hx; [|done]. by apply digit_not_sep in Hx.
Qed.

(** A name made of fields without a slash has none. *)
Lemma get_name_no_sep r :
  natural_fields r →
  "/" ∉ dataset_name r → "/" ∉ timelapse_id r →
  "/" ∉ additional_info r → "/" ∉ extension r →
  "/" ∉ get_name r.
Proof.
  intros (?&?&?&?&?&?&?) Hds Hid Hinfo Hext.
  unfold get_name. rewrite !not_elem_of_app.
  assert (∀ l : string, bool_decide ("/" ∉ lit l) = true → "/" ∉ lit l) as Hlit
    by (intros l; apply bool_decide_eq_true_1).
  split_and!;
    try (apply Hlit; by vm_compute);
    try (by apply digits_no_sep; auto using format0_Forall, str_int_Forall);
    try done.
  - destruct (dataset_name r); [apply not_elem_of_nil|].
    rewrite not_elem_of_app. split; [done|]. apply Hlit. by vm_compute.
  - destruct (additional_info r); [apply not_elem_of_nil|].
    rewrite not_elem_of_app. split; [|done]. apply Hlit. by vm_compute.
Qed.

(** The name of an instance with canonical fields names no folder. *)
Lemma get_name_bare r : canonical_fields r → "/" ∉ get_name r.
Proof.
  intros (Hnat & (_&_&Hds) & (_&_&Hid) & (_&_&Hinfo) & (_&Hext) & _).
  by apply get_name_no_sep.
Qed.

(** Encode, then decode: an instance with canonical fields is what the
    canonical constructor returns on its own name. *)
Lemma ImageFile_init_get_name r :
  canonical_fields r →
  ImageFile_init (get_name r) = inr (set_path_to_image_dir [] r).
Proof.
  intros Hr. pose proof (get_name_bare r Hr) as Hbare.
  destruct Hr as ((Hsp&Htp&Hil&Hca&Hch&Hpl&Htot) & (Hds&Hdsu&_) & (Hid&Hidu&_)
                  & (Hinfo&Hinfol&_) & (Hext&_)
                  & (Hsp'&Htp'&Hil'&Hca'&Hch'&Hpl'&Htot')).
  assert (∀ w n, (w ≤ 4)%nat → 0 ≤ n → n < int_bound →
                 Py.int (Py.format0 w n) = Some n) as Hformat.
  { intros w n Hw Hn Hn'. apply int_format0; [|done].
    unfold Py.int_max_str_digits. lia. }
  assert (∀ n, 0 ≤ n → n < int_bound → Py.int (Py.str_int n) = Some n)
    as Hstr by (intros n Hn Hn'; by apply int_str_int).
  set (pre := match dataset_name r with [] => [] | name => name ++ lit "_" end).
  set (tail := Py.format0 4 (total_num_planes r)
         ++ match additional_info r with [] => [] | info => lit "_" ++ info end).
  assert (∀ t, quiet pre t) as Hpre.
  { intros t. unfold pre. destruct (dataset_name r) as [|c ds] eqn:E;
      [apply quiet_nil|by apply quiet_free_underscore]. }
  assert (strip_dash pre = dataset_name r) as Hpre_strip.
  { unfold pre. destruct (dataset_name r) as [|c ds] eqn:E; [done|].
    by apply strip_dash_snoc. }
  assert (quiet tail [] ∧ strip_dash tail = tail ∧
          Py.cut "_" tail =
            match additional_info r with
            | [] => None
            | info => Some (Py.format0 4 (total_num_planes r), info)
            end) as (Htail & Htail_strip & Htail_cut).
  { pose proof (format0_Forall 4 _ Htot) as Hd.
    pose proof (format0_nonempty 4 (total_num_planes r)) as Hne.
    unfold tail. destruct (additional_info r) as [|c info] eqn:E.
    - rewrite (right_id_L [] (++)). split_and!.
      + by apply quiet_digits.
      + by apply strip_dash_undashed, digits_undashed.
      + apply cut_None. intros Hx. eapply Forall_forall in Hd; [|done]. done.
    - split_and!.
      + apply quiet_digits_then; [done|]. apply (quiet_app ["_"]).
        * apply quiet_underscore.
        * by apply quiet_free_end.
      + apply strip_dash_undashed. split; intros x Hx.
        * apply digit_not_dash.
          destruct (Py.format0 4 (total_num_planes r)) as [|y l]; [done|].
          simplify_eq/=. by inversion Hd.
        * apply Hinfol. revert Hx.
          rewrite last_app. change (lit "_" ++ c :: info) with ("_" :: c :: info).
          rewrite !last_cons. by destruct (last info).
      + apply cut_Some. split; [done|].
        intros Hx. eapply Forall_forall in Hd; [|done]. done. }
  assert (Re.split split_by_alts (get_name r) =
            [pre; timelapse_id r ++ ["_"];
             Py.format0 4 (specimen r) ++ ["_"];
             Py.format0 4 (time_point r) ++ ["_"];
             Py.str_int (illumination r) ++ ["_"];
             Py.str_int (camera r) ++ ["_"];
             Py.format0 2 (channel r) ++ ["_"];
             Py.format0 4 (plane r) ++ ["-"]; tail; extension r]) as Hsplit.
  { rewrite get_name_layout, split_dot. fold pre tail.
    rewrite split_stem by auto using format0_Forall, str_int_Forall.
    unfold Re.split. by rewrite split_go_end by by apply quiet_free_end. }
  rewrite (ImageFile_init_intro (get_name r)
             pre (timelapse_id r ++ ["_"])
             (Py.format0 4 (specimen r) ++ ["_"])
             (Py.format0 4 (time_point r) ++ ["_"])
             (Py.str_int (illumination r) ++ ["_"])
             (Py.str_int (camera r) ++ ["_"])
             (Py.format0 2 (channel r) ++ ["_"])
             (Py.format0 4 (plane r) ++ ["-"]) tail (extension r)
             (specimen r) (time_point r) (illumination r) (camera r)
             (channel r) (plane r) (total_num_planes r)).
  - rewrite dirname_bare by done. rewrite Hpre_strip, Htail_strip, Htail_cut.
    rewrite strip_dash_snoc by done.
    destruct r as [????????? info ??]; cbn in *. f_equal.
    by destruct info.
  - by rewrite basename_bare.
  - apply int_strip_digits; auto using format0_Forall.
  - apply int_strip_digits; auto using format0_Forall.
  - apply int_strip_digits; auto using str_int_Forall.
  - apply int_strip_digits; auto using str_int_Forall.
  - apply int_strip_digits; auto using format0_Forall.
  - apply int_strip_digits; auto using format0_Forall.
  - rewrite Htail_strip, Htail_cut.
    destruct (additional_info r).
    + unfold tail in Htail_strip. rewrite (right_id_L [] (++)) in Htail_strip.
      unfold tail. rewrite (right_id_L [] (++)), Htail_strip.
      by apply Hformat.
    + rewrite strip_dash_undashed
        by auto using digits_undashed, format0_Forall.
      by apply Hformat.
Qed.

(** The constructor looks at a path through its base name and its folder
    only. *)
Lemma ImageFile_init_same_name p q r :
  ImageFile_init p = inr r → Path.basename q = Path.basename p →
  ImageFile_init q = inr (set_path_to_image_dir (Path.dirname q) r).
Proof.
  intros (p0&p1&p2&p3&p4&p5&p6&p7&p8&p9&Hs&Hds&Hid&H2&H3&H4&H5&H6&H7&H8&Hext&_)
    %ImageFile_init_inr Hq.
  rewrite <-Hq in Hs.
  rewrite (ImageFile_init_intro q _ _ _ _ _ _ _ _ _ _ _ _ _ _ _ _
             (total_num_planes r) Hs H2 H3 H4 H5 H6 H7).
  - destruct r. cbn in *. subst. f_equal.
    destruct (Py.cut "_" (strip_dash p8)) as [[??]|]; by destruct H8 as [_ ->].
  - by destruct (Py.cut "_" (strip_dash p8)) as [[??]|]; destruct H8.
Qed.

(** C1, as the code has it. Round trip of the canonical codec: take any
    name the canonical constructor decodes with natural numbers in its
    numeric fields. Its instance, encoded by [get_name] and decoded again,
    is the same instance (the same field values; only the folder, which is
    no part of a name, is empty): the encoded name and the base name first
    read are decoded alike, and the encoded name is reproduced byte for byte
    by one more round. The encoded name is the base name first read, byte
    for byte, exactly when that base name is itself the encoding of an
    instance decoded with natural numbers. The extension is no source of a
    difference: both names have the same last segment. *)
Theorem canonical_round_trip (file_path : str) (r : ImageFile) :
  ImageFile_init file_path = inr r →
  natural_fields r →
  ImageFile_init (get_name r) = inr (set_path_to_image_dir [] r) ∧
  ImageFile_init (get_name r) = ImageFile_init (Path.basename file_path) ∧
  (∀ r', ImageFile_init (get_name r) = inr r' → get_name r' = get_name r) ∧
  (get_name r = Path.basename file_path ↔
   ∃ file_path0 r0,
     ImageFile_init file_path0 = inr r0 ∧ natural_fields r0 ∧
     Path.basename file_path = get_name r0) ∧
  last (Re.split split_by_alts (get_name r)) =
    last (Re.split split_by_alts (Path.basename file_path)).
Proof.
  intros Hr Hnat.
  pose proof (ImageFile_init_canonical _ _ Hr Hnat) as Hcan.
  assert (ImageFile_init (get_name r) = inr (set_path_to_image_dir [] r)) as Hrt
    by by apply ImageFile_init_get_name.
  split_and!.
  - done.
  - rewrite Hrt. symmetry.
    rewrite (ImageFile_init_same_name file_path (Path.basename file_path) r Hr)
      by by apply basename_bare, basename_no_sep.
    by rewrite dirname_bare by apply basename_no_sep.
  - intros r' Hr'. rewrite Hrt in Hr'. by simplify_eq.
  - split; [intros Hname; by exists file_path, r|].
    intros (file_path0 & r0 & Hr0 & Hnat0 & Hname).
    pose proof (ImageFile_init_canonical _ _ Hr0 Hnat0) as Hcan0.
    pose proof (ImageFile_init_get_name r0 Hcan0) as Hrt0.
    rewrite (ImageFile_init_same_name (get_name r0) file_path _ Hrt0) in Hr.
    + simplify_eq. by rewrite Hname.
    + rewrite Hname. symmetry. by apply basename_bare, get_name_bare.
  - apply ImageFile_init_inr in Hr, Hrt.
    destruct Hr as (?&?&?&?&?&?&?&?&?&p9&->&Hr).
    destruct Hrt as (?&?&?&?&?&?&?&?&?&q9&Hs&Hrt).
    rewrite basename_bare in Hs by by apply get_name_bare.
    rewrite Hs. cbn [last]. f_equal.
    assert (extension r = p9) as <- by apply Hr.
    assert (extension (set_path_to_image_dir [] r) = q9) as <- by apply Hrt.
    done.
Qed.

Lemma canonical_round_trip_witness :
  ∃ r,
    ImageFile_init
      (lit "in/ds_timelapseID-x_SPC-1_TP-0002_ILL-0_CAM-1_CH-1_PL-03-outOf-150_blaBla.TIF")
    = inr r ∧
    natural_fields r ∧
    get_name r =
      lit "ds_timelapseID-x_SPC-0001_TP-0002_ILL-0_CAM-1_CH-01_PL-0003-outOf-0150_blaBla.TIF" ∧
    ImageFile_init (get_name r) = inr (set_path_to_image_dir [] r).
Proof.
  eexists. split; [vm_compute; reflexivity|].
  assert (natural_fields
            {| dataset_name := lit "ds"; timelapse_id := lit "x";
               time_point := 2; specimen := 1; illumination := 0;
               camera := 1; channel := 1; plane := 3;
               total_num_planes := 150; additional_info := lit "blaBla";
               extension := lit "TIF"; path_to_image_dir := lit "in" |})
    as Hnat by (unfold natural_fields; simpl; lia).
  split; [exact Hnat|]. split; [by vm_compute|].
  refine (proj1 (canonical_round_trip
    (lit "in/ds_timelapseID-x_SPC-1_TP-0002_ILL-0_CAM-1_CH-1_PL-03-outOf-150_blaBla.TIF")
    _ _ Hnat)).
  by vm_compute.
Defined.

(** C1, as the specification has it, fails. A name [get_name] wrote, so one
    with the padding of the encoder and a lower-case extension, whose
    additional information ends with a dash, is decoded without the dash and
    encoded to a different name; and so is a name with a second underscore
    after its data set name. *)
Lemma stripped_separator_counterexample :
  let r0 := {| dataset_name := []; timelapse_id := lit "x";
               time_point := 2; specimen := 1; illumination := 0;
               camera := 0; channel := 1; plane := 3;
               total_num_planes := 150; additional_info := lit "a-";
               extension := lit "tif"; path_to_image_dir := [] |} in
  let file_name :=
    lit "timelapseID-x_SPC-0001_TP-0002_ILL-0_CAM-0_CH-01_PL-0003-outOf-0150_a-.tif" in
  get_name r0 = file_name ∧
  (∃ r, ImageFile_init file_name = inr r ∧ natural_fields r ∧
        additional_info r = lit "a" ∧
        get_name r =
          lit "timelapseID-x_SPC-0001_TP-0002_ILL-0_CAM-0_CH-01_PL-0003-outOf-0150_a.tif" ∧
        get_name r ≠ file_name) ∧
  (∃ r, ImageFile_init
          (lit "ds__timelapseID-x_SPC-0001_TP-0002_ILL-0_CAM-0_CH-01_PL-0003-outOf-0150.tif")
        = inr r ∧ natural_fields r ∧
        get_name r =
          lit "ds_timelapseID-x_SPC-0001_TP-0002_ILL-0_CAM-0_CH-01_PL-0003-outOf-0150.tif").
Proof.
  intros r0 file_name. split_and!.
  - vm_compute. reflexivity.
  - eexists. split; [vm_compute; reflexivity|].
    split; [unfold natural_fields; simpl; lia|].
    split; [reflexivity|]. split; [vm_compute; reflexivity|].
    intros E. vm_compute in E. discriminate E.
  - eexists. split; [vm_compute; reflexivity|].
    split; [unfold natural_fields; simpl; lia|].
    vm_compute. reflexivity.
Qed.

(** Why the numbers have to be natural: [int] reads a sign after white
    space, the f-string writes it back without the space, and [strip] then
    takes it for a separator. *)
Remark negative_number_not_reproduced :
  ∃ r r',
    ImageFile_init
      (lit "timelapseID-x_SPC- -5_TP-1_ILL-0_CAM-0_CH-1_PL-1-outOf-1.tif")
    = inr r ∧ specimen r = -5 ∧
    ImageFile_init (get_name r) = inr r' ∧ specimen r' = 5.
Proof.
  do 2 eexists. split; [vm_compute; reflexivity|]. split; [reflexivity|].
  split; [vm_compute; reflexivity|reflexivity].
Qed.

(** ** A dot inside a free-form field *)

Lemma split_free x : delimiter_free x → Re.split split_by_alts x = [x].
Proof. intros Hx. unfold Re.split. by rewrite split_go_end by by apply quiet_free_end. Qed.

Lemma delimiter_free_no_dot x : delimiter_free x → "." ∉ x.
Proof.
  intros Hx (a & b & ->)%list_elem_of_split.
  by pose proof (Hx a ("." :: b) eq_refl).
Qed.

Lemma delimiter_free_app_l x y : delimiter_free (x ++ y) → delimiter_free x.
Proof.
  intros H. apply (delimiter_free_infix [] x y). by rewrite (left_id_L [] (++)).
Qed.

Lemma delimiter_free_app_r x y : delimiter_free (x ++ y) → delimiter_free y.
Proof.
  intros H. apply (delimiter_free_infix x y []). by rewrite (right_id_L [] (++)).
Qed.

(** The eleven segments of a name whose data set name has a dot. *)
Lemma split_dotted_dataset_name r x y :
  canonical_fields r → dataset_name r = x ++ y →
  length (Re.split split_by_alts
            (get_name (set_dataset_name (x ++ "." :: y) r))) = 11%nat.
Proof.
  intros ((Hsp&Htp&Hil&Hca&Hch&Hpl&Htot) & (Hds&_) & (Hid&_)
          & (Hinfo&_) & (Hext&_) & _) Hxy.
  rewrite Hxy in Hds.
  rewrite get_name_layout. destruct r as [ds id tp sp il ca ch pl tot info ext dir].
  cbn [set_dataset_name dataset_name timelapse_id time_point specimen
       illumination camera channel plane total_num_planes additional_info
       extension] in *.
  match goal with
  | |- context [Py.format0 4 tot ++ ?rest] => set (tail := Py.format0 4 tot ++ rest)
  end.
  assert (quiet tail []) as Htail.
  { unfold tail. apply quiet_digits_then; [by apply format0_Forall|].
    destruct info; [apply quiet_nil|].
    apply (quiet_app ["_"]); [apply quiet_underscore|by apply quiet_free_end]. }
  assert (match x ++ "." :: y with [] => [] | name => name ++ lit "_" end
          = x ++ "." :: (y ++ ["_"])) as ->.
  { destruct x; simpl; by rewrite <-?(assoc_L (++)). }
  rewrite split_dot, <-(assoc_L (++) x), <-app_comm_cons.
  rewrite split_dot, !length_app.
  rewrite (split_free x) by by apply delimiter_free_app_l in Hds.
  rewrite (split_free ext) by done.
  rewrite split_stem;
    [done| |by auto using format0_Forall, str_int_Forall..|exact Htail].
  intros t. apply quiet_free_underscore. by apply delimiter_free_app_r in Hds.
Qed.

(** The eleven segments of a name whose additional information has a
    dot. *)
Lemma split_dotted_additional_info r x y :
  canonical_fields r → additional_info r = x ++ y →
  length (Re.split split_by_alts
            (get_name (set_additional_info (x ++ "." :: y) r))) = 11%nat.
Proof.
  intros ((Hsp&Htp&Hil&Hca&Hch&Hpl&Htot) & (Hds&_) & (Hid&_)
          & (Hinfo&_) & (Hext&_) & _) Hxy.
  rewrite Hxy in Hinfo.
  rewrite get_name_layout. destruct r as [ds id tp sp il ca ch pl tot info ext dir].
  cbn [set_additional_info dataset_name timelapse_id time_point specimen
       illumination camera channel plane total_num_planes additional_info
       extension] in *.
  match goal with
  | |- context [?p ++ lit "timelapseID-" ++ _] => set (pre := p)
  end.
  assert (∀ t, quiet pre t) as Hpre.
  { intros t. unfold pre. destruct ds as [|c ds'];
      [apply quiet_nil|by apply quiet_free_underscore]. }
  assert (match x ++ "." :: y with [] => [] | info => lit "_" ++ info end
          = ("_" :: x) ++ "." :: y) as ->.
  { by destruct x. }
  rewrite split_dot.
  rewrite split_layout;
    [|exact Hpre|by auto using format0_Forall, str_int_Forall..].
  rewrite (assoc_L (++) (Py.format0 4 tot)), split_dot, !length_app.
  rewrite (split_free y) by by apply delimiter_free_app_r in Hinfo.
  rewrite (split_free ext) by done.
  unfold Re.split. rewrite split_go_end; [done|].
  apply quiet_digits_then; [by apply format0_Forall|].
  apply (quiet_app ["_"]); [apply quiet_underscore|].
  apply quiet_free_end. by apply delimiter_free_app_l in Hinfo.
Qed.

Lemma dotted_no_sep (x y : list ascii) : "/" ∉ x ++ y → "/" ∉ x ++ "." :: y.
Proof.
  rewrite !not_elem_of_app, not_elem_of_cons. intros [??]. by split_and!.
Qed.

(** C7, as the code has it. The dot of the pattern is every dot of the
    name, not the last one only: the segments of [a.b] are the segments of
    [a] followed by those of [b]. So a name the canonical constructor
    decodes (with natural numbers) stops being decoded when a dot is added
    inside its data set name or its additional information: the name then
    has 11 segments and the constructor raises [NotImagePlaneFile]. In a
    name that is decoded the extension is the last segment, and it has no
    dot. *)
Theorem every_dot_is_a_split_point :
  (∀ a b,
     Re.split split_by_alts (a ++ "." :: b) =
     Re.split split_by_alts a ++ Re.split split_by_alts b) ∧
  (∀ file_path r x y r',
     ImageFile_init file_path = inr r → natural_fields r →
     (dataset_name r = x ++ y ∧
      r' = set_dataset_name (x ++ "." :: y) r) ∨
     (additional_info r = x ++ y ∧
      r' = set_additional_info (x ++ "." :: y) r) →
     length (Re.split split_by_alts (get_name r')) = 11%nat ∧
     ImageFile_init (get_name r') =
       inl (NotImagePlaneFile
              (lit "Image file name is improperly formatted! Check documentation inside the script. Expected 10 parts after splitting by "
               ++ split_by))) ∧
  (∀ file_path r,
     ImageFile_init file_path = inr r →
     last (Re.split split_by_alts (Path.basename file_path))
       = Some (extension r) ∧
     "." ∉ extension r).
Proof.
  split_and!.
  - apply split_dot.
  - intros file_path r x y r' Hr Hnat Hdot.
    pose proof (ImageFile_init_canonical _ _ Hr Hnat) as Hcan.
    assert (length (Re.split split_by_alts (get_name r')) = 11%nat) as Hlen.
    { destruct Hdot as [[Hxy ->]|[Hxy ->]];
        [by apply split_dotted_dataset_name
        |by apply split_dotted_additional_info]. }
    split; [done|]. apply ImageFile_init_count.
    rewrite basename_bare; [rewrite Hlen; lia|].
    destruct Hcan as (_ & (_&_&Hds) & (_&_&Hid) & (_&_&Hinfo) & (_&Hext) & _).
    destruct Hdot as [[Hxy ->]|[Hxy ->]];
      (apply get_name_no_sep; [by destruct r|destruct r; cbn in *; subst..]);
      auto using dotted_no_sep.
  - intros file_path r Hr.
    pose proof Hr as (p0&p1&p2&p3&p4&p5&p6&p7&p8&p9&Hs&Hfields)%ImageFile_init_inr.
    assert (extension r = p9) as Hext by apply Hfields.
    rewrite Hs, Hext. split; [done|].
    apply delimiter_free_no_dot.
    apply (split_segment (Path.basename file_path)). rewrite Hs.
    by repeat constructor.
Qed.

Lemma every_dot_is_a_split_point_witness :
  ∃ r r',
    ImageFile_init
      (lit "in/mydata_timelapseID-x_SPC-0001_TP-0002_ILL-0_CAM-0_CH-01_PL-0003-outOf-0150.tif")
    = inr r ∧
    natural_fields r ∧
    get_name r' =
      lit "my.data_timelapseID-x_SPC-0001_TP-0002_ILL-0_CAM-0_CH-01_PL-0003-outOf-0150.tif" ∧
    length (Re.split split_by_alts (get_name r')) = 11%nat.
Proof.
  pose (r := {| dataset_name := lit "mydata"; timelapse_id := lit "x";
                time_point := 2; specimen := 1; illumination := 0;
                camera := 0; channel := 1; plane := 3;
                total_num_planes := 150; additional_info := [];
                extension := lit "tif"; path_to_image_dir := lit "in" |}).
  assert (natural_fields r) as Hnat by (unfold natural_fields; simpl; lia).
  exists r, (set_dataset_name (lit "my" ++ "." :: lit "data") r).
  assert (ImageFile_init
      (lit "in/mydata_timelapseID-x_SPC-0001_TP-0002_ILL-0_CAM-0_CH-01_PL-0003-outOf-0150.tif")
    = inr r) as Hr by (by vm_compute).
  split; [exact Hr|]. split; [exact Hnat|]. split; [by vm_compute|].
  refine (proj1 (proj1 (proj2 every_dot_is_a_split_point) _ r
                   (lit "my") (lit "data") _ Hr Hnat _)).
  left. split; reflexivity.
Defined.

(** C7, as the specification has it, fails: one more dot in the data set
    name of a name that decodes gives 11 segments, not 10, and the
    constructor raises. *)
Lemma last_dot_only_counterexample :
  (∃ r, ImageFile_init
          (lit "mydata_timelapseID-x_SPC-0001_TP-0002_ILL-0_CAM-0_CH-01_PL-0003-outOf-0150.tif")
        = inr r ∧ dataset_name r = lit "mydata" ∧ extension r = lit "tif") ∧
  length (Re.split split_by_alts
            (lit "my.data_timelapseID-x_SPC-0001_TP-0002_ILL-0_CAM-0_CH-01_PL-0003-outOf-0150.tif"))
    ≠ 10%nat ∧
  ∃ msg, ImageFile_init
           (lit "my.data_timelapseID-x_SPC-0001_TP-0002_ILL-0_CAM-0_CH-01_PL-0003-outOf-0150.tif")
         = inl (NotImagePlaneFile msg).
Proof.
  split_and!.
  - eexists. split; [vm_compute; reflexivity|]. split; reflexivity.
  - by vm_compute.
  - eexists. vm_compute. reflexivity.
Qed.

(** ** The reconcile scan *)

Section scan.
Context {world : Type} `{FileSystem world}.
Implicit Types (st : state world) (files names : list (list ascii)).

(** The first loop keeps the entries that are regular files and not yet
    in [processed_files], in the order of the listing. *)
Lemma collect_filter input_folder st names new_files :
  collect input_folder st names new_files =
    new_files ++
    filter (λ p, isfile p (fs st) = true ∧ p ∉ processed_files st)
      (Path.join input_folder <$> names).
Proof.
  revert new_files. induction names as [|n names IH]; intros new_files.
  - simpl. by rewrite app_nil_r.
  - cbn [collect fmap list_fmap]. rewrite filter_cons.
    destruct (decide (isfile (Path.join input_folder n) (fs st) = true
                      ∧ Path.join input_folder n ∉ processed_files st))
      as [[Hf Hp]|Hn].
    + rewrite Hf, bool_decide_true by done. simpl.
      by rewrite IH, <-(assoc_L (++)).
    + assert (isfile (Path.join input_folder n) (fs st)
              && bool_decide (Path.join input_folder n ∉ processed_files st)
              = false) as ->; [|apply IH].
      destruct (isfile _ _); simpl; [|done].
      apply bool_decide_false. intros ?. by apply Hn.
Qed.

(** The keys are the time stamps of the files, in their order. *)
Lemma keyed_inr st files l :
  keyed st files = inr l →
  l.*2 = files ∧ Forall (λ x, getmtime x.2 (fs st) = inr x.1) l.
Proof.
  revert l. induction files as [|f files IH]; intros l; cbn [keyed].
  - intros [= <-]. by split.
  - unfold mbind, exn_bind.
    destruct (getmtime f (fs st)) as [e|t] eqn:Ht; [done|].
    destruct (keyed st files) as [e|l']; [done|].
    intros [= <-]. destruct (IH l' eq_refl) as [<- Hl].
    split; [done|]. by constructor.
Qed.

Lemma keyed_is_inr st files :
  Forall (λ f, ∃ t, getmtime f (fs st) = inr t) files →
  ∃ l, keyed st files = inr l.
Proof.
  induction 1 as [|f files [t Ht] _ [l Hl]]; cbn [keyed]; [by eexists|].
  unfold mbind, exn_bind. rewrite Ht, Hl. by eexists.
Qed.

Lemma insert_keyed_Permutation x l : insert_keyed x l ≡ₚ x :: l.
Proof.
  induction l as [|y l IH]; simpl; [done|].
  destruct (x.1 <=? y.1); [done|]. rewrite IH. apply Permutation_swap.
Qed.

Lemma sort_keyed_Permutation l : sort_keyed l ≡ₚ l.
Proof.
  induction l as [|x l IH]; simpl; [done|].
  by rewrite insert_keyed_Permutation, IH.
Qed.

Lemma insert_keyed_sorted x l :
  StronglySorted (λ a b, a.1 ≤ b.1) l →
  StronglySorted (λ a b, a.1 ≤ b.1) (insert_keyed x l).
Proof.
  induction 1 as [|y l Hl IH Hy]; simpl; [by repeat constructor|].
  destruct (Z.leb_spec x.1 y.1) as [Hle|Hgt].
  - constructor; [by constructor|]. constructor; [done|].
    eapply Forall_impl; [done|]. simpl. lia.
  - constructor; [done|]. rewrite insert_keyed_Permutation.
    constructor; [lia|done].
Qed.

Lemma sort_keyed_sorted l : StronglySorted (λ a b, a.1 ≤ b.1) (sort_keyed l).
Proof.
  induction l as [|x l IH]; simpl; [constructor|by apply insert_keyed_sorted].
Qed.

(** The second loop runs to its end: one round per file, in order. *)
Lemma scan_loop_foldl output_folder files st :
  scan_loop output_folder files st =
    (inr (), foldl (scan_round output_folder) st files).
Proof.
  revert st. induction files as [|f files IH]; intros st; [done|].
  cbn [scan_loop foldl]. unfold mbind, M_bind, scan_round.
  destruct (process_returns ReconcileTrigger output_folder f st)
    as (w & out & ->).
  simpl. apply IH.
Qed.

Lemma scan_round_history output_folder st f :
  history (scan_round output_folder st f) = history st ++ [(ReconcileTrigger, f)].
Proof.
  unfold scan_round.
  by destruct (process_returns ReconcileTrigger output_folder f st)
    as (w & out & ->).
Qed.

Lemma scan_round_processed output_folder st f :
  processed_files (scan_round output_folder st f) = {[ f ]} ∪ processed_files st.
Proof.
  unfold scan_round.
  by destruct (process_returns ReconcileTrigger output_folder f st)
    as (w & out & ->).
Qed.

Lemma scan_rounds_history output_folder files st :
  history (foldl (scan_round output_folder) st files) =
    history st ++ ((λ f, (ReconcileTrigger, f)) <$> files).
Proof.
  revert st. induction files as [|f files IH]; intros st; simpl.
  - by rewrite (right_id_L [] (++)).
  - by rewrite IH, scan_round_history, <-(assoc_L (++)).
Qed.

Lemma scan_rounds_processed output_folder files st :
  processed_files (foldl (scan_round output_folder) st files) =
    list_to_set files ∪ processed_files st.
Proof.
  revert st. induction files as [|f files IH]; intros st; simpl.
  - by rewrite (left_id_L ∅ (∪)).
  - rewrite IH, scan_round_processed, !(assoc_L (∪)).
    f_equal. apply (comm_L (∪)).
Qed.

End scan.

Lemma StronglySorted_fmap {A B} (R : relation A) (R' : relation B)
    (Q : A → Prop) (f : A → B) (l : list A) :
  (∀ x y, Q x → Q y → R x y → R' (f x) (f y)) →
  Forall Q l → StronglySorted R l → StronglySorted R' (f <$> l).
Proof.
  intros HR HQ Hl. induction Hl as [|x l Hl IH Hx]; simpl; [constructor|].
  apply Forall_cons in HQ as [Hqx HQ]. constructor; [by apply IH|].
  apply Forall_fmap, Forall_forall. intros y Hy. simpl.
  apply HR; [done| |].
  - by eapply Forall_forall in HQ.
  - by eapply Forall_forall in Hx.
Qed.

(** C6. One tick of the reconcile scan, when the folder can be listed and
    its new files have a time stamp: the files it works on are exactly the
    regular files of the listing that are not in [processed_files], oldest
    first; for each of them, in that order, it calls [process] and, once
    the call has returned (whatever the call did), adds the path to
    [processed_files]. *)
Theorem reconcile_tick {world : Type} `{FileSystem world}
    (input_folder output_folder : str) (st : state world) (names : list str) :
  listdir input_folder (fs st) = inr names →
  (∀ p, p ∈ Path.join input_folder <$> names →
        isfile p (fs st) = true → ∃ t, getmtime p (fs st) = inr t) →
  ∃ files,
    files ≡ₚ filter (λ p, isfile p (fs st) = true ∧ p ∉ processed_files st)
               (Path.join input_folder <$> names) ∧
    StronglySorted
      (λ a b, ∃ ta tb, getmtime a (fs st) = inr ta ∧
                       getmtime b (fs st) = inr tb ∧ ta ≤ tb) files ∧
    scan_directory input_folder output_folder st =
      (inr (), foldl (scan_round output_folder) st files) ∧
    (∀ st' f, scan_round output_folder st' f =
              (add_processed f
                 (process ReconcileTrigger output_folder f st').2).2) ∧
    history (foldl (scan_round output_folder) st files) =
      history st ++ ((λ f, (ReconcileTrigger, f)) <$> files) ∧
    processed_files (foldl (scan_round output_folder) st files) =
      list_to_set files ∪ processed_files st.
Proof.
  intros Hlist Htime. unfold scan_directory. rewrite Hlist.
  rewrite collect_filter. simpl.
  set (new_files := filter _ _).
  destruct (keyed_is_inr st new_files) as [l Hl].
  { apply Forall_forall. intros p [[Hf _] Hp]%list_elem_of_filter. by apply Htime. }
  rewrite Hl. apply keyed_inr in Hl as [Hfiles Hkeys].
  exists ((sort_keyed l).*2). split_and!.
  - by rewrite sort_keyed_Permutation, Hfiles.
  - eapply (StronglySorted_fmap _ _
             (λ x, getmtime x.2 (fs st) = inr x.1)); [| |apply sort_keyed_sorted].
    + intros x y Hx Hy Hxy. by exists x.1, y.1.
    + by rewrite sort_keyed_Permutation.
  - apply scan_loop_foldl.
  - done.
  - apply scan_rounds_history.
  - apply scan_rounds_processed.
Qed.

Lemma reconcile_tick_witness :
  ∃ files,
    files ≡ₚ
      [lit "in/randomfile.tif"; lit "in/b.tif";
       lit "in/_channel01_position0002_time0003_view0_z0004.tif"] ∧
    scan_directory (lit "in") (lit "out")
      (monitor_init
         (Disk.watched
            [("b.tif"%string, 7); ("randomfile.tif"%string, 3);
             ("_channel01_position0002_time0003_view0_z0004.tif"%string, 5)]))
    = (inr (),
       foldl (scan_round (lit "out"))
         (monitor_init
            (Disk.watched
               [("b.tif"%string, 7); ("randomfile.tif"%string, 3);
                ("_channel01_position0002_time0003_view0_z0004.tif"%string, 5)]))
         files).
Proof.
  set (st := monitor_init _).
  assert (listdir (lit "in") (fs st) =
            inr [lit "randomfile.tif"; lit "b.tif";
                 lit "_channel01_position0002_time0003_view0_z0004.tif"])
    as Hlist by (by vm_compute).
  destruct (reconcile_tick (lit "in") (lit "out") st _ Hlist)
    as (files & Hperm & _ & Hscan & _).
  { intros p Hp _.
    repeat (apply elem_of_cons in Hp as [->|Hp];
            [eexists; vm_compute; reflexivity|]).
    apply elem_of_nil in Hp. destruct Hp. }
  exists files. split; [|exact Hscan].
  rewrite Hperm. apply (bool_decide_unpack _). by vm_compute.
Defined.

(** ** The two triggers *)

Section triggers.
Context {world : Type} `{FileSystem world}.
Implicit Types (st : state world) (files names : list (list ascii)).
Implicit Types (who : trigger).

(** A scan either raises before it has changed anything or runs its
    rounds over the new files, oldest first. *)
Lemma scan_directory_cases input_folder output_folder st :
  (∃ e, scan_directory input_folder output_folder st = (inl e, st)) ∨
  (∃ names l,
     listdir input_folder (fs st) = inr names ∧
     l.*2 = filter (λ p, isfile p (fs st) = true ∧ p ∉ processed_files st)
              (Path.join input_folder <$> names) ∧
     scan_directory input_folder output_folder st =
       (inr (), foldl (scan_round output_folder) st (sort_keyed l).*2)).
Proof.
  unfold scan_directory.
  destruct (listdir input_folder (fs st)) as [e|names] eqn:Hlist;
    [left; by eexists|].
  rewrite collect_filter. simpl.
  destruct (keyed st _) as [e|l] eqn:Hl; [left; by eexists|].
  right. exists names, l. apply keyed_inr in Hl as [Hl _].
  split_and!; [done|done|apply scan_loop_foldl].
Qed.








End triggers.




(** * Further properties of the codec *)

(** ** The stack name *)

(** X1. The stack name is the plane name with the plane number replaced
    by the token [(ZS)]: the text before and after is the same, and the
    plane of the instance has no influence on it. *)
Theorem stack_name_collapses_plane (r : ImageFile) :
  ∃ pre post,
    get_name r = pre ++ Py.format0 4 (plane r) ++ post ∧
    get_stack_name r = pre ++ lit "(ZS)" ++ post ∧
    ∀ v, get_stack_name (set_plane v r) = get_stack_name r.
Proof.
  exists (match dataset_name r with [] => [] | name => name ++ lit "_" end
          ++ lit "timelapseID-" ++ timelapse_id r
          ++ lit "_SPC-" ++ Py.format0 4 (specimen r)
          ++ lit "_TP-" ++ Py.format0 4 (time_point r)
          ++ lit "_ILL-" ++ Py.str_int (illumination r)
          ++ lit "_CAM-" ++ Py.str_int (camera r)
          ++ lit "_CH-" ++ Py.format0 2 (channel r) ++ lit "_PL-"),
         (lit "-outOf-" ++ Py.format0 4 (total_num_planes r)
          ++ match additional_info r with [] => [] | info => lit "_" ++ info end
          ++ lit "." ++ extension r).
  split_and!.
  - unfold get_name. by rewrite <-!(assoc_L (++)).
  - unfold get_stack_name. rewrite <-!(assoc_L (++)). reflexivity.
  - intros v. by destruct r.
Qed.

Lemma quiet_cons c x t :
  Re.first_alt split_by_alts (c :: x ++ t) = None → quiet x t →
  quiet (c :: x) t.
Proof.
  intros Hc Hx a b E Hb. destruct a as [|c' a]; simplify_eq/=; [done|].
  by apply (Hx a).
Qed.

Lemma quiet_stack_token t : quiet (lit "(ZS)-") t.
Proof.
  repeat (apply quiet_cons; [reflexivity|]). apply quiet_nil.
Qed.

(** The segments of a name laid out as [get_name] and [get_stack_name]
    lay it out, whatever stands between the delimiters, as long as no
    delimiter starts there. *)
Lemma split_layout_quiet pre s1 s2 s3 s4 s5 s6 s7 rest :
  (∀ t, quiet pre t) → (∀ t, quiet s1 t) → (∀ t, quiet s2 t) →
  (∀ t, quiet s3 t) → (∀ t, quiet s4 t) → (∀ t, quiet s5 t) →
  (∀ t, quiet s6 t) → (∀ t, quiet s7 t) →
  Re.split split_by_alts
    (pre ++ lit "timelapseID-" ++ s1 ++ lit "SPC-" ++ s2 ++ lit "TP-"
     ++ s3 ++ lit "ILL-" ++ s4 ++ lit "CAM-" ++ s5 ++ lit "CH-"
     ++ s6 ++ lit "PL-" ++ s7 ++ lit "outOf-" ++ rest)
  = [pre; s1; s2; s3; s4; s5; s6; s7] ++ Re.split split_by_alts rest.
Proof.
  intros H0 H1 H2 H3 H4 H5 H6 H7. unfold Re.split.
  do 8 (rewrite split_go_step; [|done|done|reflexivity]; f_equal).
Qed.

Lemma get_stack_name_layout r :
  get_stack_name r =
    (match dataset_name r with [] => [] | name => name ++ lit "_" end
     ++ lit "timelapseID-" ++ (timelapse_id r ++ ["_"]) ++ lit "SPC-"
     ++ (Py.format0 4 (specimen r) ++ ["_"]) ++ lit "TP-"
     ++ (Py.format0 4 (time_point r) ++ ["_"]) ++ lit "ILL-"
     ++ (Py.str_int (illumination r) ++ ["_"]) ++ lit "CAM-"
     ++ (Py.str_int (camera r) ++ ["_"]) ++ lit "CH-"
     ++ (Py.format0 2 (channel r) ++ ["_"]) ++ lit "PL-"
     ++ lit "(ZS)-" ++ lit "outOf-"
     ++ (Py.format0 4 (total_num_planes r)
         ++ match additional_info r with [] => [] | info => lit "_" ++ info end))
    ++ "." :: extension r.
Proof. unfold get_stack_name. rewrite <-!(assoc_L (++)). reflexivity. Qed.

Lemma get_stack_name_no_sep r :
  natural_fields r →
  "/" ∉ dataset_name r → "/" ∉ timelapse_id r →
  "/" ∉ additional_info r → "/" ∉ extension r →
  "/" ∉ get_stack_name r.
Proof.
  intros (?&?&?&?&?&?&?) Hds Hid Hinfo Hext.
  unfold get_stack_name. rewrite !not_elem_of_app.
  assert (∀ l : string, bool_decide ("/" ∉ lit l) = true → "/" ∉ lit l) as Hlit
    by (intros l; apply bool_decide_eq_true_1).
  split_and!;
    try (apply Hlit; by vm_compute);
    try (by apply digits_no_sep; auto using format0_Forall, str_int_Forall);
    try done.
  - destruct (dataset_name r); [apply not_elem_of_nil|].
    rewrite not_elem_of_app. split; [done|]. apply Hlit. by vm_compute.
  - destruct (additional_info r); [apply not_elem_of_nil|].
    rewrite not_elem_of_app. split; [|done]. apply Hlit. by vm_compute.
Qed.

(** X2. A stack name is no plane name: the canonical constructor splits
    the stack name of a decoded instance into its 10 segments and then
    fails to read the plane, so it raises [NotImagePlaneFile]. *)
Theorem stack_name_not_decoded (file_path : str) (r : ImageFile) :
  ImageFile_init file_path = inr r →
  natural_fields r →
  length (Re.split split_by_alts (get_stack_name r)) = 10%nat ∧
  ImageFile_init (get_stack_name r) =
    inl (NotImagePlaneFile
           (lit "This is not a valid filename for a single plane image file!")).
Proof.
  intros Hr Hnat. pose proof (ImageFile_init_canonical _ _ Hr Hnat) as Hcan.
  destruct Hcan as ((Hsp&Htp&Hil&Hca&Hch&Hpl&Htot) & (Hds&_&Hds') & (Hid&_&Hid')
                    & (Hinfo&_&Hinfo') & (Hext&Hext') & _).
  assert (Re.split split_by_alts (get_stack_name r) =
            [match dataset_name r with [] => [] | name => name ++ lit "_" end;
             timelapse_id r ++ ["_"];
             Py.format0 4 (specimen r) ++ ["_"];
             Py.format0 4 (time_point r) ++ ["_"];
             Py.str_int (illumination r) ++ ["_"];
             Py.str_int (camera r) ++ ["_"];
             Py.format0 2 (channel r) ++ ["_"];
             lit "(ZS)-";
             Py.format0 4 (total_num_planes r)
             ++ match additional_info r with [] => [] | info => lit "_" ++ info end;
             extension r]) as Hsplit.
  { rewrite get_stack_name_layout, split_dot.
    rewrite split_layout_quiet.
    - rewrite (split_free (extension r)) by done.
      unfold Re.split. rewrite split_go_end; [done|].
      apply quiet_digits_then; [by apply format0_Forall|].
      destruct (additional_info r); [apply quiet_nil|].
      apply (quiet_app ["_"]); [apply quiet_underscore|by apply quiet_free_end].
    - intros t. destruct (dataset_name r);
        [apply quiet_nil|by apply quiet_free_underscore].
    - intros t. by apply quiet_free_underscore.
    - intros t. apply quiet_digits_then; [by apply format0_Forall|apply quiet_underscore].
    - intros t. apply quiet_digits_then; [by apply format0_Forall|apply quiet_underscore].
    - intros t. apply quiet_digits_then; [by apply str_int_Forall|apply quiet_underscore].
    - intros t. apply quiet_digits_then; [by apply str_int_Forall|apply quiet_underscore].
    - intros t. apply quiet_digits_then; [by apply format0_Forall|apply quiet_underscore].
    - apply quiet_stack_token. }
  split; [by rewrite Hsplit|].
  eapply ImageFile_init_not_int.
  - rewrite basename_bare; [exact Hsplit|]. by apply get_stack_name_no_sep.
  - done.
  - left. exists 7%nat, (lit "(ZS)-"). split_and!; [lia|lia|done|by vm_compute].
Qed.

Lemma stack_name_not_decoded_witness :
  ∃ r,
    ImageFile_init
      (lit "in/ds_timelapseID-x_SPC-0001_TP-0002_ILL-0_CAM-1_CH-01_PL-0003-outOf-0150_bla.tif")
    = inr r ∧
    get_stack_name r =
      lit "ds_timelapseID-x_SPC-0001_TP-0002_ILL-0_CAM-1_CH-01_PL-(ZS)-outOf-0150_bla.tif" ∧
    ImageFile_init (get_stack_name r) =
      inl (NotImagePlaneFile
             (lit "This is not a valid filename for a single plane image file!")).
Proof.
  eexists. split; [vm_compute; reflexivity|]. split; [by vm_compute|].
  refine (proj2 (stack_name_not_decoded
    (lit "in/ds_timelapseID-x_SPC-0001_TP-0002_ILL-0_CAM-1_CH-01_PL-0003-outOf-0150_bla.tif")
    _ _ _)).
  - by vm_compute.
  - unfold natural_fields. simpl. lia.
Defined.

(** ** Names made from ingest names *)

(** The integer read from a run of digits is natural. *)
Lemma int_digits_nonneg ds n :
  ds ≠ [] → Forall (λ c, Py.is_digit c = true) ds →
  Py.int ds = Some n → 0 ≤ n.
Proof.
  intros Hne Hds. rewrite int_literal by done.
  by intros [? _]%literal_bound.
Qed.

Lemma delimiter_free_cons c x :
  Re.first_alt split_by_alts (c :: x) = None → delimiter_free x →
  delimiter_free (c :: x).
Proof.
  intros Hc Hx a b E. destruct a as [|c' a]; simplify_eq/=; [done|].
  by apply (Hx a).
Qed.

(** Every delimiter has a character that is no word character, so none
    occurs in a run of word characters. *)
Lemma word_delimiter_free x :
  Forall (λ c, Py.is_word c = true) x → delimiter_free x.
Proof.
  intros Hx a b ->. apply Forall_app in Hx as [_ Hb].
  destruct (Re.first_alt split_by_alts b) as [n|] eqn:E; [|done].
  apply first_alt_Some in E as (alt & t & Halt & -> & _).
  apply Forall_app in Hb as [Halt' _]. exfalso.
  assert (∃ c, c ∈ alt ∧ Py.is_word c = false) as (c & Hc & Hw).
  { unfold split_by_alts in Halt. simpl in Halt.
    repeat (apply elem_of_cons in Halt as [->|Halt];
            [first [exists "-"; split; [|done];
                    apply (bool_decide_unpack _); by vm_compute
                   |exists "."; split; [|done];
                    apply (bool_decide_unpack _); by vm_compute]|]).
    by apply elem_of_nil in Halt. }
  eapply Forall_forall in Halt'; [|done]. congruence.
Qed.

Lemma word_no_sep x : Forall (λ c, Py.is_word c = true) x → "/" ∉ x.
Proof.
  intros Hx Hsep. eapply Forall_forall in Hx; [|done]. by vm_compute in Hx.
Qed.

(** The instance the ingest constructor returns has canonical fields. *)
Lemma from_xOpenSPIM_canonical file_name file_dir r :
  get_ImageFile_from_xOpenSPIM_filename file_name file_dir = inr r →
  canonical_fields r.
Proof.
  intros Hr.
  destruct (from_xOpenSPIM_inr _ _ _ Hr) as (m & Hm & H1 & H2 & H3 & H5 & Heq).
  destruct (xOpenSPIM_groups _ _ Hm) as (Hd & [_ Hw] & _).
  assert (∀ k n, k ∈ [1; 2; 3; 4; 5]%nat → Py.int (Re.group k m) = Some n →
                 0 ≤ n < int_bound) as Hint.
  { intros k n [Hne Hds]%Hd Hn. split.
    - by apply (int_digits_nonneg (Re.group k m)).
    - apply int_below_bound in Hn. lia. }
  apply Hint in H1, H2, H3, H5;
    [|repeat first [apply list_elem_of_here|apply list_elem_of_further]..].
  assert (1 < int_bound) as Hone
    by (apply Z.pow_gt_1; unfold Py.int_max_str_digits; lia).
  rewrite Heq.
  split; [|split; [|split; [|split; [|split]]]]; cbn.
  - unfold natural_fields. cbn. split_and!; lia.
  - split_and!; [apply delimiter_free_nil|done|apply not_elem_of_nil].
  - split_and!.
    + repeat (apply delimiter_free_cons; [reflexivity|]).
      apply delimiter_free_nil.
    + split; intros c [= <-]; reflexivity.
    + apply (bool_decide_unpack _). by vm_compute.
  - split_and!; [apply delimiter_free_nil|done|apply not_elem_of_nil].
  - split; [by apply word_delimiter_free|by apply word_no_sep].
  - unfold bounded_fields. cbn. split_and!; lia.
Qed.

(** The interpreter formats every number of an instance either
    constructor returns: the f-strings of [get_name] and [get_stack_name]
    do not raise on it. *)
Lemma decoded_numbers_format r :
  (∃ file_path, ImageFile_init file_path = inr r) ∨
  (∃ file_name file_dir,
     get_ImageFile_from_xOpenSPIM_filename file_name file_dir = inr r) →
  Forall (λ n, Py.formats n = true)
    [specimen r; time_point r; illumination r; camera r; channel r; plane r;
     total_num_planes r].
Proof.
  intros [[file_path Hr]|(file_name & file_dir & Hr)].
  - apply ImageFile_init_inr in Hr
      as (p0&p1&p2&p3&p4&p5&p6&p7&p8&p9&_&_&_&H2&H3&H4&H5&H6&H7&H8&_).
    assert (Py.formats (total_num_planes r) = true) as Htot.
    { destruct (Py.cut "_" (strip_dash p8)) as [[num info]|];
        by destruct H8 as [H8%int_formats _]. }
    apply int_formats in H2, H3, H4, H5, H6, H7.
    by repeat constructor.
  - destruct (from_xOpenSPIM_inr _ _ _ Hr) as (m & _ & H1 & H2 & H3 & H5 & Heq).
    apply int_formats in H1, H2, H3, H5.
    assert (∀ n, 0 ≤ n ≤ 1 → Py.formats n = true) as Hsmall.
    { intros n Hn. unfold Py.formats. apply Z.ltb_lt.
      assert (1 < 10 ^ Py.int_max_str_digits)
        by (apply Z.pow_gt_1; unfold Py.int_max_str_digits; lia).
      lia. }
    assert (illumination r = 0 ∧ camera r = 0 ∧ total_num_planes r = 1)
      as (-> & -> & ->) by (by rewrite Heq).
    repeat constructor; auto; apply Hsmall; lia.
Qed.

(** X3. What the monitor writes can be read back: the name made for an
    ingest file is a name of the canonical grammar, and the canonical
    constructor decodes it to the very fields the ingest constructor
    gave. *)
Theorem ingest_name_decodes (file_name file_dir : str) (r : ImageFile) :
  get_ImageFile_from_xOpenSPIM_filename file_name file_dir = inr r →
  ImageFile_init (get_name r) = inr (set_path_to_image_dir [] r).
Proof. intros Hr. by eapply ImageFile_init_get_name, from_xOpenSPIM_canonical. Qed.

Lemma ingest_name_decodes_witness :
  ∃ r,
    get_ImageFile_from_xOpenSPIM_filename
      (lit "_channel01_position0002_time0003_view0_z0004.tif") (lit "in")
    = inr r ∧
    ImageFile_init (get_name r) = inr (set_path_to_image_dir [] r).
Proof.
  eexists. split; [vm_compute; reflexivity|].
  apply (ingest_name_decodes
           (lit "_channel01_position0002_time0003_view0_z0004.tif") (lit "in")).
  by vm_compute.
Defined.

(** X4. Names tell decoded instances apart: two instances the canonical
    constructor returned, with natural numbers, that have the same name
    have the same fields (the folder aside). *)
Theorem get_name_injective (p1 p2 : str) (r1 r2 : ImageFile) :
  ImageFile_init p1 = inr r1 → natural_fields r1 →
  ImageFile_init p2 = inr r2 → natural_fields r2 →
  get_name r1 = get_name r2 →
  set_path_to_image_dir [] r1 = set_path_to_image_dir [] r2.
Proof.
  intros H1 Hn1 H2 Hn2 Hname.
  pose proof (ImageFile_init_get_name r1
                (ImageFile_init_canonical _ _ H1 Hn1)) as Hd1.
  pose proof (ImageFile_init_get_name r2
                (ImageFile_init_canonical _ _ H2 Hn2)) as Hd2.
  rewrite Hname, Hd2 in Hd1. congruence.
Qed.

Lemma get_name_injective_witness :
  ∃ r1 r2,
    ImageFile_init
      (lit "a/timelapseID-x_SPC-1_TP-2_ILL-0_CAM-0_CH-1_PL-3-outOf-5.tif")
    = inr r1 ∧
    ImageFile_init
      (lit "b/_timelapseID-x_SPC-0001_TP-002_ILL-0_CAM-0_CH-01_PL-0003-outOf-05.tif")
    = inr r2 ∧
    set_path_to_image_dir [] r1 = set_path_to_image_dir [] r2.
Proof.
  do 2 eexists. split; [vm_compute; reflexivity|].
  split; [vm_compute; reflexivity|].
  eapply (get_name_injective
            (lit "a/timelapseID-x_SPC-1_TP-2_ILL-0_CAM-0_CH-1_PL-3-outOf-5.tif")
            (lit "b/_timelapseID-x_SPC-0001_TP-002_ILL-0_CAM-0_CH-01_PL-0003-outOf-05.tif")).
  - by vm_compute.
  - unfold natural_fields. simpl. lia.
  - by vm_compute.
  - unfold natural_fields. simpl. lia.
  - by vm_compute.
Defined.

(** ** Paths and extensions *)

Lemma rfind_go_absent c (p : list ascii) i found :
  c ∉ p → Path.rfind_go c p i found = found.
Proof.
  revert i found. induction p as [|x p IH]; intros i found Hc; [done|].
  apply not_elem_of_cons in Hc as [Hx Hp]. cbn [Path.rfind_go].
  rewrite bool_decide_false by done. by apply IH.
Qed.

Lemma rfind_go_last c (a b : list ascii) i found :
  c ∉ b → Path.rfind_go c (a ++ c :: b) i found = i + Z.of_nat (length a).
Proof.
  intros Hb. revert i found. induction a as [|x a IH]; intros i found.
  - cbn [app Path.rfind_go]. rewrite bool_decide_true by done.
    rewrite rfind_go_absent by done. simpl. lia.
  - cbn [app Path.rfind_go]. rewrite IH. cbn [length]. lia.
Qed.

(** [splitext] cuts a bare name at its last dot, when the text before
    that dot is more than dots. *)
Lemma splitext_bare (stem ext : list ascii) :
  "/" ∉ stem → "/" ∉ ext → "." ∉ ext →
  existsb (λ x, negb (bool_decide (x = "."))) stem = true →
  Path.splitext (stem ++ "." :: ext) = (stem, "." :: ext).
Proof.
  intros Hs He Hd Hstem. unfold Path.splitext, Path.rfind.
  rewrite rfind_go_last by done.
  rewrite rfind_go_absent
    by (rewrite not_elem_of_app, not_elem_of_cons; by split_and!).
  assert (Z.to_nat (0 + Z.of_nat (length stem)) = length stem) as -> by lia.
  change (Z.to_nat (-1 + 1)) with 0%nat.
  rewrite take_app_length, drop_app_length, drop_0, Hstem.
  replace (-1 <? 0 + Z.of_nat (length stem)) with true; [done|].
  symmetry. apply Z.ltb_lt. lia.
Qed.

Lemma get_name_stem r :
  ∃ stem, get_name r = stem ++ "." :: extension r ∧
          existsb (λ x, negb (bool_decide (x = "."))) stem = true ∧
          ∀ c, c ∈ stem → c ∈ get_name r.
Proof.
  eexists. split; [apply get_name_layout|]. split.
  - rewrite existsb_app. apply orb_true_iff. right. reflexivity.
  - intros c Hc. rewrite get_name_layout, elem_of_app. by left.
Qed.

(** X5. The name without its extension: for an instance either
    constructor returned (with natural numbers), the name is the name
    without extension, a dot, and the extension. *)
Theorem name_without_extension (r : ImageFile) :
  (∃ file_path, ImageFile_init file_path = inr r ∧ natural_fields r) ∨
  (∃ file_name file_dir,
     get_ImageFile_from_xOpenSPIM_filename file_name file_dir = inr r) →
  get_name r = get_name_without_extension r ++ "." :: extension r.
Proof.
  intros Hr.
  assert (canonical_fields r) as Hcan.
  { destruct Hr as [(file_path & Hr & Hnat)|(file_name & file_dir & Hr)];
      [by eapply ImageFile_init_canonical|by eapply from_xOpenSPIM_canonical]. }
  pose proof (get_name_bare r Hcan) as Hbare.
  destruct Hcan as (_ & _ & _ & _ & (Hext & Hext') & _).
  destruct (get_name_stem r) as (stem & Hname & Hstem & Hsub).
  unfold get_name_without_extension. rewrite Hname at 2.
  rewrite splitext_bare; [done| |done|by apply delimiter_free_no_dot|done].
  intros Hc. by apply Hbare, Hsub.
Qed.

Lemma name_without_extension_witness :
  ∃ r,
    ImageFile_init
      (lit "in/ds_timelapseID-x_SPC-1_TP-0002_ILL-0_CAM-1_CH-1_PL-03-outOf-150_bla.TIF")
    = inr r ∧
    get_name_without_extension r =
      lit "ds_timelapseID-x_SPC-0001_TP-0002_ILL-0_CAM-1_CH-01_PL-0003-outOf-0150_bla" ∧
    get_name r = get_name_without_extension r ++ "." :: extension r.
Proof.
  eexists. split; [vm_compute; reflexivity|]. split; [by vm_compute|].
  apply name_without_extension. left.
  exists (lit "in/ds_timelapseID-x_SPC-1_TP-0002_ILL-0_CAM-1_CH-1_PL-03-outOf-150_bla.TIF").
  split; [by vm_compute|]. unfold natural_fields. simpl. lia.
Defined.

Lemma forallb_Forall (f : ascii → bool) (l : list ascii) :
  forallb f l = true ↔ Forall (λ c, f c = true) l.
Proof.
  induction l as [|c l IH]; simpl; [by split|].
  rewrite andb_true_iff, IH. split.
  - intros [??]. by constructor.
  - by intros [??]%Forall_cons.
Qed.

(** What [dirname] returns: nothing, slashes only, or a path that does
    not end with a slash. *)
Lemma dirname_shape (p : list ascii) :
  Path.dirname p = [] ∨
  (Path.dirname p ≠ [] ∧ Forall (λ c, Path.is_sep c = true) (Path.dirname p)) ∨
  (∃ c, last (Path.dirname p) = Some c ∧ Path.is_sep c = false).
Proof.
  unfold Path.dirname.
  set (head := reverse (Py.lstrip _ (reverse p))).
  destruct (forallb Path.is_sep head) eqn:Hall; simpl.
  - destruct head as [|c head'] eqn:E; [by left|]. right. left.
    split; [done|]. by apply forallb_Forall.
  - right. right.
    destruct (rstrip_spec Path.is_sep head) as (b & Hhead & Hb & Hlast).
    destruct (last (Py.rstrip Path.is_sep head)) as [c|] eqn:El.
    + exists c. split; [done|]. by apply Hlast.
    + apply last_None in El. rewrite El in Hhead. simpl in Hhead. subst b.
      apply forallb_Forall in Hb. congruence.
Qed.

Lemma dirname_head (a n : list ascii) :
  "/" ∉ n →
  reverse (Py.lstrip (λ c, negb (Path.is_sep c)) (reverse (a ++ "/" :: n)))
  = a ++ ["/"].
Proof.
  intros Hn. rewrite reverse_app, reverse_cons, <-(assoc_L (++)).
  change ([ "/" ] ++ reverse a) with ("/" :: reverse a).
  rewrite lstrip_app; [|apply Forall_reverse; by apply no_sep_Forall|done].
  by rewrite reverse_cons, reverse_involutive.
Qed.

(** [dirname(join(d, n)) = d] for a bare name [n] and a folder [d] that
    [dirname] returned. *)
Lemma dirname_join_dirname (p n : list ascii) :
  "/" ∉ n → Path.dirname (Path.join (Path.dirname p) n) = Path.dirname p.
Proof.
  intros Hn. pose proof (dirname_shape p) as Hd.
  set (d := Path.dirname p) in *. unfold Path.join.
  assert (Path.starts_with_sep n = false) as ->.
  { unfold Path.starts_with_sep, Path.is_sep. destruct n as [|c n]; [done|].
    simpl. case_bool_decide; [|done]. subst. exfalso. apply Hn. left. }
  destruct Hd as [Hd|[[Hne Hall]|(c & Hlast & Hc)]].
  - rewrite Hd. simpl. by apply dirname_bare.
  - rewrite bool_decide_false by done. simpl.
    destruct (last d) as [c|] eqn:Hlast; [|by apply last_None in Hlast].
    pose proof Hlast as Hl. apply last_Some in Hl as [d' Hd'].
    assert (Path.is_sep c = true) as Hc.
    { rewrite Hd' in Hall. apply Forall_app in Hall as [_ Hall].
      by inversion Hall. }
    unfold Path.ends_with_sep. rewrite Hlast, Hc.
    assert (c = "/") as -> by (unfold Path.is_sep in Hc; by case_bool_decide).
    unfold Path.dirname. rewrite Hd', <-(assoc_L (++)).
    change ([ "/" ] ++ n) with ("/" :: n). rewrite dirname_head by done.
    rewrite <-Hd'.
    replace (forallb Path.is_sep d) with true; [done|].
    symmetry. by apply forallb_Forall.
  - assert (d ≠ []) as Hne by (intros E; by rewrite E in Hlast).
    rewrite bool_decide_false by done. simpl.
    unfold Path.ends_with_sep. rewrite Hlast, Hc.
    unfold Path.dirname. rewrite dirname_head by done.
    apply last_Some in Hlast as [d' Hd'].
    replace (forallb Path.is_sep (d ++ ["/"])) with false.
    + simpl. rewrite rstrip_snoc_drop by done. rewrite Hd'.
      by apply rstrip_snoc_keep.
    + symmetry. apply not_true_is_false. intros Hall%forallb_Forall.
      rewrite Hd' in Hall. apply Forall_app in Hall as [Hall _].
      apply Forall_app in Hall as [_ Hall]. inversion Hall; subst.
      congruence.
Qed.

(** X6. The path of a decoded instance decodes to the instance: for every
    path the canonical constructor decodes with natural numbers,
    [get_file_path] of the instance is decoded to the same instance, folder
    included; its base name is [get_name]. *)
Theorem file_path_round_trip (file_path : str) (r : ImageFile) :
  ImageFile_init file_path = inr r →
  natural_fields r →
  Path.basename (get_file_path r) = get_name r ∧
  ImageFile_init (get_file_path r) = inr r.
Proof.
  intros Hr Hnat.
  pose proof (ImageFile_init_canonical _ _ Hr Hnat) as Hcan.
  pose proof (get_name_bare r Hcan) as Hbare.
  assert (path_to_image_dir r = Path.dirname file_path) as Hdir.
  { by apply ImageFile_init_inr in Hr as (?&?&?&?&?&?&?&?&?&?&?&?&?&?&?&?&?&?&?&?&?&?). }
  assert (Path.basename (get_file_path r) = get_name r) as Hbase
    by (by apply basename_join).
  split; [done|].
  rewrite (ImageFile_init_same_name (get_name r) (get_file_path r)
             (set_path_to_image_dir [] r)).
  - unfold get_file_path. rewrite Hdir, dirname_join_dirname by done.
    rewrite <-Hdir. by destruct r.
  - by apply ImageFile_init_get_name.
  - by rewrite Hbase, basename_bare.
Qed.

Lemma file_path_round_trip_witness :
  ∃ r,
    ImageFile_init
      (lit "/data//run1/ds_timelapseID-x_SPC-1_TP-0002_ILL-0_CAM-1_CH-1_PL-03-outOf-150_bla.TIF")
    = inr r ∧
    get_file_path r =
      lit "/data//run1/ds_timelapseID-x_SPC-0001_TP-0002_ILL-0_CAM-1_CH-01_PL-0003-outOf-0150_bla.TIF" ∧
    ImageFile_init (get_file_path r) = inr r.
Proof.
  eexists. split; [vm_compute; reflexivity|]. split; [by vm_compute|].
  refine (proj2 (file_path_round_trip
    (lit "/data//run1/ds_timelapseID-x_SPC-1_TP-0002_ILL-0_CAM-1_CH-1_PL-03-outOf-150_bla.TIF")
    _ _ _)).
  - by vm_compute.
  - unfold natural_fields. simpl. lia.
Defined.

(** ** Which ingest files share a destination *)

(** The fields the ingest constructor does not read from the name. *)
Lemma from_xOpenSPIM_constants file_name file_dir r :
  get_ImageFile_from_xOpenSPIM_filename file_name file_dir = inr r →
  dataset_name r = [] ∧ timelapse_id r = lit "20240808-111112" ∧
  illumination r = 0 ∧ camera r = 0 ∧ total_num_planes r = 1 ∧
  additional_info r = [] ∧ path_to_image_dir r = file_dir.
Proof.
  intros Hr.
  destruct (from_xOpenSPIM_inr _ _ _ Hr) as (m & _ & _ & _ & _ & _ & Heq).
  by rewrite Heq.
Qed.

(** X7. Two ingest files get the same new name exactly when they agree on
    the channel, position, time and z numbers and on the extension: the
    view and the zero padding of the numbers make no difference. *)
Theorem ingest_names_collide (f1 d1 f2 d2 : str) (r1 r2 : ImageFile) :
  get_ImageFile_from_xOpenSPIM_filename f1 d1 = inr r1 →
  get_ImageFile_from_xOpenSPIM_filename f2 d2 = inr r2 →
  get_name r1 = get_name r2 ↔
  channel r1 = channel r2 ∧ specimen r1 = specimen r2 ∧
  time_point r1 = time_point r2 ∧ plane r1 = plane r2 ∧
  extension r1 = extension r2.
Proof.
  intros H1 H2. split.
  - intros Hname.
    pose proof (ImageFile_init_get_name r1
                  (from_xOpenSPIM_canonical _ _ _ H1)) as Hd1.
    pose proof (ImageFile_init_get_name r2
                  (from_xOpenSPIM_canonical _ _ _ H2)) as Hd2.
    rewrite Hname, Hd2 in Hd1.
    assert (set_path_to_image_dir [] r2 = set_path_to_image_dir [] r1) as E
      by congruence.
    destruct r1, r2. cbn in *. by simplify_eq.
  - intros (Hch & Hsp & Htp & Hpl & Hext).
    apply from_xOpenSPIM_constants in H1 as (?&?&?&?&?&?&_).
    apply from_xOpenSPIM_constants in H2 as (?&?&?&?&?&?&_).
    destruct r1, r2. cbn in *. by subst.
Qed.

Lemma ingest_names_collide_witness :
  ∃ r1 r2,
    get_ImageFile_from_xOpenSPIM_filename
      (lit "_channel01_position0002_time0003_view0_z0004.tif") [] = inr r1 ∧
    get_ImageFile_from_xOpenSPIM_filename
      (lit "_channel1_position2_time3_view7_z4.tif") [] = inr r2 ∧
    get_name r1 = get_name r2.
Proof.
  do 2 eexists. split; [vm_compute; reflexivity|].
  split; [vm_compute; reflexivity|].
  eapply (proj2 (ingest_names_collide
            (lit "_channel01_position0002_time0003_view0_z0004.tif") []
            (lit "_channel1_position2_time3_view7_z4.tif") [] _ _ _ _)).
  by split_and!.
  Unshelve. all: by vm_compute.
Defined.

(** * Further properties of the monitor *)

Section monitor_facts.
Context {world : Type} `{FileSystem world}.
Implicit Types (st : state world) (files names : list (list ascii)).
Implicit Types (who : trigger).

Lemma process_stdout who output_folder file_path st :
  ∃ line, stdout (process who output_folder file_path st).2
          = stdout st ++ [line].
Proof.
  destruct (get_ImageFile_from_xOpenSPIM_filename
              (Path.basename file_path) []) as [e|image_file] eqn:Hd.
  - rewrite (process_rejected _ _ _ e) by done. by eexists.
  - rewrite (process_decoded _ _ _ image_file) by done.
    unfold mbind, M_bind, try_except, shutil_copy, note, print. simpl.
    destruct (copy _ _ _) as [[e|] w]; simpl; by eexists.
Qed.

Lemma scan_round_stdout output_folder st f :
  ∃ line, stdout (scan_round output_folder st f) = stdout st ++ [line].
Proof.
  unfold scan_round.
  destruct (process_stdout ReconcileTrigger output_folder f st) as [line Hl].
  exists line. rewrite <-Hl.
  by destruct (process ReconcileTrigger output_folder f st) as [? []].
Qed.

Lemma scan_rounds_stdout output_folder files st :
  length (stdout (foldl (scan_round output_folder) st files))
  = (length (stdout st) + length files)%nat.
Proof.
  revert st. induction files as [|f files IH]; intros st; simpl; [lia|].
  rewrite IH. destruct (scan_round_stdout output_folder st f) as [line ->].
  rewrite length_app. simpl. lia.
Qed.

(** Every step of the monitor prints one line per call of [process], and
    only adds to [processed_files]. *)
Lemma monitor_step_report folder_to_watch output_folder st st' :
  monitor_step folder_to_watch output_folder st st' →
  processed_files st ⊆ processed_files st' ∧
  (length (stdout st') + length (history st)
   = length (stdout st) + length (history st'))%nat ∧
  (length (history st) ≤ length (history st'))%nat.
Proof.
  intros [event st0 r st1 Hev|st0 r st1 Hscan|w st0].
  - unfold on_created in Hev. destruct (is_directory event).
    + unfold mret, M_ret in Hev. simplify_eq. split_and!; [done|lia|lia].
    + destruct (process_stdout EventTrigger output_folder (src_path event) st0)
        as [line Hl].
      destruct (process_returns EventTrigger output_folder (src_path event) st0)
        as (w & out & Hp).
      rewrite Hev in Hl. rewrite Hev in Hp. simplify_eq. simpl in *.
      rewrite Hl, !length_app. simpl. split_and!; [done|lia|lia].
  - destruct (scan_directory_cases folder_to_watch output_folder st0)
      as [[e He]|(names & l & Hlist & Hl & Hrun)].
    + rewrite He in Hscan. simplify_eq. split_and!; [done|lia|lia].
    + rewrite Hrun in Hscan. simplify_eq.
      generalize ((sort_keyed l).*2). intros files.
      rewrite scan_rounds_processed, scan_rounds_history, scan_rounds_stdout.
      rewrite length_app, length_fmap.
      split_and!; [apply union_subseteq_r|lia|lia].
  - simpl. split_and!; [done|lia|lia].
Qed.

End monitor_facts.

(** X8. [processed_files] only grows: no step of the monitor, by either
    trigger or by the file system, removes a path from it. *)
Theorem processed_files_grows {world : Type} `{FileSystem world}
    (folder_to_watch output_folder : str) (st st' : state world) :
  rtc (monitor_step folder_to_watch output_folder) st st' →
  processed_files st ⊆ processed_files st'.
Proof.
  induction 1 as [|st1 st2 st3 Hstep _ IH]; [done|].
  apply monitor_step_report in Hstep as [Hsub _]. by etrans.
Qed.

(** X9. One report per file: over any run of the monitor the number of
    lines printed is the number of calls of [process], by either trigger;
    each call prints its one line, [Copied] or [Error while copying]. *)
Theorem one_line_per_call {world : Type} `{FileSystem world}
    (folder_to_watch output_folder : str) (w : world) (st : state world) :
  rtc (monitor_step folder_to_watch output_folder) (monitor_init w) st →
  length (stdout st) = length (history st).
Proof.
  intros Hrun.
  assert (length (stdout (monitor_init w))
          = length (history (monitor_init w))) as Hinit by done.
  induction Hrun as [|st1 st2 st3 Hstep _ IH]; [done|].
  apply IH. apply monitor_step_report in Hstep as (_ & Hlen & Hle). lia.
Qed.

Lemma processed_files_grows_witness :
  processed_files
    (monitor_init
       (Disk.watched [("randomfile.tif"%string, 3); ("b.tif"%string, 7)]))
  ⊆ processed_files
      (scan_directory (lit "in") (lit "out")
         (monitor_init
            (Disk.watched [("randomfile.tif"%string, 3); ("b.tif"%string, 7)]))).2.
Proof.
  apply (processed_files_grows (lit "in") (lit "out")).
  eapply rtc_l; [eapply step_scan; apply surjective_pairing|apply rtc_refl].
Defined.

Lemma one_line_per_call_witness :
  length
    (stdout
       (scan_directory (lit "in") (lit "out")
          (on_created (lit "out")
             {| is_directory := false; src_path := lit "in/b.tif" |}
             (monitor_init
                (Disk.watched
                   [("randomfile.tif"%string, 3); ("b.tif"%string, 7)]))).2).2)
  = length
      (history
         (scan_directory (lit "in") (lit "out")
            (on_created (lit "out")
               {| is_directory := false; src_path := lit "in/b.tif" |}
               (monitor_init
                  (Disk.watched
                     [("randomfile.tif"%string, 3); ("b.tif"%string, 7)]))).2).2).
Proof.
  apply (one_line_per_call (lit "in") (lit "out")
           (Disk.watched [("randomfile.tif"%string, 3); ("b.tif"%string, 7)])).
  eapply rtc_l; [eapply step_event; apply surjective_pairing|].
  eapply rtc_l; [eapply step_scan; apply surjective_pairing|].
  apply rtc_refl.
Defined.

(** X10. The scan catches up: after a scan that ended normally, every
    regular file of the listing is in [processed_files], whether its name
    decoded or not, so no later scan works on it again. *)
Theorem scan_covers_listing {world : Type} `{FileSystem world}
    (input_folder output_folder : str) (st st' : state world)
    (names : list str) (n : str) :
  scan_directory input_folder output_folder st = (inr (), st') →
  listdir input_folder (fs st) = inr names →
  n ∈ names →
  isfile (Path.join input_folder n) (fs st) = true →
  Path.join input_folder n ∈ processed_files st'.
Proof.
  intros Hscan Hlist Hn Hfile.
  destruct (scan_directory_cases input_folder output_folder st)
    as [[e He]|(names' & l & Hlist' & Hl & Hrun)]; [congruence|].
  rewrite Hrun in Hscan. simplify_eq.
  rewrite scan_rounds_processed, elem_of_union, elem_of_list_to_set.
  destruct (decide (Path.join input_folder n ∈ processed_files st));
    [by right|left].
  rewrite sort_keyed_Permutation, Hl. apply list_elem_of_filter.
  split; [done|]. apply list_elem_of_fmap. exists n. split; [done|congruence].
Qed.

Lemma scan_covers_listing_witness :
  lit "in/randomfile.tif"
  ∈ processed_files
      (scan_directory (lit "in") (lit "out")
         (monitor_init
            (Disk.watched [("randomfile.tif"%string, 3); ("b.tif"%string, 7)]))).2.
Proof.
  apply (scan_covers_listing (lit "in") (lit "out")
           (monitor_init
              (Disk.watched [("randomfile.tif"%string, 3); ("b.tif"%string, 7)]))
           _ [lit "randomfile.tif"; lit "b.tif"] (lit "randomfile.tif")).
  - vm_compute. reflexivity.
  - vm_compute. reflexivity.
  - apply list_elem_of_here.
  - vm_compute. reflexivity.
Defined.

Lemma keyed_inl {world : Type} `{FileSystem world} (st : state world)
    (files : list (list ascii)) e :
  keyed st files = inl e → ∃ p, p ∈ files ∧ getmtime p (fs st) = inl e.
Proof.
  induction files as [|f files IH]; [done|].
  cbn [keyed]. unfold mbind, exn_bind.
  destruct (getmtime f (fs st)) as [e'|t] eqn:Ht.
  - intros [= <-]. exists f. split; [left|done].
  - destruct (keyed st files) as [e'|l'] eqn:Hl'; [|done].
    intros [= <-]. destruct IH as (p & ? & ?); [done|].
    exists p. split; [by right|done].
Qed.

(** X11. A scan that raises has done nothing: the exception comes from
    the listing or from reading a time stamp, before the first file is
    processed, and the state is the one the scan started in. *)
Theorem failed_scan_changes_nothing {world : Type} `{FileSystem world}
    (input_folder output_folder : str) (st st' : state world) (e : exn) :
  scan_directory input_folder output_folder st = (inl e, st') →
  st' = st ∧
  (listdir input_folder (fs st) = inl e ∨
   ∃ names p, listdir input_folder (fs st) = inr names ∧
              p ∈ Path.join input_folder <$> names ∧
              getmtime p (fs st) = inl e).
Proof.
  unfold scan_directory.
  destruct (listdir input_folder (fs st)) as [e'|names] eqn:Hlist.
  { intros [= <- <-]. split; [done|by left]. }
  rewrite collect_filter. simpl.
  set (new_files := filter _ _).
  assert (∀ p, p ∈ new_files → p ∈ Path.join input_folder <$> names) as Hsub.
  { by intros p [_ ?]%list_elem_of_filter. }
  destruct (keyed st new_files) as [e'|l] eqn:Hl.
  - intros [= <- <-]. split; [done|]. right. exists names.
    apply keyed_inl in Hl as (p & Hp & Ht). exists p. split_and!; auto.
  - rewrite scan_loop_foldl. done.
Qed.

Lemma failed_scan_changes_nothing_witness :
  (scan_directory (lit "nowhere") (lit "out")
     (monitor_init (Disk.watched [("b.tif"%string, 7)]))).2
  = monitor_init (Disk.watched [("b.tif"%string, 7)]).
Proof.
  refine (proj1 (failed_scan_changes_nothing (lit "nowhere") (lit "out")
                   _ _ Disk.no_such_file _)).
  vm_compute. reflexivity.
Defined.

(** ** More on decoded instances *)

(** X12. What the canonical constructor never returns: a data set name or
    timelapse id that starts or ends with [-] or [_], an additional
    information that ends with one, or a free-form field or extension that
    contains a delimiter, a dot or a slash. *)
Theorem decoded_fields_are_clean (file_path : str) (r : ImageFile) :
  ImageFile_init file_path = inr r →
  (undashed (dataset_name r) ∧ undashed (timelapse_id r) ∧
   (∀ c, last (additional_info r) = Some c → c ≠ "-" ∧ c ≠ "_")) ∧
  ∀ field,
    field ∈ [dataset_name r; timelapse_id r; additional_info r; extension r] →
    delimiter_free field ∧ ("." ∉ field) ∧ ("/" ∉ field).
Proof.
  intros (p0&p1&p2&p3&p4&p5&p6&p7&p8&p9&Hs&Hds&Hid&_&_&_&_&_&_&Hinfo&Hext&_)
    %ImageFile_init_inr.
  assert (∀ p, p ∈ [p0; p1; p2; p3; p4; p5; p6; p7; p8; p9] →
               delimiter_free p ∧ "/" ∉ p) as Hseg.
  { intros p Hp. rewrite <-Hs in Hp. apply split_segment in Hp as [Hf Hc].
    split; [done|]. intros Hsep%Hc. by apply basename_no_sep in Hsep. }
  assert (∀ p, delimiter_free p ∧ "/" ∉ p →
               delimiter_free (strip_dash p) ∧ undashed (strip_dash p)
               ∧ "/" ∉ strip_dash p) as Hstrip.
  { intros p [Hf Hc]. destruct (strip_dash_spec p) as (a & b & Hp & Hu).
    split_and!; [|done|].
    - rewrite Hp in Hf. by apply delimiter_free_infix in Hf.
    - intros Hx. apply Hc. rewrite Hp, !elem_of_app. auto. }
  destruct (Hstrip p0) as (Hf0 & Hu0 & Hc0); [apply Hseg; by repeat constructor|].
  destruct (Hstrip p1) as (Hf1 & Hu1 & Hc1); [apply Hseg; by repeat constructor|].
  destruct (Hstrip p8) as (Hf8 & [_ Hl8] & Hc8); [apply Hseg; by repeat constructor|].
  destruct (Hseg p9) as (Hf9 & Hc9); [by repeat constructor|].
  rewrite <-Hds in Hf0, Hu0, Hc0. rewrite <-Hid in Hf1, Hu1, Hc1.
  rewrite <-Hext in Hf9, Hc9.
  assert (delimiter_free (additional_info r) ∧ ("/" ∉ additional_info r) ∧
          (∀ c, last (additional_info r) = Some c →
                Py.one_of (lit "-_") c = false)) as (Hfi & Hci & Hli).
  { destruct (Py.cut "_" (strip_dash p8)) as [[num info]|] eqn:Hcut.
    - destruct Hinfo as [_ ->]. apply cut_Some in Hcut as [Hcut _].
      rewrite Hcut in Hf8, Hl8, Hc8. split_and!.
      + apply (delimiter_free_infix (num ++ ["_"]) info []).
        by rewrite (right_id_L [] (++)), <-(assoc_L (++)).
      + intros Hx. apply Hc8. rewrite elem_of_app, elem_of_cons. auto.
      + intros c Hc'. apply Hl8. by rewrite last_app, last_cons, Hc'.
    - destruct Hinfo as [_ ->].
      split_and!; [apply delimiter_free_nil|apply not_elem_of_nil|done]. }
  split.
  - split_and!; [done|done|].
    intros c Hc%Hli. split; intros ->; by vm_compute in Hc.
  - intros field Hfield.
    assert (delimiter_free field ∧ "/" ∉ field) as [Hf Hc].
    { repeat (apply elem_of_cons in Hfield as [->|Hfield]; [done|]).
      by apply elem_of_nil in Hfield. }
    split_and!; [done|by apply delimiter_free_no_dot|done].
Qed.

Lemma decoded_fields_are_clean_witness :
  ∃ r,
    ImageFile_init
      (lit "in/__my-set_-timelapseID-x-_SPC-1_TP-0002_ILL-0_CAM-1_CH-1_PL-03-outOf-150_bla.TIF")
    = inr r ∧
    dataset_name r = lit "my-set" ∧ timelapse_id r = lit "x" ∧
    undashed (dataset_name r).
Proof.
  eexists. split; [vm_compute; reflexivity|]. split; [reflexivity|].
  split; [reflexivity|].
  refine (proj1 (proj1 (decoded_fields_are_clean
    (lit "in/__my-set_-timelapseID-x-_SPC-1_TP-0002_ILL-0_CAM-1_CH-1_PL-03-outOf-150_bla.TIF")
    _ _))).
  by vm_compute.
Defined.

(** X13. A plane and its stack lie in the same folder: for a decoded
    instance with natural numbers the stack path has the stack name as its
    base name and the folder of the instance, which is also the folder of
    its file path. *)
Theorem stack_path_beside_file_path (file_path : str) (r : ImageFile) :
  ImageFile_init file_path = inr r →
  natural_fields r →
  Path.basename (get_stack_path r) = get_stack_name r ∧
  Path.dirname (get_stack_path r) = path_to_image_dir r ∧
  Path.dirname (get_file_path r) = path_to_image_dir r.
Proof.
  intros Hr Hnat.
  pose proof (ImageFile_init_canonical _ _ Hr Hnat) as Hcan.
  pose proof (get_name_bare r Hcan) as Hbare.
  assert ("/" ∉ get_stack_name r) as Hstack.
  { destruct Hcan as (_ & (_&_&?) & (_&_&?) & (_&_&?) & (_&?) & _).
    by apply get_stack_name_no_sep. }
  assert (path_to_image_dir r = Path.dirname file_path) as Hdir.
  { by apply ImageFile_init_inr in Hr as (?&?&?&?&?&?&?&?&?&?&?&?&?&?&?&?&?&?&?&?&?&?). }
  unfold get_stack_path, get_file_path. rewrite Hdir.
  split_and!; [by apply basename_join|by apply dirname_join_dirname..].
Qed.

Lemma stack_path_beside_file_path_witness :
  ∃ r,
    ImageFile_init
      (lit "/data/run1/timelapseID-x_SPC-1_TP-0002_ILL-0_CAM-1_CH-1_PL-03-outOf-150.tif")
    = inr r ∧
    get_stack_path r =
      lit "/data/run1/timelapseID-x_SPC-0001_TP-0002_ILL-0_CAM-1_CH-01_PL-(ZS)-outOf-0150.tif" ∧
    Path.dirname (get_stack_path r) = path_to_image_dir r.
Proof.
  eexists. split; [vm_compute; reflexivity|]. split; [by vm_compute|].
  refine (proj1 (proj2 (stack_path_beside_file_path
    (lit "/data/run1/timelapseID-x_SPC-1_TP-0002_ILL-0_CAM-1_CH-1_PL-03-outOf-150.tif")
    _ _ _))).
  - by vm_compute.
  - unfold natural_fields. simpl. lia.
Defined.

(** X14. What the monitor writes it does not take in again: the new name
    of an ingest file is no ingest name, so if a copy shows up in the
    watched folder the ingest constructor rejects it. *)
Theorem new_name_not_ingested (file_name file_dir file_dir' : str)
    (r : ImageFile) :
  get_ImageFile_from_xOpenSPIM_filename file_name file_dir = inr r →
  get_ImageFile_from_xOpenSPIM_filename (get_name r) file_dir' =
    inl (NotImagePlaneFile (lit "xOpenSPIM file name is improperly formatted!")).
Proof.
  intros (Hds & _)%from_xOpenSPIM_constants.
  apply from_xOpenSPIM_no_match. unfold get_name. rewrite Hds. reflexivity.
Qed.

Lemma new_name_not_ingested_witness :
  ∃ r,
    get_ImageFile_from_xOpenSPIM_filename
      (lit "_channel01_position0002_time0003_view0_z0004.tif") (lit "in")
    = inr r ∧
    get_ImageFile_from_xOpenSPIM_filename (get_name r) (lit "in") =
      inl (NotImagePlaneFile
             (lit "xOpenSPIM file name is improperly formatted!")).
Proof.
  eexists. split; [vm_compute; reflexivity|].
  apply (new_name_not_ingested
           (lit "_channel01_position0002_time0003_view0_z0004.tif") (lit "in")).
  by vm_compute.
Defined.


